(** * Wake-word listeners of Claudette Home: a shallow embedding

    The three scripts under [voice/wake_word] read microphone frames, hand
    them to a wake-word engine and report detections:

    - [oww_listener.py]        standalone listener, openWakeWord engine;
    - [porcupine_listener.py]  standalone listener, Porcupine engine;
    - [wake_word_bridge.py]    both engines behind one command line,
                               reporting JSON lines on standard output.

    Each script is embedded as a program in a small monad that logs the
    calls the script makes to the outside (engine, audio device, standard
    output), counts the clock reads and stops at [sys.exit] or at an
    exception; everything the outside decides (the file system, the clock,
    the frames and signals that arrive, whether a library call raises) is an
    input.

    Conventions.
    - A Python [float] is embedded as a rational [Q]: every finite float is
      one, and arithmetic is taken exact.  [nan] and [inf] have no
      counterpart.
    - A score of the openWakeWord engine is a Python [float] or a
      [numpy.float32]; the two compare and format alike, but [json.dumps]
      writes the first and raises [TypeError] on the second.  The code of
      the bridge is embedded for any type of scores that tells the value of
      a score and what [json.dumps] makes of it ([Score]); [Q] is the type
      of the scores that are Python floats, [score] the type of the scores
      of either kind.
    - A Python [str] is embedded as a [string], one character per code point
      up to U+00FF; code points above have no counterpart.
    - A command line is embedded as the record of the options a script
      declares.  The option [-h]/[--help] that argparse adds on its own, on
      which it prints the usage and exits with status 0, is not part of the
      record: the properties are about the command lines without it.
    - The free-form lines the standalone listeners print are embedded as
      values of [human], one constructor per [print] statement, carrying the
      values the f-string interpolates; their layout is not modelled.  The
      JSON lines of the bridge are modelled as text.

    Contents: the runtime ([Py]), [datetime.isoformat] and [json.dumps]
    ([Iso], [Json]), the three scripts ([OwwListener], [PorcupineListener],
    [Bridge]), a reader for what the bridge writes ([Reader]), the
    vocabulary of the properties and a sample world ([Sample]), then the
    properties: the scores of the engine in the bridge (C1), the detection
    counter (C8), the stats line (C4), the keyword-spotting backend (C5,
    C10), the detection event (C6), shutdown (C3) and startup (C2, C7, C9);
    and further properties of the standard output of the bridge, of
    failures and of the command lines (X1 to X15). *)

From Stdlib Require Import List String Ascii NArith ZArith QArith Qround Bool Lia Arith.
From Stdlib Require Import DecimalString Decimal DecimalZ.
From Stdlib Require DecimalFacts DecimalPos.
Import ListNotations.

Close Scope Q_scope.
Open Scope string_scope.
Open Scope list_scope.
Open Scope nat_scope.

Infix "+++" := String.append (right associativity, at level 60).

(** ** The Python runtime the scripts rely on *)

Module Py.

(** Exceptions that reach the top level. *)
Inductive exn :=
| ValueError          (* float() on a malformed string *)
| ZeroDivisionError   (* true division by zero *)
| TypeError           (* json.dumps on an object it cannot write *)
| EngineError         (* raised by the wake-word engine *)
| DeviceError.        (* raised by the audio device *)

(** How a process ends: [sys.exit(code)], or an exception nobody catches. *)
Inductive halt :=
| SysExit (code : Z)
| Uncaught (e : exn).

(** The interpreter turns an uncaught exception into exit status 1. *)
Definition exit_status (h : halt) : Z :=
  match h with
  | SysExit code => code
  | Uncaught _ => 1%Z
  end.

(** [datetime]: the fields of a Python [datetime] object. *)
Record datetime := {
  year : N; month : N; day : N;
  hour : N; minute : N; second : N; microsecond : N
}.

(** The invariant of Python's [datetime] type. *)
Definition valid_datetime (d : datetime) : bool :=
  ((1 <=? year d) && (year d <=? 9999) &&
   (1 <=? month d) && (month d <=? 12) &&
   (1 <=? day d) && (day d <=? 31) &&
   (hour d <? 24) && (minute d <? 60) && (second d <? 60) &&
   (microsecond d <? 1000000))%N.

(** One reading of the clock: [time.time()], [datetime.now(timezone.utc)]
    and [datetime.now()]. *)
Record instant := {
  unix : Q;
  utc : datetime;
  local : datetime
}.

(** The handle [pvporcupine.create] returns. *)
Record porcupine := {
  sample_rate : Z;
  frame_length : Z
}.

(** The lines the standalone listeners print, one constructor per [print]
    statement, with the values its f-string interpolates. *)
Inductive human :=
| ErrModelNotFound (model : string)
| HintOptions | HintOptionA | HintOptionB | HintOptionC   (* oww_listener.main *)
| ErrNoAccessKey | HintGetKey | HintTrain                 (* porcupine_listener.main *)
| LoadingOww (model : string)
| ShowThreshold (threshold : Q)
| LoadingPorcupine (model : string)
| ShowSensitivity (sensitivity : Q)
| BannerOww
| BannerPorcupine
| ShowModel (name : string)
| ShowAudio (rate chunk : Z)
| ShowSampleRate (rate : Z)
| ShowFrameLength (n : Z)
| PressCtrlC
| ShuttingDown
| DetectedScore (ts : datetime) (word : string) (score : Q)
| DetectedBackend (ts : datetime) (backend : string)
| TodoStt | TodoRecord | TodoIntent
| Stats (detections : nat) (minutes : Q) (rate : Q).

(** The calls a script makes to the outside, in the order it makes them. *)
Inductive call :=
| PorcupineCreate (access_key model : string) (sensitivity : Q)
| OwwModel (model : string)
| PyAudio
| PaOpen (rate frames_per_buffer : Z)
| StreamClose
| PaTerminate
| PorcupineDelete
| Say (line : human)                      (* print(f"...") *)
| Stdout (text : string) (flush : bool).  (* print(text, flush=...): the text
                                             and a line feed *)

(** What the outside decides. *)
Record world := {
  environ : string -> option string;      (* os.environ.get *)
  path_exists : string -> bool;           (* os.path.exists *)
  script_dir : string;                    (* os.path.dirname(__file__) *)
  float_of_str : string -> option Q;      (* float(s); None: ValueError *)
  float_repr : Q -> string;               (* repr of a float *)
  clock : nat -> instant;                 (* the k-th reading of the clock *)
  porcupine_create : string -> string -> Q -> option porcupine;
                                          (* None: pvporcupine.create raises *)
  oww_model : string -> bool;             (* false: Model(...) raises *)
  pa_open : Z -> Z -> bool;               (* false: pa.open raises *)
  raises : call -> bool                   (* does this release call raise? *)
}.

(** A run of a (piece of a) script: the calls it made, in order, the number
    of clock reads so far, and how it ended. *)
Inductive res (A : Type) :=
| Val (a : A)
| Stop (h : halt).
Arguments Val {A} a.
Arguments Stop {A} h.

Record run (A : Type) := Run {
  calls : list call;
  reads : nat;
  result : res A
}.
Arguments Run {A} calls reads result.
Arguments calls {A} r.
Arguments reads {A} r.
Arguments result {A} r.

(** A program maps the number of clock reads made before it starts to its
    run. *)
Definition prog (A : Type) : Type := nat -> run A.

Definition ret {A} (a : A) : prog A := fun k => Run [] k (Val a).

Definition bind {A B} (m : prog A) (f : A -> prog B) : prog B :=
  fun k =>
    let r := m k in
    match result r with
    | Val a =>
        let r' := f a (reads r) in
        Run (calls r ++ calls r') (reads r') (result r')
    | Stop h => Run (calls r) (reads r) (Stop h)
    end.

Definition raise {A} (e : exn) : prog A := fun k => Run [] k (Stop (Uncaught e)).

Definition sys_exit {A} (code : Z) : prog A :=
  fun k => Run [] k (Stop (SysExit code)).

Definition perform (c : call) : prog unit := fun k => Run [c] k (Val tt).

Definition now (w : world) : prog instant :=
  fun k => Run [] (S k) (Val (clock w k)).

(** A release call: it is logged, then it may raise. *)
Definition release (w : world) (c : call) : prog unit :=
  bind (perform c) (fun _ => if raises w c then raise DeviceError else ret tt).

(** [for x in xs: body(x)]. *)
Fixpoint for_each {A} (body : A -> prog unit) (xs : list A) : prog unit :=
  match xs with
  | [] => ret tt
  | x :: rest => bind (body x) (fun _ => for_each body rest)
  end.

(** [int(x)] on a float: truncation towards zero. *)
Definition int (x : Q) : Z := Z.quot (Qnum x) (Z.pos (Qden x)).

(** [a / b] on floats. *)
Definition truediv (a b : Q) : prog Q :=
  if Qeq_bool b 0 then raise ZeroDivisionError else ret (a / b)%Q.

(** [not s] on an optional string: [None] and the empty string are falsy. *)
Definition falsy (s : option string) : bool :=
  match s with
  | None => true
  | Some "" => true
  | Some _ => false
  end.

(** The string an optional string holds; [falsy] tells [None] apart. *)
Definition text (s : option string) : string :=
  match s with
  | Some x => x
  | None => ""
  end.

(** [posixpath.join], one component at a time. *)
Fixpoint ends_with_sep (s : string) : bool :=
  match s with
  | "" => false
  | String c "" => Ascii.eqb c "/"
  | String _ rest => ends_with_sep rest
  end.

Definition starts_with_sep (s : string) : bool :=
  match s with
  | String c _ => Ascii.eqb c "/"
  | "" => false
  end.

Definition join1 (path b : string) : string :=
  if starts_with_sep b then b
  else if (String.eqb path "" || ends_with_sep path)%bool then path +++ b
  else path +++ "/" +++ b.

Definition path_join (a : string) (p : list string) : string :=
  fold_left join1 p a.

End Py.

Export Py.

Notation "x <- m ;; k" := (bind m (fun x => k))
  (at level 61, m at next level, right associativity).
Notation "m ;;; k" := (bind m (fun _ => k))
  (at level 61, right associativity).

(** [os.path.basename]: what follows the last separator. *)
Fixpoint basename_from (p cur : string) : string :=
  match p with
  | "" => cur
  | String c rest =>
      if Ascii.eqb c "/" then basename_from rest ""
      else basename_from rest (cur +++ String c "")
  end.

Definition basename (p : string) : string := basename_from p "".

(** What precedes the last dot of [s], if [s] has a dot. *)
Fixpoint before_last_dot (s : string) : option string :=
  match s with
  | "" => None
  | String c rest =>
      match before_last_dot rest with
      | Some pre => Some (String c pre)
      | None => if Ascii.eqb c "." then Some "" else None
      end
  end.

Fixpoint only_dots (s : string) : bool :=
  match s with
  | "" => true
  | String c rest => Ascii.eqb c "." && only_dots rest
  end.

(** [os.path.splitext(name)[0]] on a name without separator: the extension
    starts at the last dot, unless only dots precede it. *)
Definition splitext_root (name : string) : string :=
  match before_last_dot name with
  | Some pre => if only_dots pre then name else pre
  | None => name
  end.

(** ** [datetime.isoformat] *)

Module Iso.

Definition digit (n : N) : ascii := ascii_of_N (48 + n mod 10).

(** [n] in [k] decimal digits, as [%0kd] prints a number below [10^k]. *)
Fixpoint zfill (k : nat) (n : N) : string :=
  match k with
  | O => ""
  | S k' => zfill k' (n / 10) +++ String (digit n) ""
  end.

(** [d.isoformat()] for a [datetime] whose [tzinfo] is [timezone.utc]. *)
Definition isoformat (d : datetime) : string :=
  zfill 4 (year d) +++ "-" +++ zfill 2 (month d) +++ "-" +++ zfill 2 (day d)
  +++ "T" +++ zfill 2 (hour d) +++ ":" +++ zfill 2 (minute d) +++ ":"
  +++ zfill 2 (second d)
  +++ (if (microsecond d =? 0)%N then "" else "." +++ zfill 6 (microsecond d))
  +++ "+00:00".

End Iso.

(** ** [json.dumps] on the dictionaries the bridge builds *)

Module Json.

Inductive value :=
| JNull                 (* None *)
| JStr (s : string)
| JFloat (x : Q)
| JInt (n : Z).

(** A [dict] keeps its keys in insertion order. *)
Definition dict := list (string * value).

(** [d[k] = v]: an existing key keeps its place. *)
Fixpoint dict_set (d : dict) (k : string) (v : value) : dict :=
  match d with
  | [] => [(k, v)]
  | (k', v') :: rest =>
      if String.eqb k' k then (k, v) :: rest else (k', v') :: dict_set rest k v
  end.

(** [{**d, **items}]. *)
Definition dict_update (d : dict) (items : list (string * value)) : dict :=
  fold_left (fun acc kv => dict_set acc (fst kv) (snd kv)) items d.

(** A dictionary display [{k1: v1, ...}]. *)
Definition dict_of (items : list (string * value)) : dict := dict_update [] items.

Fixpoint dict_get (d : dict) (k : string) : option value :=
  match d with
  | [] => None
  | (k', v) :: rest => if String.eqb k' k then Some v else dict_get rest k
  end.

Definition dquote : ascii := "034"%char.
Definition backslash : ascii := "092"%char.

Definition hex (n : N) : ascii :=
  if (n <? 10)%N then ascii_of_N (48 + n) else ascii_of_N (87 + n).

(** [ESCAPE_DCT] and the [\uXXXX] fallback of [json.encoder], with
    [ensure_ascii] left at its default: everything outside [' '..'~'] is
    escaped, and so are the quote and the backslash. *)
Definition escape_char (c : ascii) : string :=
  let n := N_of_ascii c in
  if (n =? 34)%N then String backslash (String dquote "")
  else if (n =? 92)%N then String backslash (String backslash "")
  else if (n =? 8)%N then String backslash "b"
  else if (n =? 12)%N then String backslash "f"
  else if (n =? 10)%N then String backslash "n"
  else if (n =? 13)%N then String backslash "r"
  else if (n =? 9)%N then String backslash "t"
  else if ((32 <=? n) && (n <=? 126))%N then String c ""
  else String backslash
         ("u00" +++ String (hex (n / 16)) (String (hex (n mod 16)) "")).

Fixpoint escape (s : string) : string :=
  match s with
  | "" => ""
  | String c rest => escape_char c +++ escape rest
  end.

Definition quoted (s : string) : string :=
  String dquote (escape s +++ String dquote "").

Section Dumps.
Variable w : world.

Definition dumps_value (v : value) : string :=
  match v with
  | JNull => "null"
  | JStr s => quoted s
  | JFloat x => float_repr w x
  | JInt n => NilZero.string_of_int (Z.to_int n)
  end.

Definition dumps_item (kv : string * value) : string :=
  quoted (fst kv) +++ ": " +++ dumps_value (snd kv).

Fixpoint dumps_items (d : dict) : string :=
  match d with
  | [] => ""
  | [kv] => dumps_item kv
  | kv :: rest => dumps_item kv +++ ", " +++ dumps_items rest
  end.

(** [json.dumps(d)] with the default separators. *)
Definition dumps (d : dict) : string := "{" +++ dumps_items d +++ "}".

End Dumps.

End Json.

Export Iso Json.

(** ** The scores of the openWakeWord engine

    What [oww_model.predict] returns for a word is a Python [float] or a
    [numpy.float32].  The scripts compare a score with the threshold and
    format it, which both kinds allow with the same outcome; the bridge also
    hands it to [json.dumps], which writes a [float] and raises [TypeError]
    on a [numpy.float32]. *)

Class Score (S : Type) := {
  as_float : S -> Q;               (* the value of the score *)
  json_of : S -> option value      (* what json.dumps writes; None: TypeError *)
}.

Inductive score :=
| Float (x : Q)        (* a Python float *)
| Float32 (x : Q).     (* a numpy.float32 *)

#[export] Instance any_score : Score score | 10 :=
  {| as_float := fun s => match s with Float x | Float32 x => x end;
     json_of := fun s =>
       match s with
       | Float x => Some (JFloat x)
       | Float32 _ => None
       end |}.

(** The scores that are Python floats.  This instance is the first one
    tried: a statement that leaves the type of the scores open is about
    Python floats. *)
#[export] Instance python_float : Score Q | 0 :=
  {| as_float := fun x => x;
     json_of := fun x => Some (JFloat x) |}.

(** What arrives while a listener loops: a frame the engine answered with
    [r]; an exception out of [stream.read] or of the engine; a termination
    signal (SIGINT or SIGTERM), whose handler runs when the read it
    interrupts returns. *)
Inductive stimulus (R : Type) :=
| Frame (r : R)
| Fault (e : exn)
| Signal.
Arguments Frame {R} r.
Arguments Fault {R} e.
Arguments Signal {R}.

(** ** [oww_listener.py] *)

Module OwwListener.

(** The command line, as given: [--model], [--threshold] ([-h] apart). *)
Record flags := {
  flag_model : option string;
  flag_threshold : option string
}.

Definition CHUNK : Z := 1620.
Definition RATE : Z := 16000.

Section Script.
Variable w : world.

Definition on_wake_word_detected (word : string) (score : Q) : prog unit :=
  t <- now w ;;
  perform (Say (DetectedScore (local t) word score)) ;;;
  perform (Say TodoStt) ;;;
  perform (Say TodoRecord) ;;;
  perform (Say TodoIntent).

(** The signal handler; it does not return. *)
Definition shutdown {A} : prog A :=
  perform (Say ShuttingDown) ;;;
  release w StreamClose ;;;
  release w PaTerminate ;;;
  sys_exit 0.

(** [for word, score in predictions.items(): ...]; a score is given by its
    value: the listener compares and formats it, which a [float] and a
    [numpy.float32] allow alike. *)
Fixpoint scan (threshold : Q) (predictions : list (string * Q))
    (detection_count : nat) : prog nat :=
  match predictions with
  | [] => ret detection_count
  | (word, score) :: rest =>
      if Qle_bool threshold score then
        let detection_count := S detection_count in
        on_wake_word_detected word score ;;;
        scan threshold rest detection_count
      else scan threshold rest detection_count
  end.

(** The stats report that ends the loop body. *)
Definition report_stats (start_time : Q) (detection_count : nat) : prog unit :=
  t <- now w ;;
  let elapsed := (unix t - start_time)%Q in
  if ((int elapsed mod 60 =? 0) && (int elapsed >? 0))%Z then
    rate <- truediv (inject_Z (Z.of_nat detection_count)) (elapsed / 3600)%Q ;;
    perform (Say (Stats detection_count (elapsed / 60)%Q rate))
  else ret tt.

(** One turn of [while True], on the predictions of one frame. *)
Definition iteration (threshold start_time : Q)
    (predictions : list (string * Q)) (detection_count : nat) : prog nat :=
  n <- scan threshold predictions detection_count ;;
  report_stats start_time n ;;;
  ret n.

(** The loop, on what arrives.  A value is the detection count once
    nothing more arrives: the process then waits in [stream.read]. *)
Fixpoint loop (threshold start_time : Q)
    (arrivals : list (stimulus (list (string * Q))))
    (detection_count : nat) : prog nat :=
  match arrivals with
  | [] => ret detection_count
  | Frame predictions :: rest =>
      n <- iteration threshold start_time predictions detection_count ;;
      loop threshold start_time rest n
  | Fault e :: _ => raise e
  | Signal :: _ => shutdown
  end.

Definition listen (model_path : string) (threshold : Q)
    (arrivals : list (stimulus (list (string * Q)))) : prog nat :=
  perform (Say (LoadingOww model_path)) ;;;
  perform (Say (ShowThreshold threshold)) ;;;
  perform (OwwModel model_path) ;;;
  (if oww_model w model_path then ret tt else raise EngineError) ;;;
  perform PyAudio ;;;
  perform (PaOpen RATE CHUNK) ;;;
  (if pa_open w RATE CHUNK then ret tt else raise DeviceError) ;;;
  let model_name := splitext_root (basename model_path) in
  perform (Say BannerOww) ;;;
  perform (Say (ShowModel model_name)) ;;;
  perform (Say (ShowAudio RATE CHUNK)) ;;;
  perform (Say PressCtrlC) ;;;
  t0 <- now w ;;
  loop threshold (unix t0) arrivals 0.

(** [parser.parse_args()]: a [--threshold] that is no float is an argparse
    error, exit status 2. *)
Definition parse_args (f : flags) : prog (string * Q) :=
  let model :=
    match flag_model f with
    | Some m => m
    | None => path_join (script_dir w) ["models"; "claudette.tflite"]
    end in
  match flag_threshold f with
  | None => ret (model, (1 # 2)%Q)
  | Some s =>
      match float_of_str w s with
      | Some x => ret (model, x)
      | None => sys_exit 2
      end
  end.

Definition main (f : flags)
    (arrivals : list (stimulus (list (string * Q)))) : prog nat :=
  args <- parse_args f ;;
  let (model, threshold) := args in
  if negb (path_exists w model) then
    perform (Say (ErrModelNotFound model)) ;;;
    perform (Say HintOptions) ;;;
    perform (Say HintOptionA) ;;;
    perform (Say HintOptionB) ;;;
    perform (Say HintOptionC) ;;;
    sys_exit 1
  else listen model threshold arrivals.

End Script.

End OwwListener.

(** ** [porcupine_listener.py] *)

Module PorcupineListener.

(** The command line, as given: [--model], [--sensitivity], [--access-key]
    ([-h] apart). *)
Record flags := {
  flag_model : option string;
  flag_sensitivity : option string;
  flag_access_key : option string
}.

Section Script.
Variable w : world.

Definition on_wake_word_detected (backend : string) : prog unit :=
  t <- now w ;;
  perform (Say (DetectedBackend (local t) backend)) ;;;
  perform (Say TodoStt) ;;;
  perform (Say TodoRecord) ;;;
  perform (Say TodoIntent).

(** The signal handler; it does not return. *)
Definition shutdown {A} : prog A :=
  perform (Say ShuttingDown) ;;;
  release w StreamClose ;;;
  release w PaTerminate ;;;
  release w PorcupineDelete ;;;
  sys_exit 0.

Definition report_stats (start_time : Q) (detection_count : nat) : prog unit :=
  t <- now w ;;
  let elapsed := (unix t - start_time)%Q in
  if ((int elapsed mod 60 =? 0) && (int elapsed >? 0))%Z then
    rate <- truediv (inject_Z (Z.of_nat detection_count)) (elapsed / 3600)%Q ;;
    perform (Say (Stats detection_count (elapsed / 60)%Q rate))
  else ret tt.

(** One turn of [while True]; [result] is what [porcupine.process]
    returned for the frame. *)
Definition iteration (start_time : Q) (result : Z) (detection_count : nat)
    : prog nat :=
  n <- (if (result >=? 0)%Z then
          let detection_count := S detection_count in
          on_wake_word_detected "porcupine" ;;;
          ret detection_count
        else ret detection_count) ;;
  report_stats start_time n ;;;
  ret n.

Fixpoint loop (start_time : Q) (arrivals : list (stimulus Z))
    (detection_count : nat) : prog nat :=
  match arrivals with
  | [] => ret detection_count
  | Frame result :: rest =>
      n <- iteration start_time result detection_count ;;
      loop start_time rest n
  | Fault e :: _ => raise e
  | Signal :: _ => shutdown
  end.

Definition listen (model_path access_key : string) (sensitivity : Q)
    (arrivals : list (stimulus Z)) : prog nat :=
  perform (Say (LoadingPorcupine model_path)) ;;;
  perform (Say (ShowSensitivity sensitivity)) ;;;
  perform (PorcupineCreate access_key model_path sensitivity) ;;;
  match porcupine_create w access_key model_path sensitivity with
  | None => raise EngineError
  | Some porcupine =>
      perform PyAudio ;;;
      perform (PaOpen (sample_rate porcupine) (frame_length porcupine)) ;;;
      (if pa_open w (sample_rate porcupine) (frame_length porcupine)
       then ret tt else raise DeviceError) ;;;
      perform (Say BannerPorcupine) ;;;
      perform (Say (ShowSampleRate (sample_rate porcupine))) ;;;
      perform (Say (ShowFrameLength (frame_length porcupine))) ;;;
      perform (Say PressCtrlC) ;;;
      t0 <- now w ;;
      loop (unix t0) arrivals 0
  end.

Record args := {
  model : string;
  sensitivity : Q;
  access_key : option string
}.

Definition parse_args (f : flags) : prog args :=
  let model :=
    match flag_model f with
    | Some m => m
    | None => path_join (script_dir w) ["models"; "claudette_linux.ppn"]
    end in
  let access_key :=
    match flag_access_key f with
    | Some k => Some k
    | None => environ w "PORCUPINE_ACCESS_KEY"
    end in
  match flag_sensitivity f with
  | None => ret {| model := model; sensitivity := (1 # 2)%Q;
                   access_key := access_key |}
  | Some s =>
      match float_of_str w s with
      | Some x => ret {| model := model; sensitivity := x;
                         access_key := access_key |}
      | None => sys_exit 2
      end
  end.

Definition main (f : flags) (arrivals : list (stimulus Z)) : prog nat :=
  a <- parse_args f ;;
  if falsy (access_key a) then
    perform (Say ErrNoAccessKey) ;;;
    perform (Say HintGetKey) ;;;
    sys_exit 1
  else if negb (path_exists w (model a)) then
    perform (Say (ErrModelNotFound (model a))) ;;;
    perform (Say HintTrain) ;;;
    sys_exit 1
  else listen (model a) (text (access_key a)) (sensitivity a) arrivals.

End Script.

End PorcupineListener.

(** ** [wake_word_bridge.py] *)

Module Bridge.

(** The command line, as given: [--backend], [--model], [--threshold],
    [--access-key] ([-h] apart). *)
Record flags := {
  flag_backend : option string;
  flag_model : option string;
  flag_threshold : option string;
  flag_access_key : option string
}.

(** The namespace [parse_args] returns. *)
Record args := {
  backend : string;
  model : option string;
  threshold : Q;
  access_key : option string
}.

Definition CHUNK : Z := 1620.

(** The line [main] prints when the access key is missing. *)
Definition error_line : string :=
  "{" +++ String dquote "error" +++ String dquote ": "
  +++ String dquote "PORCUPINE_ACCESS_KEY not set" +++ String dquote "}".

Section Script.
Variable w : world.

(** [data] holds values [json.dumps] writes: [None], strings, floats and
    integers. *)
Definition emit_event (event_type : string) (data : dict) : prog unit :=
  t <- now w ;;
  let event :=
    dict_update
      (dict_of [("ts", JStr (isoformat (utc t))); ("type", JStr event_type)])
      data in
  perform (Stdout (dumps w event) true).

(** [emit_event] on data that holds an object [json.dumps] cannot write: the
    event is built, which reads the clock, then [json.dumps] raises
    [TypeError] and nothing is printed. *)
Definition emit_event_refused : prog unit :=
  now w ;;; raise TypeError.

(** [score] is [None] when the caller passes no score. *)
Definition on_detection {S} `{Score S} (backend word : string) (score : option S)
    : prog unit :=
  match score with
  | None =>
      emit_event "wake_word_detected"
        (dict_of [("backend", JStr backend); ("word", JStr word); ("score", JNull)])
  | Some s =>
      match json_of s with
      | Some v =>
          emit_event "wake_word_detected"
            (dict_of [("backend", JStr backend); ("word", JStr word); ("score", v)])
      | None => emit_event_refused
      end
  end.

(** The signal handler of [run_porcupine]; it does not return. *)
Definition porcupine_shutdown {A} : prog A :=
  release w StreamClose ;;;
  release w PaTerminate ;;;
  release w PorcupineDelete ;;;
  emit_event "listener_stopped" (dict_of [("backend", JStr "porcupine")]) ;;;
  sys_exit 0.

(** One turn of the loop of [run_porcupine]. *)
Definition porcupine_iteration (result : Z) : prog unit :=
  if (result >=? 0)%Z then on_detection (S := Q) "porcupine" "claudette" None
  else ret tt.

Fixpoint porcupine_loop (arrivals : list (stimulus Z)) : prog unit :=
  match arrivals with
  | [] => ret tt
  | Frame result :: rest => porcupine_iteration result ;;; porcupine_loop rest
  | Fault e :: _ => raise e
  | Signal :: _ => porcupine_shutdown
  end.

Definition run_porcupine (model_path access_key : string) (sensitivity : Q)
    (arrivals : list (stimulus Z)) : prog unit :=
  perform (PorcupineCreate access_key model_path sensitivity) ;;;
  match porcupine_create w access_key model_path sensitivity with
  | None => raise EngineError
  | Some porcupine =>
      perform PyAudio ;;;
      perform (PaOpen (sample_rate porcupine) (frame_length porcupine)) ;;;
      (if pa_open w (sample_rate porcupine) (frame_length porcupine)
       then ret tt else raise DeviceError) ;;;
      emit_event "listener_started"
        (dict_of [("backend", JStr "porcupine");
                  ("model", JStr model_path);
                  ("sensitivity", JFloat sensitivity);
                  ("sample_rate", JInt (sample_rate porcupine))]) ;;;
      porcupine_loop arrivals
  end.

(** The signal handler of [run_oww]; it does not return. *)
Definition oww_shutdown {A} : prog A :=
  release w StreamClose ;;;
  release w PaTerminate ;;;
  emit_event "listener_stopped" (dict_of [("backend", JStr "oww")]) ;;;
  sys_exit 0.

(** One turn of the loop of [run_oww]:
    [for word, score in oww_model.predict(audio_np).items(): ...] *)
Definition oww_iteration {S} `{Score S} (threshold : Q)
    (predictions : list (string * S)) : prog unit :=
  for_each
    (fun item : string * S =>
       let (word, score) := item in
       if Qle_bool threshold (as_float score)
       then on_detection "oww" word (Some score)
       else ret tt)
    predictions.

Fixpoint oww_loop {S} `{Score S} (threshold : Q)
    (arrivals : list (stimulus (list (string * S)))) : prog unit :=
  match arrivals with
  | [] => ret tt
  | Frame predictions :: rest =>
      oww_iteration threshold predictions ;;; oww_loop threshold rest
  | Fault e :: _ => raise e
  | Signal :: _ => oww_shutdown
  end.

Definition run_oww {S} `{Score S} (model_path : string) (threshold : Q)
    (arrivals : list (stimulus (list (string * S)))) : prog unit :=
  perform (OwwModel model_path) ;;;
  (if oww_model w model_path then ret tt else raise EngineError) ;;;
  perform PyAudio ;;;
  perform (PaOpen 16000 CHUNK) ;;;
  (if pa_open w 16000 CHUNK then ret tt else raise DeviceError) ;;;
  emit_event "listener_started"
    (dict_of [("backend", JStr "oww");
              ("model", JStr model_path);
              ("threshold", JFloat threshold)]) ;;;
  oww_loop threshold arrivals.

(** The parser of [main].  The default of [--threshold] is computed when the
    argument is declared, before the command line is read; a flag argparse
    rejects ends the process with status 2. *)
Definition parse_args (f : flags) : prog args :=
  default_threshold <-
    match float_of_str w
            (match environ w "WAKE_WORD_THRESHOLD" with
             | Some s => s
             | None => "0.5"
             end) with
    | Some x => ret x
    | None => raise ValueError
    end ;;
  backend <-
    match flag_backend f with
    | Some b =>
        if (String.eqb b "porcupine" || String.eqb b "oww")%bool then ret b
        else sys_exit 2
    | None =>
        ret (match environ w "WAKE_WORD_BACKEND" with
             | Some b => b
             | None => "porcupine"
             end)
    end ;;
  threshold <-
    match flag_threshold f with
    | Some s =>
        match float_of_str w s with
        | Some x => ret x
        | None => sys_exit 2
        end
    | None => ret default_threshold
    end ;;
  ret {| backend := backend;
         model := match flag_model f with
                  | Some m => Some m
                  | None => environ w "WAKE_WORD_MODEL"
                  end;
         threshold := threshold;
         access_key := match flag_access_key f with
                       | Some k => Some k
                       | None => environ w "PORCUPINE_ACCESS_KEY"
                       end |}.

(** The model path [main] settles on. *)
Definition model_path (a : args) : string :=
  if falsy (model a) then
    let base := script_dir w in
    if String.eqb (backend a) "porcupine"
    then path_join base ["models"; "claudette_linux.ppn"]
    else path_join base ["models"; "claudette.tflite"]
  else text (model a).

(** [keyword_arrivals] is what arrives when the Porcupine engine runs,
    [score_arrivals] what arrives when openWakeWord runs. *)
Definition main {S} `{Score S} (f : flags)
    (keyword_arrivals : list (stimulus Z))
    (score_arrivals : list (stimulus (list (string * S)))) : prog unit :=
  a <- parse_args f ;;
  let model := model_path a in
  if String.eqb (backend a) "porcupine" then
    if falsy (access_key a) then
      perform (Stdout error_line true) ;;;
      sys_exit 1
    else run_porcupine model (text (access_key a)) (threshold a) keyword_arrivals
  else run_oww model (threshold a) score_arrivals.

End Script.

End Bridge.

(** ** Reading the bridge's lines back

    A reader for the JSON texts that are one object whose members are
    strings, numbers and literals (RFC 8259), and one for ISO 8601
    timestamps.  Strings and numbers are returned as they are written. *)

Module Reader.

Inductive token :=
| TLBrace | TRBrace | TColon | TComma
| TString (raw : string)       (* what stands between the quotes *)
| TWord (word : string).       (* a number or a literal *)

(** Where the lexer stands; [acc] is the token read so far, last
    character first. *)
Inductive mode :=
| Between
| InString (acc : string)
| Escaped (acc : string)              (* after a backslash *)
| Hex (acc : string) (due : nat)      (* after [\u], [S due] digits to come *)
| InWord (acc : string).

Fixpoint rev_onto (s acc : string) : string :=
  match s with
  | "" => acc
  | String c rest => rev_onto rest (String c acc)
  end.

Definition unrev (acc : string) : string := rev_onto acc "".

Definition is_space (c : ascii) : bool :=
  let n := N_of_ascii c in ((n =? 32) || (n =? 9) || (n =? 10) || (n =? 13))%N.

Definition punct (c : ascii) : option token :=
  let n := N_of_ascii c in
  if (n =? 123)%N then Some TLBrace
  else if (n =? 125)%N then Some TRBrace
  else if (n =? 58)%N then Some TColon
  else if (n =? 44)%N then Some TComma
  else None.

Definition is_hex (c : ascii) : bool :=
  let n := N_of_ascii c in
  (((48 <=? n) && (n <=? 57)) || ((97 <=? n) && (n <=? 102))
   || ((65 <=? n) && (n <=? 70)))%N.

(** The characters that may follow a backslash, [u] apart. *)
Definition is_simple_escape (c : ascii) : bool :=
  let n := N_of_ascii c in
  ((n =? 34) || (n =? 92) || (n =? 47) || (n =? 98) || (n =? 102)
   || (n =? 110) || (n =? 114) || (n =? 116))%N.

Definition push (t : token) (ts : option (list token)) : option (list token) :=
  option_map (cons t) ts.

Fixpoint lex (m : mode) (s : string) : option (list token) :=
  match s with
  | "" =>
      match m with
      | Between => Some []
      | InWord acc => Some [TWord (unrev acc)]
      | _ => None
      end
  | String c rest =>
      match m with
      | Between =>
          if is_space c then lex Between rest
          else match punct c with
               | Some t => push t (lex Between rest)
               | None =>
                   if Ascii.eqb c dquote then lex (InString "") rest
                   else lex (InWord (String c "")) rest
               end
      | InString acc =>
          if Ascii.eqb c dquote then push (TString (unrev acc)) (lex Between rest)
          else if Ascii.eqb c backslash then lex (Escaped (String c acc)) rest
          else if (N_of_ascii c <? 32)%N then None
          else lex (InString (String c acc)) rest
      | Escaped acc =>
          if is_simple_escape c then lex (InString (String c acc)) rest
          else if Ascii.eqb c "u" then lex (Hex (String c acc) 3) rest
          else None
      | Hex acc due =>
          if is_hex c then
            match due with
            | O => lex (InString (String c acc)) rest
            | S due' => lex (Hex (String c acc) due') rest
            end
          else None
      | InWord acc =>
          if is_space c then push (TWord (unrev acc)) (lex Between rest)
          else match punct c with
               | Some t => push (TWord (unrev acc)) (push t (lex Between rest))
               | None =>
                   if Ascii.eqb c dquote then None
                   else lex (InWord (String c acc)) rest
               end
      end
  end.

(** The grammar of a JSON number: an optional minus sign; a zero, or a
    digit from 1 to 9 and any digits; optionally a dot and one digit or
    more; optionally [e] or [E], an optional sign and one digit or more. *)
Inductive numstate :=
| NStart | NMinus | NZero | NInt | NDot | NFrac | NExp | NExpSign | NExpDigits.

Definition is_digit (c : ascii) : bool :=
  let n := N_of_ascii c in ((48 <=? n) && (n <=? 57))%N.

Definition numstep (q : numstate) (c : ascii) : option numstate :=
  let n := N_of_ascii c in
  let e := ((n =? 101) || (n =? 69))%N in
  match q with
  | NStart =>
      if (n =? 45)%N then Some NMinus
      else if (n =? 48)%N then Some NZero
      else if is_digit c then Some NInt else None
  | NMinus =>
      if (n =? 48)%N then Some NZero
      else if is_digit c then Some NInt else None
  | NZero =>
      if (n =? 46)%N then Some NDot else if e then Some NExp else None
  | NInt =>
      if is_digit c then Some NInt
      else if (n =? 46)%N then Some NDot else if e then Some NExp else None
  | NDot => if is_digit c then Some NFrac else None
  | NFrac =>
      if is_digit c then Some NFrac else if e then Some NExp else None
  | NExp =>
      if ((n =? 43) || (n =? 45))%N then Some NExpSign
      else if is_digit c then Some NExpDigits else None
  | NExpSign => if is_digit c then Some NExpDigits else None
  | NExpDigits => if is_digit c then Some NExpDigits else None
  end.

Fixpoint numrun (q : numstate) (s : string) : bool :=
  match s with
  | "" =>
      match q with
      | NZero | NInt | NFrac | NExpDigits => true
      | _ => false
      end
  | String c rest =>
      match numstep q c with
      | Some q' => numrun q' rest
      | None => false
      end
  end.

Definition is_number (s : string) : bool := numrun NStart s.

(** A member's value, as written. *)
Inductive scalar :=
| SNull | STrue | SFalse
| SString (raw : string)
| SNumber (digits : string).

Definition scalar_of (t : token) : option scalar :=
  match t with
  | TString raw => Some (SString raw)
  | TWord word =>
      if String.eqb word "null" then Some SNull
      else if String.eqb word "true" then Some STrue
      else if String.eqb word "false" then Some SFalse
      else if is_number word then Some (SNumber word)
      else None
  | _ => None
  end.

Definition object := list (string * scalar).

(** The members of an object and its closing brace. *)
Fixpoint members (ts : list token) : option object :=
  match ts with
  | TString key :: TColon :: t :: more =>
      match scalar_of t, more with
      | Some v, [TRBrace] => Some [(key, v)]
      | Some v, TComma :: rest =>
          option_map (cons (key, v)) (members rest)
      | _, _ => None
      end
  | _ => None
  end.

(** [loads text]: the members of the object [text] denotes, if it is one. *)
Definition loads (text : string) : option object :=
  match lex Between text with
  | Some [TLBrace; TRBrace] => Some []
  | Some (TLBrace :: ts) => members ts
  | _ => None
  end.

Fixpoint member (o : object) (key : string) : option scalar :=
  match o with
  | [] => None
  | (k, v) :: rest => if String.eqb k key then Some v else member rest key
  end.

(** Is [text] an event of the given type? *)
Definition is_event (type text : string) : bool :=
  match loads text with
  | Some o =>
      match member o "type" with
      | Some (SString t) => String.eqb t type
      | _ => false
      end
  | None => false
  end.

(** A line is a text without line break. *)
Fixpoint single_line (text : string) : bool :=
  match text with
  | "" => true
  | String c rest =>
      negb ((N_of_ascii c =? 10) || (N_of_ascii c =? 13))%N && single_line rest
  end.

(** *** ISO 8601 *)

Definition digit_of (c : ascii) : option N :=
  if is_digit c then Some (N_of_ascii c - 48)%N else None.

(** Exactly [k] digits. *)
Fixpoint number (k : nat) (acc : N) (s : string) : option (N * string) :=
  match k with
  | O => Some (acc, s)
  | S k' =>
      match s with
      | String c rest =>
          match digit_of c with
          | Some d => number k' (10 * acc + d)%N rest
          | None => None
          end
      | "" => None
      end
  end.

Definition expect (c : ascii) (s : string) : option string :=
  match s with
  | String c' rest => if Ascii.eqb c' c then Some rest else None
  | "" => None
  end.

(** The fraction of a second, when there is one: six digits. *)
Definition fraction (s : string) : option (N * string) :=
  match s with
  | String "." rest => number 6 0 rest
  | _ => Some (0%N, s)
  end.

(** The offset from UTC, in minutes: [Z], [+hh:mm] or [-hh:mm]. *)
Definition offset (s : string) : option Z :=
  match s with
  | "Z" => Some 0%Z
  | String sign rest =>
      match number 2 0 rest with
      | Some (h, rest1) =>
          match expect ":" rest1 with
          | Some rest2 =>
              match number 2 0 rest2 with
              | Some (m, "") =>
                  let minutes := Z.of_N (60 * h + m) in
                  if Ascii.eqb sign "+" then Some minutes
                  else if Ascii.eqb sign "-" then Some (- minutes)%Z
                  else None
              | _ => None
              end
          | None => None
          end
      | None => None
      end
  | "" => None
  end.

Definition bind_opt {A B} (m : option A) (f : A -> option B) : option B :=
  match m with
  | Some a => f a
  | None => None
  end.

(** [YYYY-MM-DDThh:mm:ss[.ffffff]] followed by an offset: the date and time
    read, and the offset from UTC in minutes. *)
Definition parse_iso8601 (s : string) : option (datetime * Z) :=
  bind_opt (number 4 0 s) (fun '(y, s) =>
  bind_opt (expect "-" s) (fun s =>
  bind_opt (number 2 0 s) (fun '(mo, s) =>
  bind_opt (expect "-" s) (fun s =>
  bind_opt (number 2 0 s) (fun '(d, s) =>
  bind_opt (expect "T" s) (fun s =>
  bind_opt (number 2 0 s) (fun '(h, s) =>
  bind_opt (expect ":" s) (fun s =>
  bind_opt (number 2 0 s) (fun '(mi, s) =>
  bind_opt (expect ":" s) (fun s =>
  bind_opt (number 2 0 s) (fun '(se, s) =>
  bind_opt (fraction s) (fun '(us, s) =>
  bind_opt (offset s) (fun off =>
  let t := {| year := y; month := mo; day := d; hour := h; minute := mi;
              second := se; microsecond := us |} in
  if valid_datetime t then Some (t, off) else None))))))))))))).

End Reader.

(** ** Vocabulary of the properties *)

(** *** Kinds of calls *)

(** The number of calls of a log that [p] holds of. *)
Definition count (p : call -> bool) (l : list call) : nat :=
  List.length (filter p l).

Definition is_stream_close (c : call) : bool :=
  match c with StreamClose => true | _ => false end.

Definition is_pa_terminate (c : call) : bool :=
  match c with PaTerminate => true | _ => false end.

Definition is_porcupine_delete (c : call) : bool :=
  match c with PorcupineDelete => true | _ => false end.

Definition is_release (c : call) : bool :=
  is_stream_close c || is_pa_terminate c || is_porcupine_delete c.

Definition not_release (c : call) : bool := negb (is_release c).

Definition is_say (c : call) : bool :=
  match c with Say _ => true | _ => false end.

(** A line written on standard output and flushed. *)
Definition is_stdout (c : call) : bool :=
  match c with Stdout _ true => true | _ => false end.

(** *** Detections and stats *)

(** The predictions of a frame that reach the threshold, in order. *)
Definition passing (threshold : Q) (predictions : list (string * Q))
    : list (string * Q) :=
  filter (fun item => Qle_bool threshold (snd item)) predictions.

(** Is this call the report of a detection: the first line a standalone
    listener prints for it, or a [wake_word_detected] event of the bridge? *)
Definition is_detection (c : call) : bool :=
  match c with
  | Say (DetectedScore _ _ _) | Say (DetectedBackend _ _) => true
  | Stdout text _ => Reader.is_event "wake_word_detected" text
  | _ => false
  end.

(** The number of detections reported in a log. *)
Definition detections (l : list call) : nat := count is_detection l.

(** Is this call a stats line? *)
Definition is_stats (c : call) : bool :=
  match c with
  | Say (Stats _ _ _) => true
  | _ => false
  end.

(** The seconds between [start_time] and the [k]-th reading of the clock. *)
Definition elapsed_at (w : world) (start_time : Q) (k : nat) : Q :=
  (unix (clock w k) - start_time)%Q.

(** The stats line for [n] detections after [elapsed] seconds: the count,
    the minutes, and the rate per hour [n / (elapsed / 3600)]. *)
Definition stats_line (n : nat) (elapsed : Q) : call :=
  Say (Stats n (elapsed / 60)%Q (inject_Z (Z.of_nat n) / (elapsed / 3600))%Q).

(** What the stats report adds to the log when the clock is read for the
    [k]-th time. *)
Definition stats_part (w : world) (start_time : Q) (n k : nat) : list call :=
  if ((int (elapsed_at w start_time k) mod 60 =? 0)
      && (int (elapsed_at w start_time k) >? 0))%Z
  then [stats_line n (elapsed_at w start_time k)] else [].

(** The whole seconds elapsed are a positive multiple of 60. *)
Definition stats_due (elapsed : Q) : Prop :=
  ((Qfloor elapsed) mod 60 = 0 /\ Qfloor elapsed > 0)%Z.

(** *** Start and stop *)

(** A call that acquires the engine or the audio device. *)
Definition is_acquire (c : call) : bool :=
  match c with
  | PorcupineCreate _ _ _ | OwwModel _ | PyAudio | PaOpen _ _ => true
  | _ => false
  end.

(** The report that the listener started: the banner of a standalone
    listener, the [listener_started] event of the bridge. *)
Definition is_started (c : call) : bool :=
  match c with
  | Say BannerOww | Say BannerPorcupine => true
  | Stdout text _ => Reader.is_event "listener_started" text
  | _ => false
  end.

(** The report that the listener stops. *)
Definition is_stopped (c : call) : bool :=
  match c with
  | Say ShuttingDown => true
  | Stdout text _ => Reader.is_event "listener_stopped" text
  | _ => false
  end.

(** A run that ends in a clean stop: the stream closed once, the audio
    subsystem terminated once, the engine handle deleted [engine] times, the
    stop reported, exit status 0. *)
Definition clean_stop {A} (r : run A) (engine : nat) : Prop :=
  count is_stream_close (calls r) = 1 /\
  count is_pa_terminate (calls r) = 1 /\
  count is_porcupine_delete (calls r) = engine /\
  existsb is_stopped (calls r) = true /\
  exists h, result r = Stop h /\ exit_status h = 0%Z.

(** No release call raises. *)
Definition releases_succeed (w : world) : Prop :=
  raises w StreamClose = false /\
  raises w PaTerminate = false /\
  raises w PorcupineDelete = false.

(** Modelled from the spec: the engine libraries ([pvporcupine],
    [openwakeword]) are outside the repository; section 4.2 gives their
    contract, "open fails with ConfigError when the model file path does not
    exist". *)
Definition engine_needs_model (w : world) : Prop :=
  forall model,
    path_exists w model = false ->
    oww_model w model = false /\
    forall access_key sensitivity,
      porcupine_create w access_key model sensitivity = None.

(** *** What the reader makes of a dumped dictionary *)

(** A character that may stand in a number or a literal. *)
Definition word_char (c : ascii) : bool :=
  negb (Reader.is_space c)
  && match Reader.punct c with Some _ => false | None => true end
  && negb (Ascii.eqb c dquote).

Fixpoint word_chars (s : string) : bool :=
  match s with
  | "" => true
  | String c rest => word_char c && word_chars rest
  end.

(** A float or an integer must be written as a JSON number. *)
Definition writes_number (w : world) (v : value) : bool :=
  match v with
  | JNull | JStr _ => true
  | JFloat x => Reader.is_number (float_repr w x)
  | JInt n => Reader.is_number (NilZero.string_of_int (Z.to_int n))
  end.

(** The token a value is written as. *)
Definition token_of (w : world) (v : value) : Reader.token :=
  match v with
  | JStr s => Reader.TString (escape s)
  | _ => Reader.TWord (dumps_value w v)
  end.

(** The tokens of the members of a dictionary and of the closing brace. *)
Fixpoint item_tokens (w : world) (d : dict) : list Reader.token :=
  match d with
  | [] => [Reader.TRBrace]
  | [(k, v)] =>
      [Reader.TString (escape k); Reader.TColon; token_of w v; Reader.TRBrace]
  | (k, v) :: rest =>
      Reader.TString (escape k) :: Reader.TColon :: token_of w v
      :: Reader.TComma :: item_tokens w rest
  end.

(** A value as the reader returns it. *)
Definition written (w : world) (v : value) : Reader.scalar :=
  match v with
  | JNull => Reader.SNull
  | JStr s => Reader.SString (escape s)
  | JFloat x => Reader.SNumber (float_repr w x)
  | JInt n => Reader.SNumber (NilZero.string_of_int (Z.to_int n))
  end.

Definition written_item (w : world) (kv : string * value) : string * Reader.scalar :=
  (escape (fst kv), written w (snd kv)).

(** Every float and integer of the dictionary is written as a JSON number. *)
Definition writes_numbers (w : world) (d : dict) : bool :=
  forallb (fun kv => writes_number w (snd kv)) d.

(** *** Defaults of the bridge, in the words of its help *)

(** A flag, else an environment variable, else a default. *)
Definition first_of (flag env : option string) (default : string) : string :=
  match flag, env with
  | Some x, _ => x
  | None, Some x => x
  | None, None => default
  end.

(** The model file that goes with a backend, next to the script. *)
Definition default_model (w : world) (backend : string) : string :=
  path_join (script_dir w)
    ["models";
     if String.eqb backend "porcupine" then "claudette_linux.ppn"
     else "claudette.tflite"].

(** A value that is given and not empty, else the default. *)
Definition or_default (given : option string) (default : string) : string :=
  match given with
  | Some (String c s) => String c s
  | _ => default
  end.

(** ** A sample world

    The worlds the examples run in: the two model files exist next to the
    scripts, the engines load a model that exists, the audio device opens,
    and the clock advances by half a minute from one reading to the next. *)

Module Sample.

(** [float] on a plain decimal literal: an optional sign, digits, and
    optionally a dot and digits.  Python reads more (exponents, [inf],
    [nan], underscores, blanks around); the examples need plain literals
    and one string that is no float at all. *)
Fixpoint digits (s : string) (acc : N) : option N :=
  match s with
  | "" => Some acc
  | String c rest =>
      match Reader.digit_of c with
      | Some d => digits rest (10 * acc + d)%N
      | None => None
      end
  end.

Fixpoint split_dot (s : string) : string * option string :=
  match s with
  | "" => ("", None)
  | String c rest =>
      if Ascii.eqb c "." then ("", Some rest)
      else let (a, b) := split_dot rest in (String c a, b)
  end.

Definition unsigned (s : string) : option Q :=
  let (whole, part) := split_dot s in
  match whole, digits whole 0 with
  | String _ _, Some n =>
      match part with
      | None => Some (inject_Z (Z.of_N n))
      | Some "" => None
      | Some frac =>
          match digits frac 0 with
          | Some f =>
              let scale := Pos.pow 10 (Pos.of_nat (String.length frac)) in
              Some (Qred (Qmake (Z.of_N n * Z.pos scale + Z.of_N f) scale))
          | None => None
          end
      end
  | _, _ => None
  end.

Definition float (s : string) : option Q :=
  match s with
  | String "-" rest => option_map Qopp (unsigned rest)
  | String "+" rest => unsigned rest
  | _ => unsigned s
  end.

Definition repr (x : Q) : string :=
  if Qeq_bool x (1 # 2) then "0.5"
  else if Qeq_bool x (21 # 50) then "0.42"
  else if Qeq_bool x (7 # 10) then "0.7"
  else if Qeq_bool x 1 then "1.0"
  else "0.0".

Definition ppn : string := "/opt/voice/models/claudette_linux.ppn".
Definition tflite : string := "/opt/voice/models/claudette.tflite".

Definition exists_ (p : string) : bool := (String.eqb p ppn || String.eqb p tflite)%bool.

(** The [k]-th reading of a clock that advances by [step] seconds from one
    reading to the next. *)
Definition tick (step : Q) (k : nat) : instant :=
  let t := {| year := 2026; month := 11; day := 4;
              hour := 16; minute := 31; second := 5;
              microsecond := (N.of_nat k mod 1000000)%N |} in
  {| unix := (1793809865 + step * inject_Z (Z.of_nat k))%Q; utc := t; local := t |}.

(** The sample world with environment [env], where the release calls that
    [bad] holds raise and the clock advances by [step]. *)
Definition world_of (env : string -> option string) (bad : call -> bool)
    (step : Q) : world :=
  {| environ := env;
     path_exists := exists_;
     script_dir := "/opt/voice";
     float_of_str := float;
     float_repr := repr;
     clock := tick step;
     porcupine_create := fun _ model _ =>
       if exists_ model then Some {| sample_rate := 16000; frame_length := 512 |}
       else None;
     oww_model := exists_;
     pa_open := fun _ _ => true;
     raises := bad |}.

Definition no_env : string -> option string := fun _ => None.

Definition with_key : string -> option string :=
  fun name => if String.eqb name "PORCUPINE_ACCESS_KEY" then Some "secret" else None.

(** A threshold in the environment that is no float. *)
Definition with_junk : string -> option string :=
  fun name => if String.eqb name "WAKE_WORD_THRESHOLD" then Some "abc" else None.

Definition plain : world := world_of no_env (fun _ => false) 30.

Definition keyed : world := world_of with_key (fun _ => false) 30.

(** A clock that advances by a tenth of a second. *)
Definition brisk : world := world_of no_env (fun _ => false) (1 # 10).

(** [stream.close()] raises. *)
Definition stuck : world :=
  world_of with_key (fun c => match c with StreamClose => true | _ => false end) 30.

Definition junk : world := world_of with_junk (fun _ => false) 30.

End Sample.

(** ** Sample command lines *)

Definition no_flags : Bridge.flags :=
  {| Bridge.flag_backend := None; Bridge.flag_model := None;
     Bridge.flag_threshold := None; Bridge.flag_access_key := None |}.

Definition oww_nowhere : OwwListener.flags :=
  {| OwwListener.flag_model := Some "/nowhere/claudette.tflite";
     OwwListener.flag_threshold := None |}.

Definition porcupine_nowhere : PorcupineListener.flags :=
  {| PorcupineListener.flag_model := Some "/nowhere/claudette.ppn";
     PorcupineListener.flag_sensitivity := None;
     PorcupineListener.flag_access_key := None |}.

Definition bridge_nowhere : Bridge.flags :=
  {| Bridge.flag_backend := None;
     Bridge.flag_model := Some "/nowhere/claudette.ppn";
     Bridge.flag_threshold := None;
     Bridge.flag_access_key := None |}.

Definition bridge_threshold_flag : Bridge.flags :=
  {| Bridge.flag_backend := None;
     Bridge.flag_model := None;
     Bridge.flag_threshold := Some "0.7";
     Bridge.flag_access_key := None |}.

(** ** Vocabulary of further properties *)

(** Every call a program makes satisfies [P], wherever it starts. *)
Definition always {A} (P : call -> bool) (m : prog A) : Prop :=
  forall k, forallb P (calls (m k)) = true.

Definition is_some {A} (o : option A) : bool :=
  match o with
  | Some _ => true
  | None => false
  end.

(** What the bridge may do on standard output: write a flushed line that
    reads as a JSON object.  A free-form line is not allowed; calls to the
    engine and to the audio device are not output. *)
Definition json_line (c : call) : bool :=
  match c with
  | Stdout text flush =>
      flush && Reader.single_line text && is_some (Reader.loads text)
  | Say _ => false
  | _ => true
  end.

(** *** Decoding a JSON string

    What stands between the quotes of a JSON string, decoded: the escapes of
    RFC 8259, with [\uXXXX] for the code points a [string] can hold. *)

Inductive decoding :=
| Plain
| AfterBackslash
| HexDigits (acc : N) (due : nat).   (* after [\u], [S due] digits to come *)

Definition hex_value (c : ascii) : option N :=
  let n := N_of_ascii c in
  if ((48 <=? n) && (n <=? 57))%N then Some (n - 48)%N
  else if ((97 <=? n) && (n <=? 102))%N then Some (n - 87)%N
  else if ((65 <=? n) && (n <=? 70))%N then Some (n - 55)%N
  else None.

(** The character a one-letter escape stands for. *)
Definition escaped (c : ascii) : option ascii :=
  let n := N_of_ascii c in
  if (n =? 34)%N then Some dquote
  else if (n =? 92)%N then Some backslash
  else if (n =? 47)%N then Some "/"%char
  else if (n =? 98)%N then Some "008"%char
  else if (n =? 102)%N then Some "012"%char
  else if (n =? 110)%N then Some "010"%char
  else if (n =? 114)%N then Some "013"%char
  else if (n =? 116)%N then Some "009"%char
  else None.

Fixpoint decode (m : decoding) (s : string) : option string :=
  match s with
  | "" => match m with Plain => Some "" | _ => None end
  | String c rest =>
      match m with
      | Plain =>
          if Ascii.eqb c backslash then decode AfterBackslash rest
          else option_map (String c) (decode Plain rest)
      | AfterBackslash =>
          if Ascii.eqb c "u" then decode (HexDigits 0 3) rest
          else match escaped c with
               | Some x => option_map (String x) (decode Plain rest)
               | None => None
               end
      | HexDigits acc due =>
          match hex_value c with
          | Some v =>
              let acc' := (16 * acc + v)%N in
              match due with
              | O =>
                  if (acc' <? 256)%N
                  then option_map (String (ascii_of_N acc')) (decode Plain rest)
                  else None
              | S due' => decode (HexDigits acc' due') rest
              end
          | None => None
          end
      end
  end.

Definition unescape (raw : string) : option string := decode Plain raw.

(** *** Dictionaries *)

(** The last value [items] gives to [key], if any. *)
Fixpoint last_of (items : list (string * value)) (key : string) : option value :=
  match items with
  | [] => None
  | (k, v) :: rest =>
      match last_of rest key with
      | Some v' => Some v'
      | None => if String.eqb k key then Some v else None
      end
  end.

(** *** The event stream of the bridge *)

(** Where a consumer of the bridge's standard output stands: nothing read
    yet; the listener runs; it has stopped; it gave up before it started. *)
Inductive phase := Idle | Running | Stopped | Failed.

(** An object with a member [error]. *)
Definition is_error (text : string) : bool :=
  match Reader.loads text with
  | Some o => is_some (Reader.member o "error")
  | None => false
  end.

(** What a call makes of the phase; [None]: the consumer does not expect
    it.  Calls to the engine and to the audio device are not output. *)
Definition follow (p : phase) (c : call) : option phase :=
  match c with
  | Stdout text _ =>
      match p with
      | Idle =>
          if Reader.is_event "listener_started" text then Some Running
          else if is_error text then Some Failed
          else None
      | Running =>
          if Reader.is_event "wake_word_detected" text then Some Running
          else if Reader.is_event "listener_stopped" text then Some Stopped
          else None
      | Stopped | Failed => None
      end
  | Say _ => None
  | _ => Some p
  end.

Fixpoint protocol (p : phase) (l : list call) : option phase :=
  match l with
  | [] => Some p
  | c :: rest =>
      match follow p c with
      | Some p' => protocol p' rest
      | None => None
      end
  end.

(** A program that takes the stream from phase [p] to phase [q] when it
    returns, and that exits with status 0 only in phase [Stopped]. *)
Definition obeys {A} (p q : phase) (m : prog A) : Prop :=
  forall k, exists p',
    protocol p (calls (m k)) = Some p' /\
    match result (m k) with
    | Val _ => p' = q
    | Stop h => exit_status h = 0%Z -> p' = Stopped
    end.

(** *** Runs without a termination signal *)

Definition is_signal {R} (s : stimulus R) : bool :=
  match s with
  | Signal => true
  | _ => false
  end.

Definition signalled {R} (arrivals : list (stimulus R)) : bool :=
  existsb is_signal arrivals.

(** A program that makes no release call and does not end with exit
    status 0. *)
Definition harmless {A} (m : prog A) : Prop :=
  forall k,
    forallb not_release (calls (m k)) = true /\
    forall h, result (m k) = Stop h -> exit_status h <> 0%Z.

(** The world [w] with an audio device that cannot be opened. *)
Definition without_microphone (w : world) : world :=
  {| environ := environ w;
     path_exists := path_exists w;
     script_dir := script_dir w;
     float_of_str := float_of_str w;
     float_repr := float_repr w;
     clock := clock w;
     porcupine_create := porcupine_create w;
     oww_model := oww_model w;
     pa_open := fun _ _ => false;
     raises := raises w |}.

(** A run that ends with a non-zero exit status, without a report that the
    listener started and without a release call. *)
Definition fails_unstarted {A} (r : run A) : Prop :=
  existsb is_started (calls r) = false /\
  existsb is_release (calls r) = false /\
  exists h, result r = Stop h /\ exit_status h <> 0%Z.

(** *** Thresholds and names *)

(** The predictions of a sequence of frames that reach the threshold. *)
Definition forwarded (threshold : Q) (frames : list (list (string * Q)))
    : list (string * Q) :=
  flat_map (passing threshold) frames.

Fixpoint has_char (c : ascii) (s : string) : bool :=
  match s with
  | "" => false
  | String c' rest => Ascii.eqb c' c || has_char c rest
  end.

(** *** Sample command lines of the standalone listeners *)

Definition oww_no_flags : OwwListener.flags :=
  {| OwwListener.flag_model := None; OwwListener.flag_threshold := None |}.

Definition porcupine_no_flags : PorcupineListener.flags :=
  {| PorcupineListener.flag_model := None;
     PorcupineListener.flag_sensitivity := None;
     PorcupineListener.flag_access_key := None |}.

(** *** A sample environment that names an unknown backend *)

Definition with_whisper : string -> option string :=
  fun name => if String.eqb name "WAKE_WORD_BACKEND" then Some "whisper" else None.

Definition whisper : world := Sample.world_of with_whisper (fun _ => false) 30.

Definition empty_key_flag : Bridge.flags :=
  {| Bridge.flag_backend := None; Bridge.flag_model := None;
     Bridge.flag_threshold := None; Bridge.flag_access_key := Some "" |}.

Definition porcupine_empty_key_flag : PorcupineListener.flags :=
  {| PorcupineListener.flag_model := None;
     PorcupineListener.flag_sensitivity := None;
     PorcupineListener.flag_access_key := Some "" |}.

(** *** A signal handler that fails *)

(** A run that ends with the exception of the first release call: the stream
    close attempted once, nothing else released; [reported] tells whether a
    stop report was made. *)
Definition handler_failed {A} (r : run A) (reported : bool) : Prop :=
  result r = Stop (Uncaught DeviceError) /\
  count is_stream_close (calls r) = 1 /\
  count is_pa_terminate (calls r) = 0 /\
  count is_porcupine_delete (calls r) = 0 /\
  existsb is_stopped (calls r) = reported.

(** *** What the openWakeWord loop of the bridge writes *)

(** The detection lines of [items], one reading of the clock each, from the
    [k]-th on. *)
Fixpoint detection_lines (w : world) (backend : string)
    (items : list (string * Q)) (k : nat) : list call :=
  match items with
  | [] => []
  | (word, score) :: rest =>
      Stdout
        (dumps w [("ts", JStr (isoformat (utc (clock w k))));
                  ("type", JStr "wake_word_detected");
                  ("backend", JStr backend);
                  ("word", JStr word);
                  ("score", JFloat score)])
        true
      :: detection_lines w backend rest (S k)
  end.

(** *** Printable ASCII *)

Fixpoint printable (s : string) : bool :=
  match s with
  | "" => true
  | String c rest =>
      ((32 <=? N_of_ascii c) && (N_of_ascii c <=? 126))%N && printable rest
  end.

(** A line of printable ASCII characters on standard output. *)
Definition ascii_line (c : call) : bool :=
  match c with
  | Stdout text _ => printable text
  | Say _ => false
  | _ => true
  end.

(** What the bridge makes of the predictions that reach the threshold, in
    their order: the ones it writes, which are Python floats, and whether a
    [numpy.float32] among them ended the run, after which nothing is
    written. *)
Fixpoint served (threshold : Q) (items : list (string * score))
    : list (string * Q) * bool :=
  match items with
  | [] => ([], false)
  | (word, s) :: rest =>
      if Qle_bool threshold (as_float s) then
        match s with
        | Float x =>
            let (written, refused) := served threshold rest in
            ((word, x) :: written, refused)
        | Float32 _ => ([], true)
        end
      else served threshold rest
  end.

(** The run that writes the detection lines of [items] from the [k]-th
    reading of the clock on and then, when [refused], dies in [json.dumps]
    after one more reading. *)
Definition serving (w : world) (items : list (string * Q)) (refused : bool)
    (k : nat) : run unit :=
  Run (detection_lines w "oww" items k)
      (k + List.length items + (if refused then 1 else 0))
      (if refused then Stop (Uncaught TypeError) else Val tt).

(** *** Two keyword files *)

Definition jarvis_ppn : string := "/opt/voice/models/jarvis_linux.ppn".

(** The sample world with an access key in the environment, where the
    keyword file of another wake word is installed next to the one of the
    project; the engine loads either. *)
Definition two_keywords : world :=
  {| environ := Sample.with_key;
     path_exists := fun p => String.eqb p jarvis_ppn || Sample.exists_ p;
     script_dir := "/opt/voice";
     float_of_str := Sample.float;
     float_repr := Sample.repr;
     clock := Sample.tick 30;
     porcupine_create := fun _ model _ =>
       if String.eqb model jarvis_ppn || Sample.exists_ model
       then Some {| sample_rate := 16000; frame_length := 512 |}
       else None;
     oww_model := Sample.exists_;
     pa_open := fun _ _ => true;
     raises := fun _ => false |}.

(** [--model /opt/voice/models/jarvis_linux.ppn] *)
Definition jarvis_flags : Bridge.flags :=
  {| Bridge.flag_backend := None; Bridge.flag_model := Some jarvis_ppn;
     Bridge.flag_threshold := None; Bridge.flag_access_key := None |}.

(** [--backend oww] *)
Definition oww_flags : Bridge.flags :=
  {| Bridge.flag_backend := Some "oww"; Bridge.flag_model := None;
     Bridge.flag_threshold := None; Bridge.flag_access_key := None |}.

(** Two frames as the openWakeWord engine answers them once it has warmed
    up, with [numpy.float32] scores, and the values of these scores. *)
Definition float32_frames : list (list (string * score)) :=
  [[("claudette", Float32 (7 # 10)); ("hey_claudette", Float32 1)];
   [("claudette", Float32 (7 # 10))]].

Definition float32_values : list (list (string * Q)) :=
  [[("claudette", (7 # 10)%Q); ("hey_claudette", 1%Q)];
   [("claudette", (7 # 10)%Q)]].

(** * Properties *)

(** ** Laws of the monad *)

Lemma run_eta {A} (r : run A) : Run (calls r) (reads r) (result r) = r.
Proof. destruct r; reflexivity. Qed.

Section Laws.
Context {A B C : Type}.

Lemma bind_ret_l (a : A) (f : A -> prog B) (k : nat) : bind (ret a) f k = f a k.
Proof. unfold bind, ret; simpl. apply run_eta. Qed.

Lemma bind_ret_r (m : prog A) (k : nat) : bind m ret k = m k.
Proof.
  unfold bind, ret. destruct (m k) as [l k' [a | h]]; simpl.
  - now rewrite app_nil_r.
  - reflexivity.
Qed.

Lemma bind_assoc (m : prog A) (f : A -> prog B) (g : B -> prog C) (k : nat) :
  bind (bind m f) g k = bind m (fun a => bind (f a) g) k.
Proof.
  unfold bind. destruct (m k) as [l k' [a | h]]; simpl; [| reflexivity].
  destruct (f a k') as [l1 k1 [b | h]]; simpl; [| reflexivity].
  now rewrite app_assoc.
Qed.

Lemma bind_ext (m : prog A) (f g : A -> prog B) (k : nat) :
  (forall a k', f a k' = g a k') -> bind m f k = bind m g k.
Proof.
  intros H. unfold bind. destruct (result (m k)); [| reflexivity].
  now rewrite H.
Qed.

End Laws.

Lemma for_each_app {A} (body : A -> prog unit) (xs ys : list A) (k : nat) :
  for_each body (xs ++ ys) k = (for_each body xs ;;; for_each body ys) k.
Proof.
  revert k. induction xs as [| x xs IH]; intros k; simpl.
  - now rewrite bind_ret_l.
  - rewrite bind_assoc. apply bind_ext. intros _ k'. apply IH.
Qed.

Lemma bind_ret_tt (m : prog unit) (k : nat) : (m ;;; ret tt) k = m k.
Proof.
  unfold bind, ret. destruct (m k) as [l k' [[] | h]]; simpl.
  - now rewrite app_nil_r.
  - reflexivity.
Qed.

Lemma bind_cong {A B} (m m' : prog A) (f : A -> prog B) (k : nat) :
  m k = m' k -> bind m f k = bind m' f k.
Proof. intros H. unfold bind. now rewrite H. Qed.

(** ** Threshold filtering *)

Section Threshold.
Variable w : world.
Variable threshold : Q.

Lemma passing_In (word : string) (score : Q) (predictions : list (string * Q)) :
  In (word, score) (passing threshold predictions) <->
  In (word, score) predictions /\ (threshold <= score)%Q.
Proof.
  unfold passing. rewrite filter_In. simpl. now rewrite Qle_bool_iff.
Qed.

Lemma bridge_iteration_passing (predictions : list (string * Q)) (k : nat) :
  Bridge.oww_iteration w threshold predictions k =
  for_each (fun item => Bridge.on_detection w "oww" (fst item) (Some (snd item)))
    (passing threshold predictions) k.
Proof.
  unfold Bridge.oww_iteration. revert k.
  induction predictions as [| [word score] rest IH]; intros k; simpl.
  - reflexivity.
  - destruct (Qle_bool threshold score); simpl.
    + apply bind_ext. intros _ k'. apply IH.
    + rewrite bind_ret_l. apply IH.
Qed.

Lemma scan_passing (predictions : list (string * Q)) (n k : nat) :
  OwwListener.scan w threshold predictions n k =
  (for_each (fun item => OwwListener.on_wake_word_detected w (fst item) (snd item))
     (passing threshold predictions) ;;;
   ret (n + List.length (passing threshold predictions))) k.
Proof.
  revert n k.
  induction predictions as [| [word score] rest IH]; intros n k; simpl.
  - rewrite bind_ret_l. now rewrite Nat.add_0_r.
  - destruct (Qle_bool threshold score); simpl.
    + rewrite bind_assoc. apply bind_ext. intros _ k'.
      rewrite IH. now rewrite Nat.add_succ_r.
    + apply IH.
Qed.

Lemma bridge_oww_loop_snoc (frames : list (list (string * Q)))
    (predictions : list (string * Q)) (k : nat) :
  Bridge.oww_loop w threshold (map Frame (frames ++ [predictions])) k =
  (Bridge.oww_loop w threshold (map Frame frames) ;;;
   Bridge.oww_iteration w threshold predictions) k.
Proof.
  revert k. induction frames as [| p frames IH]; intros k; simpl.
  - now rewrite bind_ret_tt, bind_ret_l.
  - rewrite bind_assoc. apply bind_ext. intros _ k'. apply IH.
Qed.

Lemma oww_loop_snoc (start_time : Q) (frames : list (list (string * Q)))
    (predictions : list (string * Q)) (n k : nat) :
  OwwListener.loop w threshold start_time (map Frame (frames ++ [predictions])) n k =
  (c <- OwwListener.loop w threshold start_time (map Frame frames) n ;;
   OwwListener.iteration w threshold start_time predictions c) k.
Proof.
  revert n k. induction frames as [| p frames IH]; intros n k; simpl.
  - now rewrite bind_ret_r, bind_ret_l.
  - rewrite bind_assoc. apply bind_ext. intros c k'. apply IH.
Qed.

Lemma oww_iteration_passing (start_time : Q) (predictions : list (string * Q))
    (n k : nat) :
  OwwListener.iteration w threshold start_time predictions n k =
  (for_each
     (fun item => OwwListener.on_wake_word_detected w (fst item) (snd item))
     (passing threshold predictions) ;;;
   let n' := n + List.length (passing threshold predictions) in
   OwwListener.report_stats w start_time n' ;;; ret n') k.
Proof.
  unfold OwwListener.iteration.
  rewrite (bind_cong _ _ _ k (scan_passing predictions n k)).
  rewrite bind_assoc. apply bind_ext. intros _ k'. now rewrite bind_ret_l.
Qed.

End Threshold.


(** ** The counter and the stats line of the standalone listeners *)

Lemma detections_app (l1 l2 : list call) :
  detections (l1 ++ l2) = detections l1 + detections l2.
Proof. unfold detections, count. now rewrite filter_app, length_app. Qed.

Lemma int_floor_pos (e : Q) : (int e > 0)%Z -> int e = Qfloor e.
Proof.
  destruct e as [n d]. unfold int, Qfloor. simpl. intros H.
  assert (Hn : (0 <= n)%Z).
  { destruct n as [| p | p]; try lia.
    exfalso. pose proof (Z.quot_opp_l (Z.pos p) (Z.pos d)) as Ho.
    pose proof (Z.quot_pos (Z.pos p) (Z.pos d)) as Hp.
    change (Z.neg p) with (- Z.pos p)%Z in H. lia. }
  apply Z.quot_div_nonneg; lia.
Qed.

Lemma floor_int_pos (e : Q) : (Qfloor e > 0)%Z -> int e = Qfloor e.
Proof.
  destruct e as [n d]. unfold int, Qfloor. simpl. intros H.
  assert (Hn : (0 <= n)%Z).
  { destruct n as [| p | p]; try lia.
    exfalso. pose proof (Z.div_lt_upper_bound (Z.neg p) (Z.pos d) 0). lia. }
  apply Z.quot_div_nonneg; lia.
Qed.

Lemma stats_test_due (e : Q) :
  ((int e mod 60 =? 0) && (int e >? 0))%Z = true <-> stats_due e.
Proof.
  unfold stats_due. rewrite andb_true_iff, Z.eqb_eq, Z.gtb_gt. split.
  - intros [H1 H2]. rewrite <- (int_floor_pos e) by lia. lia.
  - intros [H1 H2]. rewrite (floor_int_pos e) by lia. lia.
Qed.

Lemma int_pos_rate_defined (e : Q) :
  (int e > 0)%Z -> Qeq_bool (e / 3600) 0 = false.
Proof.
  intros H. destruct (Qeq_bool (e / 3600) 0) eqn:E; [| reflexivity].
  exfalso. apply Qeq_bool_eq in E. destruct e as [n d].
  unfold Qeq, Qdiv, Qmult, Qinv in E. simpl in E.
  assert (n = 0)%Z by lia. subst n. unfold int in H. simpl in H.
  rewrite Z.quot_0_l in H by discriminate. lia.
Qed.

Lemma report_stats_run (w : world) (start_time : Q) (n k : nat) :
  OwwListener.report_stats w start_time n k =
  Run (if ((int (elapsed_at w start_time k) mod 60 =? 0)
           && (int (elapsed_at w start_time k) >? 0))%Z
       then [stats_line n (elapsed_at w start_time k)] else [])
      (S k) (Val tt).
Proof.
  unfold OwwListener.report_stats, elapsed_at, stats_line.
  unfold bind at 1. simpl.
  destruct ((int (unix (clock w k) - start_time) mod 60 =? 0)
            && (int (unix (clock w k) - start_time) >? 0))%Z eqn:E.
  - apply andb_true_iff in E. destruct E as [_ E]. apply Z.gtb_gt in E.
    unfold bind, truediv. rewrite (int_pos_rate_defined _ E). reflexivity.
  - reflexivity.
Qed.

Lemma porcupine_report_stats_same (w : world) (start_time : Q) (n k : nat) :
  PorcupineListener.report_stats w start_time n k =
  OwwListener.report_stats w start_time n k.
Proof. reflexivity. Qed.

Lemma bind_run {A B} (m : prog A) (f : A -> prog B) (k k' : nat)
    (l : list call) (a : A) :
  m k = Run l k' (Val a) ->
  bind m f k = Run (l ++ calls (f a k')) (reads (f a k')) (result (f a k')).
Proof. intros H. unfold bind. now rewrite H. Qed.

Lemma bind_stop {A B} (m : prog A) (f : A -> prog B) (k k' : nat)
    (l : list call) (h : halt) :
  m k = Run l k' (Stop h) -> bind m f k = Run l k' (Stop h).
Proof. intros H. unfold bind. now rewrite H. Qed.

(** One step of a run: the program starts with a call that returns. *)
Ltac performs c := rewrite (bind_run _ _ _ _ [c] tt) by reflexivity.

(** One step of a run: the program starts with something that makes no
    call and returns. *)
Ltac passes := rewrite (bind_run _ _ _ _ [] tt) by reflexivity.

Section Standalone.
Variable w : world.

Lemma stats_part_detections (start_time : Q) (n k : nat) :
  detections (stats_part w start_time n k) = 0.
Proof. unfold stats_part. now destruct (_ && _)%bool. Qed.

Lemma stats_part_due (start_time : Q) (n k : nat) :
  existsb is_stats (stats_part w start_time n k) = true <->
  stats_due (elapsed_at w start_time k).
Proof.
  rewrite <- stats_test_due. unfold stats_part.
  destruct (_ && _)%bool; simpl; intuition congruence.
Qed.

Lemma scan_counts (threshold : Q) (predictions : list (string * Q)) (n k : nat) :
  exists l k',
    OwwListener.scan w threshold predictions n k = Run l k' (Val (n + detections l))
    /\ existsb is_stats l = false.
Proof.
  revert n k. induction predictions as [| [word score] rest IH]; intros n k; simpl.
  - exists [], k. split; [| reflexivity]. unfold ret, detections, count. simpl.
    now rewrite Nat.add_0_r.
  - destruct (Qle_bool threshold score).
    + destruct (IH (S n) (S k)) as (l & k' & E & Hs).
      exists (Say (DetectedScore (local (clock w k)) word score)
              :: Say TodoStt :: Say TodoRecord :: Say TodoIntent :: l), k'.
      split; [| exact Hs].
      unfold bind at 1. simpl. rewrite E. simpl. f_equal. f_equal.
      unfold detections, count. simpl. lia.
    + apply IH.
Qed.

Lemma oww_iteration_counts (threshold start_time : Q)
    (predictions : list (string * Q)) (n k : nat) :
  exists l,
    OwwListener.iteration w threshold start_time predictions n k =
    Run l (S (reads (OwwListener.scan w threshold predictions n k)))
        (Val (n + detections l))
    /\ (existsb is_stats l = true <->
        stats_due (elapsed_at w start_time
                     (reads (OwwListener.scan w threshold predictions n k)))).
Proof.
  destruct (scan_counts threshold predictions n k) as (l & k' & E & Hs).
  exists (l ++ stats_part w start_time (n + detections l) k').
  unfold OwwListener.iteration. unfold bind at 1. rewrite E. simpl.
  unfold bind. rewrite report_stats_run. simpl. fold (stats_part w start_time (n + detections l) k').
  rewrite app_nil_r. split.
  - rewrite detections_app, stats_part_detections. now rewrite Nat.add_0_r.
  - rewrite existsb_app, Hs. simpl. apply stats_part_due.
Qed.

Lemma oww_loop_counts (threshold start_time : Q)
    (frames : list (list (string * Q))) (n k : nat) :
  result (OwwListener.loop w threshold start_time (map Frame frames) n k) =
  Val (n + detections
             (calls (OwwListener.loop w threshold start_time (map Frame frames) n k))).
Proof.
  revert n k. induction frames as [| p frames IH]; intros n k; simpl.
  - now rewrite Nat.add_0_r.
  - destruct (oww_iteration_counts threshold start_time p n k) as (l & E & _).
    unfold bind. rewrite E. simpl. rewrite IH, detections_app. f_equal. lia.
Qed.

Lemma porcupine_iteration_counts (start_time : Q) (r : Z) (n k : nat) :
  exists l,
    PorcupineListener.iteration w start_time r n k =
    Run l (if (r >=? 0)%Z then S (S k) else S k) (Val (n + detections l))
    /\ (existsb is_detection l = true <-> (r >= 0)%Z)
    /\ detections l = (if (r >=? 0)%Z then 1 else 0)
    /\ (existsb is_stats l = true <->
        stats_due (elapsed_at w start_time (if (r >=? 0)%Z then S k else k))).
Proof.
  unfold PorcupineListener.iteration.
  destruct (r >=? 0)%Z eqn:E.
  - exists ([Say (DetectedBackend (local (clock w k)) "porcupine");
             Say TodoStt; Say TodoRecord; Say TodoIntent]
            ++ stats_part w start_time (S n) (S k)).
    assert (Hd : detections
                   ([Say (DetectedBackend (local (clock w k)) "porcupine");
                     Say TodoStt; Say TodoRecord; Say TodoIntent]
                    ++ stats_part w start_time (S n) (S k)) = 1).
    { now rewrite detections_app, stats_part_detections. }
    split; [| split; [| split]].
    + rewrite Hd.
      erewrite bind_run by reflexivity.
      erewrite bind_run by (rewrite porcupine_report_stats_same; apply report_stats_run).
      simpl. rewrite app_nil_r. f_equal. f_equal. lia.
    + split; [intros _; apply Z.geb_le in E; lia | reflexivity].
    + exact Hd.
    + rewrite existsb_app. simpl. apply stats_part_due.
  - exists (stats_part w start_time n k).
    assert (Hnone : existsb is_detection (stats_part w start_time n k) = false).
    { unfold stats_part. now destruct (_ && _)%bool. }
    split; [| split; [| split]].
    + rewrite stats_part_detections, Nat.add_0_r.
      erewrite bind_run by reflexivity.
      erewrite bind_run by (rewrite porcupine_report_stats_same; apply report_stats_run).
      simpl. now rewrite app_nil_r.
    + rewrite Hnone. split; [discriminate |].
      intros H. assert ((r >=? 0)%Z = true) by (apply Z.geb_le; lia). congruence.
    + apply stats_part_detections.
    + apply stats_part_due.
Qed.

Lemma porcupine_loop_counts (start_time : Q) (frames : list Z) (n k : nat) :
  result (PorcupineListener.loop w start_time (map Frame frames) n k) =
  Val (n + detections
             (calls (PorcupineListener.loop w start_time (map Frame frames) n k))).
Proof.
  revert n k. induction frames as [| r frames IH]; intros n k; simpl.
  - now rewrite Nat.add_0_r.
  - destruct (porcupine_iteration_counts start_time r n k) as (l & E & _).
    unfold bind. rewrite E. simpl. rewrite IH, detections_app. f_equal. lia.
Qed.

End Standalone.

(** ** The reader reads what [json.dumps] writes *)

Import Reader.

Lemma append_assoc (a b c : string) : (a +++ b) +++ c = a +++ (b +++ c).
Proof. induction a as [| x a IH]; simpl; [reflexivity | now rewrite IH]. Qed.

Lemma append_nil_r (a : string) : a +++ "" = a.
Proof. induction a as [| x a IH]; simpl; [reflexivity | now rewrite IH]. Qed.

Lemma rev_onto_app (a b acc : string) :
  rev_onto (a +++ b) acc = rev_onto b (rev_onto a acc).
Proof. revert acc. induction a as [| x a IH]; intros acc; simpl; [reflexivity | apply IH]. Qed.

Lemma unrev_rev_onto (s acc : string) : unrev (rev_onto s acc) = unrev acc +++ s.
Proof.
  unfold unrev. revert acc. induction s as [| x s IH]; intros acc; simpl.
  - now rewrite append_nil_r.
  - rewrite IH. simpl.
    assert (H : forall a b, rev_onto a b = rev_onto a "" +++ b).
    { clear. induction a as [| y a IHa]; intros b; simpl; [reflexivity |].
      rewrite (IHa (String y b)), (IHa (String y "")).
      now rewrite append_assoc. }
    rewrite (H acc (String x "")). now rewrite append_assoc.
Qed.

Lemma lex_escape_char (c : ascii) (acc rest : string) :
  lex (InString acc) (escape_char c +++ rest) =
  lex (InString (rev_onto (escape_char c) acc)) rest.
Proof.
  destruct c as [[] [] [] [] [] [] [] []]; reflexivity.
Qed.

Lemma lex_escape (s acc rest : string) :
  lex (InString acc) (escape s +++ rest) =
  lex (InString (rev_onto (escape s) acc)) rest.
Proof.
  revert acc. induction s as [| c s IH]; intros acc.
  - reflexivity.
  - cbn [escape]. rewrite append_assoc, lex_escape_char, IH.
    now rewrite rev_onto_app.
Qed.

Lemma lex_quoted (s rest : string) :
  lex Between (quoted s +++ rest) = push (TString (escape s)) (lex Between rest).
Proof.
  unfold quoted. cbn [String.append]. rewrite append_assoc.
  change (lex Between (String dquote (escape s +++ String dquote "" +++ rest)))
    with (lex (InString "") (escape s +++ String dquote rest)).
  rewrite lex_escape.
  change (lex (InString (rev_onto (escape s) "")) (String dquote rest))
    with (push (TString (unrev (rev_onto (escape s) ""))) (lex Between rest)).
  now rewrite unrev_rev_onto.
Qed.

Lemma lex_word_chars (s acc rest : string) :
  word_chars s = true ->
  lex (InWord acc) (s +++ rest) = lex (InWord (rev_onto s acc)) rest.
Proof.
  revert acc. induction s as [| c s IH]; intros acc H; [reflexivity |].
  simpl in H. apply andb_true_iff in H. destruct H as [Hc Hs].
  unfold word_char in Hc.
  apply andb_true_iff in Hc. destruct Hc as [Hc Hq].
  apply andb_true_iff in Hc. destruct Hc as [Hsp Hp].
  apply negb_true_iff in Hsp, Hq.
  cbn [String.append lex rev_onto]. rewrite Hsp, Hq.
  destruct (punct c); [discriminate |]. now apply IH.
Qed.

(** A word followed by a comma or a closing brace. *)
Lemma lex_word (s rest : string) (c : ascii) (t : token) :
  word_chars s = true -> s <> "" -> punct c = Some t ->
  lex Between (s +++ String c rest) =
  push (TWord s) (push t (lex Between rest)).
Proof.
  intros H Hne Hc. destruct s as [| x s]; [congruence |].
  simpl in H. apply andb_true_iff in H. destruct H as [Hx Hs].
  unfold word_char in Hx.
  apply andb_true_iff in Hx. destruct Hx as [Hx Hq].
  apply andb_true_iff in Hx. destruct Hx as [Hsp Hp].
  apply negb_true_iff in Hsp, Hq.
  cbn [String.append lex]. rewrite Hsp, Hq.
  destruct (punct x); [discriminate |].
  rewrite (lex_word_chars s (String x "") (String c rest) Hs).
  cbn [lex].
  assert (Hspc : is_space c = false).
  { destruct c as [[] [] [] [] [] [] [] []]; try reflexivity; discriminate. }
  rewrite Hspc, Hc.
  now rewrite (unrev_rev_onto s (String x "")).
Qed.

Lemma numstep_word_char (q q' : numstate) (c : ascii) :
  numstep q c = Some q' -> word_char c = true.
Proof.
  destruct c as [[] [] [] [] [] [] [] []]; destruct q;
    try discriminate; reflexivity.
Qed.

Lemma numrun_word_chars (q : numstate) (s : string) :
  numrun q s = true -> word_chars s = true.
Proof.
  revert q. induction s as [| c s IH]; intros q H; [reflexivity |].
  simpl in H. destruct (numstep q c) as [q' |] eqn:E; [| discriminate].
  simpl. rewrite (numstep_word_char _ _ _ E). now apply (IH q').
Qed.

Lemma is_number_word (s : string) :
  is_number s = true ->
  word_chars s = true /\ s <> "" /\ scalar_of (TWord s) = Some (SNumber s).
Proof.
  intros H. split; [now apply (numrun_word_chars NStart) | split].
  - destruct s; [discriminate H | discriminate].
  - unfold scalar_of. rewrite H.
    destruct s as [| c s]; [discriminate H |].
    unfold is_number in H. cbn [numrun] in H.
    destruct (numstep NStart c) eqn:E; [| discriminate H].
    assert (Hn : Ascii.eqb c "n" = false /\ Ascii.eqb c "t" = false
                 /\ Ascii.eqb c "f" = false).
    { destruct c as [[] [] [] [] [] [] [] []]; try discriminate E; repeat split. }
    destruct Hn as (Hn & Ht & Hf).
    cbn [String.eqb]. now rewrite Hn, Ht, Hf.
Qed.

Lemma token_of_scalar (w : world) (v : value) :
  writes_number w v = true -> scalar_of (token_of w v) = Some (written w v).
Proof.
  destruct v; simpl; intros H; try reflexivity;
    now apply is_number_word in H.
Qed.

Lemma punct_not_space (c : ascii) (t : token) :
  punct c = Some t -> is_space c = false.
Proof.
  destruct c as [[] [] [] [] [] [] [] []]; try reflexivity; discriminate.
Qed.

Lemma lex_punct (c : ascii) (t : token) (rest : string) :
  punct c = Some t -> lex Between (String c rest) = push t (lex Between rest).
Proof.
  intros H. cbn [lex]. now rewrite (punct_not_space c t H), H.
Qed.

Section Dumped.
Variable w : world.

Lemma lex_value (v : value) (c : ascii) (t : token) (rest : string) :
  writes_number w v = true -> punct c = Some t ->
  lex Between (dumps_value w v +++ String c rest) =
  push (token_of w v) (push t (lex Between rest)).
Proof.
  intros Hv Hc. destruct v as [| s | x | n]; simpl in Hv.
  - apply (lex_word "null"); [reflexivity | discriminate | exact Hc].
  - cbn [dumps_value token_of]. rewrite lex_quoted. f_equal.
    now apply lex_punct.
  - apply is_number_word in Hv. destruct Hv as (H1 & H2 & _).
    now apply lex_word.
  - apply is_number_word in Hv. destruct Hv as (H1 & H2 & _).
    now apply lex_word.
Qed.

Lemma lex_item (kv : string * value) (c : ascii) (t : token) (rest : string) :
  writes_number w (snd kv) = true -> punct c = Some t ->
  lex Between (dumps_item w kv +++ String c rest) =
  push (TString (escape (fst kv)))
    (push TColon (push (token_of w (snd kv)) (push t (lex Between rest)))).
Proof.
  intros Hv Hc. unfold dumps_item. rewrite !append_assoc, lex_quoted.
  f_equal. cbn [String.append]. rewrite (lex_punct ":" TColon) by reflexivity.
  f_equal. change (lex Between (String " " ?s)) with (lex Between s).
  now apply lex_value.
Qed.

Lemma lex_items (d : dict) :
  d <> [] -> writes_numbers w d = true ->
  lex Between (dumps_items w d +++ "}") = Some (item_tokens w d).
Proof.
  induction d as [| [k v] d IH]; intros Hne Hd; [congruence |].
  unfold writes_numbers in Hd. cbn [forallb] in Hd.
  apply andb_true_iff in Hd. destruct Hd as [Hv Hd].
  destruct d as [| kv2 d].
  - cbn [dumps_items item_tokens].
    rewrite (lex_item (k, v) "}" TRBrace "" Hv eq_refl). reflexivity.
  - change (dumps_items w ((k, v) :: kv2 :: d))
      with (dumps_item w (k, v) +++ ", " +++ dumps_items w (kv2 :: d)).
    rewrite append_assoc.
    change ((", " +++ dumps_items w (kv2 :: d)) +++ "}")
      with (String "," (String " " (dumps_items w (kv2 :: d) +++ "}"))).
    rewrite (lex_item (k, v) "," TComma _ Hv eq_refl).
    change (lex Between (String " " ?s)) with (lex Between s).
    rewrite IH by (easy || exact Hd). reflexivity.
Qed.

Lemma members_items (d : dict) :
  d <> [] -> writes_numbers w d = true ->
  members (item_tokens w d) = Some (map (written_item w) d).
Proof.
  induction d as [| [k v] d IH]; intros Hne Hd; [congruence |].
  unfold writes_numbers in Hd. cbn [forallb] in Hd.
  apply andb_true_iff in Hd. destruct Hd as [Hv Hd].
  destruct d as [| kv2 d].
  - cbn [item_tokens members]. rewrite (token_of_scalar w v Hv). reflexivity.
  - change (item_tokens w ((k, v) :: kv2 :: d))
      with (TString (escape k) :: TColon :: token_of w v :: TComma
            :: item_tokens w (kv2 :: d)).
    cbn [members]. rewrite (token_of_scalar w v Hv).
    rewrite IH by (easy || exact Hd). reflexivity.
Qed.

(** The reader returns the members [json.dumps] wrote, as written. *)
Lemma loads_dumps (d : dict) :
  writes_numbers w d = true ->
  loads (dumps w d) = Some (map (written_item w) d).
Proof.
  intros Hd. destruct d as [| kv d]; [reflexivity |].
  unfold loads, dumps.
  change (lex Between ("{" +++ dumps_items w (kv :: d) +++ "}"))
    with (push TLBrace (lex Between (dumps_items w (kv :: d) +++ "}"))).
  rewrite lex_items by (easy || exact Hd). cbn [push option_map].
  rewrite <- (members_items (kv :: d)) by (easy || exact Hd).
  destruct kv as [k v]. destruct d as [| kv2 d]; reflexivity.
Qed.

End Dumped.

(** *** One line *)

Lemma single_line_app (a b : string) :
  single_line (a +++ b) = single_line a && single_line b.
Proof.
  induction a as [| c a IH]; simpl; [reflexivity |].
  rewrite IH. now rewrite andb_assoc.
Qed.

Lemma single_line_escape (s : string) : single_line (escape s) = true.
Proof.
  induction s as [| c s IH]; [reflexivity |].
  cbn [escape]. rewrite single_line_app, IH, andb_true_r.
  destruct c as [[] [] [] [] [] [] [] []]; reflexivity.
Qed.

Lemma single_line_quoted (s : string) : single_line (quoted s) = true.
Proof.
  unfold quoted. cbn [single_line]. rewrite single_line_app, single_line_escape.
  reflexivity.
Qed.

Lemma single_line_word (s : string) : word_chars s = true -> single_line s = true.
Proof.
  induction s as [| c s IH]; [reflexivity |]. simpl. intros H.
  apply andb_true_iff in H. destruct H as [Hc Hs]. rewrite (IH Hs), andb_true_r.
  destruct c as [[] [] [] [] [] [] [] []]; try reflexivity; discriminate.
Qed.

Lemma single_line_value (w : world) (v : value) :
  writes_number w v = true -> single_line (dumps_value w v) = true.
Proof.
  destruct v; simpl; intros H.
  - reflexivity.
  - apply single_line_quoted.
  - apply single_line_word. now apply is_number_word in H.
  - apply single_line_word. now apply is_number_word in H.
Qed.

Lemma single_line_dumps (w : world) (d : dict) :
  writes_numbers w d = true -> single_line (dumps w d) = true.
Proof.
  intros Hd. unfold dumps. cbn [String.append single_line].
  rewrite single_line_app. cbn [single_line]. rewrite andb_true_r.
  change (negb ((N_of_ascii "{" =? 10)%N || (N_of_ascii "{" =? 13)%N)) with true.
  cbn [andb].
  induction d as [| [k v] d IH]; [reflexivity |].
  unfold writes_numbers in Hd. cbn [forallb] in Hd.
  apply andb_true_iff in Hd. destruct Hd as [Hv Hd].
  assert (Hi : single_line (dumps_item w (k, v)) = true).
  { unfold dumps_item. rewrite !single_line_app, single_line_quoted.
    cbn [fst snd]. now rewrite (single_line_value w v Hv). }
  destruct d as [| kv2 d]; [exact Hi |].
  change (dumps_items w ((k, v) :: kv2 :: d))
    with (dumps_item w (k, v) +++ ", " +++ dumps_items w (kv2 :: d)).
  rewrite !single_line_app, Hi, (IH Hd). reflexivity.
Qed.

(** *** Timestamps *)

Lemma digit_of_digit (n : N) : digit_of (digit n) = Some (n mod 10)%N.
Proof.
  unfold digit_of, digit, is_digit.
  assert (H : (n mod 10 < 10)%N) by (apply N.mod_lt; discriminate).
  generalize dependent (n mod 10)%N. intros r H.
  rewrite N_ascii_embedding by lia.
  replace ((48 <=? 48 + r)%N && (48 + r <=? 57)%N) with true.
  - f_equal. lia.
  - symmetry. apply andb_true_iff. split; apply N.leb_le; lia.
Qed.

Lemma number_step (k : nat) (acc : N) (c : ascii) (rest : string) :
  number (S k) acc (String c rest) =
  match digit_of c with
  | Some d => number k (10 * acc + d)%N rest
  | None => None
  end.
Proof. reflexivity. Qed.

Lemma number_snoc (k : nat) (acc : N) (s : string) :
  number (S k) acc s =
  match number k acc s with
  | Some (a, s') => number 1 a s'
  | None => None
  end.
Proof.
  revert acc s. induction k as [| k IH]; intros acc s; [reflexivity |].
  destruct s as [| c rest]; [reflexivity |].
  rewrite (number_step (S k)), (number_step k).
  destruct (digit_of c) as [d |]; [apply IH | reflexivity].
Qed.

Lemma number_zfill (k : nat) (n acc : N) (rest : string) :
  (n < 10 ^ N.of_nat k)%N ->
  number k acc (zfill k n +++ rest) = Some ((acc * 10 ^ N.of_nat k + n)%N, rest).
Proof.
  revert n acc rest. induction k as [| k IH]; intros n acc rest H.
  - simpl in *. f_equal. f_equal. lia.
  - rewrite number_snoc. cbn [zfill]. rewrite append_assoc.
    assert (Hp : (10 ^ N.of_nat (S k) = 10 * 10 ^ N.of_nat k)%N).
    { rewrite Nat2N.inj_succ, N.pow_succ_r'. reflexivity. }
    rewrite IH.
    + cbn [String.append number]. rewrite digit_of_digit. f_equal. f_equal.
      rewrite Hp. pose proof (N.div_mod' n 10). lia.
    + rewrite Hp in H. apply N.Div0.div_lt_upper_bound. lia.
Qed.

Lemma number_zfill0 (k : nat) (n : N) (rest : string) :
  (n < 10 ^ N.of_nat k)%N -> number k 0 (zfill k n +++ rest) = Some (n, rest).
Proof. intros H. now rewrite number_zfill. Qed.

Lemma expect_here (c : ascii) (rest : string) : expect c (String c rest) = Some rest.
Proof. unfold expect. now rewrite Ascii.eqb_refl. Qed.

(** What [isoformat] writes for a valid [datetime] reads back as that
    [datetime], at offset zero from UTC. *)
Lemma parse_isoformat (d : datetime) :
  valid_datetime d = true -> parse_iso8601 (isoformat d) = Some (d, 0%Z).
Proof.
  intros H. assert (Hv := H). destruct d as [y mo da h mi se us].
  unfold valid_datetime in H. cbn [year month day hour minute second microsecond] in H.
  repeat (apply andb_true_iff in H; destruct H as [H ?]).
  repeat match goal with
         | [ G : (_ <=? _)%N = true |- _ ] => apply N.leb_le in G
         | [ G : (_ <? _)%N = true |- _ ] => apply N.ltb_lt in G
         end.
  unfold parse_iso8601, isoformat.
  cbn [year month day hour minute second microsecond].
  rewrite (number_zfill0 4) by (change (10 ^ N.of_nat 4)%N with 10000%N; lia).
  cbn [bind_opt String.append]. rewrite expect_here. cbn [bind_opt].
  rewrite (number_zfill0 2) by (change (10 ^ N.of_nat 2)%N with 100%N; lia).
  cbn [bind_opt String.append]. rewrite expect_here. cbn [bind_opt].
  rewrite (number_zfill0 2) by (change (10 ^ N.of_nat 2)%N with 100%N; lia).
  cbn [bind_opt String.append]. rewrite expect_here. cbn [bind_opt].
  rewrite (number_zfill0 2) by (change (10 ^ N.of_nat 2)%N with 100%N; lia).
  cbn [bind_opt String.append]. rewrite expect_here. cbn [bind_opt].
  rewrite (number_zfill0 2) by (change (10 ^ N.of_nat 2)%N with 100%N; lia).
  cbn [bind_opt String.append]. rewrite expect_here. cbn [bind_opt].
  rewrite (number_zfill0 2) by (change (10 ^ N.of_nat 2)%N with 100%N; lia).
  cbn [bind_opt].
  destruct (us =? 0)%N eqn:E.
  - apply N.eqb_eq in E. subst us.
    change (fraction ("" +++ "+00:00")) with (Some (0%N, "+00:00")).
    cbn [bind_opt].
    change (offset "+00:00") with (Some 0%Z). cbn [bind_opt].
    now rewrite Hv.
  - cbn [String.append]. unfold fraction.
    rewrite (number_zfill0 6) by (change (10 ^ N.of_nat 6)%N with 1000000%N; lia).
    cbn [bind_opt].
    change (offset "+00:00") with (Some 0%Z). cbn [bind_opt].
    now rewrite Hv.
Qed.

(** ** Detection events of the bridge *)

Lemma escape_app (a b : string) : escape (a +++ b) = escape a +++ escape b.
Proof.
  induction a as [| c a IH]; [reflexivity |].
  cbn [String.append escape]. now rewrite IH, append_assoc.
Qed.

Lemma escape_digit (n : N) : escape_char (digit n) = String (digit n) "".
Proof.
  unfold digit.
  assert (H : (n mod 10 < 10)%N) by (apply N.mod_lt; discriminate).
  generalize dependent (n mod 10)%N. intros r H.
  destruct r as [| p]; [reflexivity |].
  do 4 (try destruct p as [p | p |]; try reflexivity; try lia).
Qed.

Lemma escape_zfill (k : nat) (n : N) : escape (zfill k n) = zfill k n.
Proof.
  revert n. induction k as [| k IH]; intros n; [reflexivity |].
  cbn [zfill]. rewrite escape_app, IH. cbn [escape].
  now rewrite escape_digit.
Qed.

(** A timestamp holds nothing [json.dumps] escapes. *)
Lemma escape_isoformat (d : datetime) : escape (isoformat d) = isoformat d.
Proof.
  unfold isoformat. rewrite !escape_app, !escape_zfill.
  destruct (microsecond d =? 0)%N; [reflexivity |].
  now rewrite escape_app, escape_zfill.
Qed.

Section Events.
Variable w : world.

(** The dictionary [on_detection] hands to [json.dumps]. *)
Lemma on_detection_run (backend word : string) (score : option Q) (k : nat) :
  Bridge.on_detection w backend word score k =
  Run [Stdout
         (dumps w [("ts", JStr (isoformat (utc (clock w k))));
                   ("type", JStr "wake_word_detected");
                   ("backend", JStr backend);
                   ("word", JStr word);
                   ("score", match score with
                             | Some x => JFloat x
                             | None => JNull
                             end)])
         true]
      (S k) (Val tt).
Proof. destruct score; reflexivity. Qed.

Lemma detection_is_event (backend word : string) (score : option Q) (t : datetime) :
  (forall x, score = Some x -> is_number (float_repr w x) = true) ->
  is_event "wake_word_detected"
    (dumps w [("ts", JStr (isoformat t));
              ("type", JStr "wake_word_detected");
              ("backend", JStr backend);
              ("word", JStr word);
              ("score", match score with
                        | Some x => JFloat x
                        | None => JNull
                        end)]) = true.
Proof.
  intros Hs. unfold is_event. rewrite loads_dumps; [reflexivity |].
  unfold writes_numbers.
  destruct score as [x |]; cbn [forallb snd writes_number andb];
    [now rewrite (Hs x eq_refl) | reflexivity].
Qed.

Lemma porcupine_iteration_run (r : Z) (k : nat) :
  Bridge.porcupine_iteration w r k =
  if (r >=? 0)%Z then
    Run [Stdout
           (dumps w [("ts", JStr (isoformat (utc (clock w k))));
                     ("type", JStr "wake_word_detected");
                     ("backend", JStr "porcupine");
                     ("word", JStr "claudette");
                     ("score", JNull)])
           true]
        (S k) (Val tt)
  else Run [] k (Val tt).
Proof.
  unfold Bridge.porcupine_iteration. now destruct (r >=? 0)%Z.
Qed.

End Events.

(** C6.  Whatever the backend, the word and the score, [on_detection]
    writes one line on standard output and flushes it: a text without line
    break that reads as a JSON object with members [ts], [type], [backend]
    and [word] (and [score]), where [type] is "wake_word_detected" and [ts]
    reads as ISO 8601 and gives back the UTC clock reading at offset zero.
    This supposes what Python guarantees: the clock reading is a valid
    [datetime], and the [repr] of the score is a JSON number. *)
Theorem C6_detection_event_is_one_json_line :
  forall (w : world) (backend word : string) (score : option Q) (k : nat),
    valid_datetime (utc (clock w k)) = true ->
    (forall x, score = Some x -> is_number (float_repr w x) = true) ->
    exists text o ts,
      Bridge.on_detection w backend word score k =
        Run [Stdout text true] (S k) (Val tt) /\
      single_line text = true /\
      loads text = Some o /\
      member o "ts" = Some (SString ts) /\
      parse_iso8601 ts = Some (utc (clock w k), 0%Z) /\
      member o "type" = Some (SString "wake_word_detected") /\
      member o "backend" = Some (SString (escape backend)) /\
      member o "word" = Some (SString (escape word)) /\
      member o "score" = Some (match score with
                               | Some x => SNumber (float_repr w x)
                               | None => SNull
                               end).
Proof.
  intros w backend word score k Hclock Hscore.
  assert (Hd : writes_numbers w
                 [("ts", JStr (isoformat (utc (clock w k))));
                  ("type", JStr "wake_word_detected");
                  ("backend", JStr backend);
                  ("word", JStr word);
                  ("score", match score with
                            | Some x => JFloat x
                            | None => JNull
                            end)] = true).
  { unfold writes_numbers.
    destruct score as [x |]; cbn [forallb snd writes_number andb];
      [now rewrite (Hscore x eq_refl) | reflexivity]. }
  eexists. eexists. exists (escape (isoformat (utc (clock w k)))).
  split; [apply on_detection_run |].
  split; [now apply single_line_dumps |].
  split; [now apply loads_dumps |].
  split; [reflexivity |].
  split; [rewrite escape_isoformat; now apply parse_isoformat |].
  repeat split; try reflexivity.
  now destruct score.
Qed.

Lemma C6_witness :
  exists text o ts,
    Bridge.on_detection Sample.plain "oww" "claudette" (Some (1 # 2)%Q) 0 =
      Run [Stdout text true] 1 (Val tt) /\
    single_line text = true /\
    loads text = Some o /\
    member o "ts" = Some (SString ts) /\
    parse_iso8601 ts = Some (utc (clock Sample.plain 0), 0%Z) /\
    member o "type" = Some (SString "wake_word_detected") /\
    member o "backend" = Some (SString (escape "oww")) /\
    member o "word" = Some (SString (escape "claudette")) /\
    member o "score" = Some (SNumber (float_repr Sample.plain (1 # 2)%Q)).
Proof.
  apply (C6_detection_event_is_one_json_line
           Sample.plain "oww" "claudette" (Some (1 # 2)%Q) 0).
  - reflexivity.
  - intros x H. injection H as <-. reflexivity.
Defined.

(** ** The logs of the loops *)

Lemma count_app (p : call -> bool) (l1 l2 : list call) :
  count p (l1 ++ l2) = count p l1 + count p l2.
Proof. unfold count. now rewrite filter_app, length_app. Qed.

Lemma count_none (p q : call -> bool) (l : list call) :
  (forall c, q c = true -> p c = false) -> forallb q l = true -> count p l = 0.
Proof.
  intros Hpq. induction l as [| c l IH]; [reflexivity |].
  cbn [forallb]. intros H. apply andb_true_iff in H. destruct H as [Hc Hl].
  unfold count. cbn [filter]. rewrite (Hpq c Hc). now apply IH.
Qed.

Lemma existsb_none (p q : call -> bool) (l : list call) :
  (forall c, q c = true -> p c = false) -> forallb q l = true -> existsb p l = false.
Proof.
  intros Hpq. induction l as [| c l IH]; [reflexivity |].
  cbn [forallb existsb]. intros H. apply andb_true_iff in H. destruct H as [Hc Hl].
  rewrite (Hpq c Hc). now apply IH.
Qed.

Section Logs.
Variable w : world.

(** *** The bridge *)

Lemma bridge_forward_run (backend : string) (items : list (string * Q)) (k : nat) :
  result (for_each (fun item => Bridge.on_detection w backend (fst item) (Some (snd item)))
            items k) = Val tt
  /\ forallb is_stdout
       (calls (for_each (fun item => Bridge.on_detection w backend (fst item) (Some (snd item)))
                 items k)) = true.
Proof.
  revert k. induction items as [| [word score] items IH]; intros k.
  - split; reflexivity.
  - cbn [for_each]. erewrite bind_run by apply on_detection_run.
    cbn [result calls app forallb is_stdout andb]. apply IH.
Qed.

Lemma bridge_oww_iteration_run (threshold : Q) (predictions : list (string * Q))
    (k : nat) :
  result (Bridge.oww_iteration w threshold predictions k) = Val tt
  /\ forallb is_stdout (calls (Bridge.oww_iteration w threshold predictions k)) = true.
Proof. rewrite bridge_iteration_passing. apply bridge_forward_run. Qed.

Lemma bridge_oww_frames (threshold : Q) (frames : list (list (string * Q)))
    (k : nat) :
  result (Bridge.oww_loop w threshold (map Frame frames) k) = Val tt
  /\ forallb is_stdout (calls (Bridge.oww_loop w threshold (map Frame frames) k)) = true.
Proof.
  revert k. induction frames as [| p frames IH]; intros k.
  - split; reflexivity.
  - cbn [map Bridge.oww_loop].
    destruct (bridge_oww_iteration_run threshold p k) as [Hr Hc].
    unfold bind. rewrite Hr. cbn [result calls].
    destruct (IH (reads (Bridge.oww_iteration w threshold p k))) as [Hr' Hc'].
    split; [exact Hr' |]. rewrite forallb_app, Hc, Hc'. reflexivity.
Qed.

Lemma bridge_porcupine_iteration_log (r : Z) (k : nat) :
  result (Bridge.porcupine_iteration w r k) = Val tt
  /\ forallb is_stdout (calls (Bridge.porcupine_iteration w r k)) = true.
Proof.
  rewrite porcupine_iteration_run. destruct (r >=? 0)%Z; split; reflexivity.
Qed.

Lemma bridge_porcupine_frames (frames : list Z) (k : nat) :
  result (Bridge.porcupine_loop w (map Frame frames) k) = Val tt
  /\ forallb is_stdout (calls (Bridge.porcupine_loop w (map Frame frames) k)) = true.
Proof.
  revert k. induction frames as [| r frames IH]; intros k.
  - split; reflexivity.
  - cbn [map Bridge.porcupine_loop].
    destruct (bridge_porcupine_iteration_log r k) as [Hr Hc].
    unfold bind. rewrite Hr. cbn [result calls].
    destruct (IH (reads (Bridge.porcupine_iteration w r k))) as [Hr' Hc'].
    split; [exact Hr' |]. rewrite forallb_app, Hc, Hc'. reflexivity.
Qed.

Lemma bridge_oww_loop_app (threshold : Q) (frames : list (list (string * Q)))
    (rest : list (stimulus (list (string * Q)))) (k : nat) :
  Bridge.oww_loop w threshold (map Frame frames ++ rest) k =
  (Bridge.oww_loop w threshold (map Frame frames) ;;;
   Bridge.oww_loop w threshold rest) k.
Proof.
  revert k. induction frames as [| p frames IH]; intros k.
  - cbn [map app Bridge.oww_loop]. now rewrite bind_ret_l.
  - cbn [map app Bridge.oww_loop]. rewrite bind_assoc.
    apply bind_ext. intros _ k'. apply IH.
Qed.

Lemma bridge_porcupine_loop_app (frames : list Z) (rest : list (stimulus Z))
    (k : nat) :
  Bridge.porcupine_loop w (map Frame frames ++ rest) k =
  (Bridge.porcupine_loop w (map Frame frames) ;;; Bridge.porcupine_loop w rest) k.
Proof.
  revert k. induction frames as [| r frames IH]; intros k.
  - cbn [map app Bridge.porcupine_loop]. now rewrite bind_ret_l.
  - cbn [map app Bridge.porcupine_loop]. rewrite bind_assoc.
    apply bind_ext. intros _ k'. apply IH.
Qed.

(** *** The standalone listeners *)

Lemma scan_says (threshold : Q) (predictions : list (string * Q)) (n k : nat) :
  forallb is_say (calls (OwwListener.scan w threshold predictions n k)) = true.
Proof.
  revert n k. induction predictions as [| [word score] rest IH]; intros n k.
  - reflexivity.
  - cbn [OwwListener.scan]. destruct (Qle_bool threshold score); [| apply IH].
    erewrite bind_run by reflexivity. cbn [calls app forallb is_say andb].
    apply IH.
Qed.

Lemma stats_part_says (start_time : Q) (n k : nat) :
  forallb is_say (stats_part w start_time n k) = true.
Proof. unfold stats_part. now destruct (_ && _)%bool. Qed.

Lemma oww_iteration_says (threshold start_time : Q)
    (predictions : list (string * Q)) (n k : nat) :
  forallb is_say
    (calls (OwwListener.iteration w threshold start_time predictions n k)) = true.
Proof.
  pose proof (scan_says threshold predictions n k) as Hs.
  destruct (scan_counts w threshold predictions n k) as (l & k' & E & _).
  unfold OwwListener.iteration.
  erewrite (bind_run _ _ k) by exact E.
  erewrite bind_run by apply report_stats_run.
  rewrite E in Hs. cbn [calls] in *.
  rewrite app_nil_r, forallb_app, Hs. apply stats_part_says.
Qed.

Lemma oww_frames_say (threshold start_time : Q)
    (frames : list (list (string * Q))) (n k : nat) :
  forallb is_say
    (calls (OwwListener.loop w threshold start_time (map Frame frames) n k)) = true.
Proof.
  revert n k. induction frames as [| p frames IH]; intros n k; [reflexivity |].
  cbn [map OwwListener.loop].
  destruct (oww_iteration_counts w threshold start_time p n k) as (l & E & _).
  pose proof (oww_iteration_says threshold start_time p n k) as Hs.
  erewrite bind_run by exact E. rewrite E in Hs. cbn [calls] in *.
  rewrite forallb_app, Hs. apply IH.
Qed.

Lemma porcupine_iteration_eq (start_time : Q) (r : Z) (n k : nat) :
  PorcupineListener.iteration w start_time r n k =
  if (r >=? 0)%Z then
    Run ([Say (DetectedBackend (local (clock w k)) "porcupine");
          Say TodoStt; Say TodoRecord; Say TodoIntent]
         ++ stats_part w start_time (S n) (S k))
        (S (S k)) (Val (S n))
  else Run (stats_part w start_time n k) (S k) (Val n).
Proof.
  unfold PorcupineListener.iteration. destruct (r >=? 0)%Z.
  - rewrite (bind_run _ _ k (S k)
               [Say (DetectedBackend (local (clock w k)) "porcupine");
                Say TodoStt; Say TodoRecord; Say TodoIntent] (S n))
      by reflexivity.
    rewrite (bind_run _ _ (S k) (S (S k)) (stats_part w start_time (S n) (S k)) tt)
      by (rewrite porcupine_report_stats_same; apply report_stats_run).
    cbn [calls reads result ret]. now rewrite app_nil_r.
  - rewrite (bind_run _ _ k k [] n) by reflexivity.
    rewrite (bind_run _ _ k (S k) (stats_part w start_time n k) tt)
      by (rewrite porcupine_report_stats_same; apply report_stats_run).
    cbn [calls reads result ret app]. now rewrite app_nil_r.
Qed.

Lemma porcupine_iteration_says (start_time : Q) (r : Z) (n k : nat) :
  forallb is_say (calls (PorcupineListener.iteration w start_time r n k)) = true.
Proof.
  rewrite porcupine_iteration_eq. destruct (r >=? 0)%Z; cbn [calls].
  - rewrite forallb_app. cbn [forallb is_say andb]. apply stats_part_says.
  - apply stats_part_says.
Qed.

Lemma porcupine_frames_say (start_time : Q) (frames : list Z) (n k : nat) :
  forallb is_say
    (calls (PorcupineListener.loop w start_time (map Frame frames) n k)) = true.
Proof.
  revert n k. induction frames as [| r frames IH]; intros n k; [reflexivity |].
  cbn [map PorcupineListener.loop].
  destruct (porcupine_iteration_counts w start_time r n k) as (l & E & _).
  pose proof (porcupine_iteration_says start_time r n k) as Hs.
  erewrite bind_run by exact E. rewrite E in Hs. cbn [calls] in *.
  rewrite forallb_app, Hs. apply IH.
Qed.

Lemma oww_loop_app (threshold start_time : Q) (frames : list (list (string * Q)))
    (rest : list (stimulus (list (string * Q)))) (n k : nat) :
  OwwListener.loop w threshold start_time (map Frame frames ++ rest) n k =
  (c <- OwwListener.loop w threshold start_time (map Frame frames) n ;;
   OwwListener.loop w threshold start_time rest c) k.
Proof.
  revert n k. induction frames as [| p frames IH]; intros n k.
  - cbn [map app OwwListener.loop]. now rewrite bind_ret_l.
  - cbn [map app OwwListener.loop]. rewrite bind_assoc.
    apply bind_ext. intros c k'. apply IH.
Qed.

Lemma porcupine_loop_app (start_time : Q) (frames : list Z)
    (rest : list (stimulus Z)) (n k : nat) :
  PorcupineListener.loop w start_time (map Frame frames ++ rest) n k =
  (c <- PorcupineListener.loop w start_time (map Frame frames) n ;;
   PorcupineListener.loop w start_time rest c) k.
Proof.
  revert n k. induction frames as [| r frames IH]; intros n k.
  - cbn [map app PorcupineListener.loop]. now rewrite bind_ret_l.
  - cbn [map app PorcupineListener.loop]. rewrite bind_assoc.
    apply bind_ext. intros c k'. apply IH.
Qed.

End Logs.

(** ** The keyword-spotting backend *)

Lemma porcupine_line_reads (w : world) (t : datetime) :
  exists o,
    loads (dumps w [("ts", JStr (isoformat t));
                    ("type", JStr "wake_word_detected");
                    ("backend", JStr "porcupine");
                    ("word", JStr "claudette");
                    ("score", JNull)]) = Some o
    /\ member o "type" = Some (SString "wake_word_detected")
    /\ member o "backend" = Some (SString "porcupine")
    /\ member o "word" = Some (SString "claudette")
    /\ member o "score" = Some SNull.
Proof.
  eexists. split; [now apply loads_dumps |]. repeat split.
Qed.

(** C5 as stated fails: the word the bridge attaches is not the configured
    wake word.  With the keyword file of another wake word given as
    [--model], the event carries the same word as with the keyword file of
    the project: however wake words are assigned to keyword files, if the
    two files have different wake words, the word of one of the two events
    is not the configured one. *)
Lemma C5_word_is_not_the_configured_one :
  ~ exists wake_word_of : string -> string,
      wake_word_of jarvis_ppn <> wake_word_of Sample.ppn /\
      forall f model,
        (f, model) = (jarvis_flags, jarvis_ppn) \/ (f, model) = (no_flags, Sample.ppn) ->
        forall text o,
          In (Stdout text true)
             (calls (Bridge.main two_keywords f [Frame 0%Z] [] 0)) ->
          loads text = Some o ->
          member o "type" = Some (SString "wake_word_detected") ->
          member o "word" = Some (SString (wake_word_of model)).
Proof.
  intros [wake_word_of [Hne H]]. apply Hne.
  destruct (porcupine_line_reads two_keywords (utc (clock two_keywords 1)))
    as (o & Hl & Ht & _ & Hw & _).
  assert (H1 : member o "word" = Some (SString (wake_word_of jarvis_ppn))).
  { refine (H jarvis_flags jarvis_ppn (or_introl eq_refl) _ o _ Hl Ht).
    vm_compute. do 4 right. left. reflexivity. }
  assert (H2 : member o "word" = Some (SString (wake_word_of Sample.ppn))).
  { refine (H no_flags Sample.ppn (or_intror eq_refl) _ o _ Hl Ht).
    vm_compute. do 4 right. left. reflexivity. }
  congruence.
Qed.

(** C5, amended.  With the Porcupine engine a turn of the loop reports a
    detection if and only if [porcupine.process] returned an index that is
    at least 0: the bridge then writes one event, whose word is the literal
    "claudette" whatever keyword file is configured; the standalone listener
    prints one detection line, which names the backend and carries no
    word. *)
Theorem C5_porcupine_detection_iff_index :
  forall (w : world) (index : Z),
    (forall k,
        existsb is_detection (calls (Bridge.porcupine_iteration w index k)) = true
        <-> (index >= 0)%Z) /\
    (forall k c,
        In c (calls (Bridge.porcupine_iteration w index k)) ->
        exists text o,
          c = Stdout text true /\ loads text = Some o /\
          member o "type" = Some (SString "wake_word_detected") /\
          member o "word" = Some (SString "claudette")) /\
    (forall start_time n k,
        existsb is_detection
          (calls (PorcupineListener.iteration w start_time index n k)) = true
        <-> (index >= 0)%Z) /\
    (forall start_time n k,
        detections (calls (PorcupineListener.iteration w start_time index n k)) =
        if (index >=? 0)%Z then 1 else 0) /\
    (forall start_time n k c,
        In c (calls (PorcupineListener.iteration w start_time index n k)) ->
        is_detection c = true ->
        exists ts, c = Say (DetectedBackend ts "porcupine")).
Proof.
  intros w index. split; [| split; [| split; [| split]]].
  - intros k. rewrite porcupine_iteration_run.
    destruct (index >=? 0)%Z eqn:E; cbn [calls existsb orb is_detection].
    + rewrite (detection_is_event w "porcupine" "claudette" None) by discriminate.
      split; [intros _; apply Z.geb_le in E; lia | reflexivity].
    + split; [discriminate |].
      intros H. assert ((index >=? 0)%Z = true) by (apply Z.geb_le; lia).
      congruence.
  - intros k c. rewrite porcupine_iteration_run.
    destruct (index >=? 0)%Z; cbn [calls In]; [| tauto].
    intros [<- | []].
    destruct (porcupine_line_reads w (utc (clock w k))) as (o & H1 & H2 & _ & H3 & _).
    eexists. exists o. repeat split; assumption.
  - intros start_time n k.
    destruct (porcupine_iteration_counts w start_time index n k)
      as (l & E & H & _).
    now rewrite E.
  - intros start_time n k.
    destruct (porcupine_iteration_counts w start_time index n k)
      as (l & E & _ & H & _).
    now rewrite E.
  - intros start_time n k c. rewrite porcupine_iteration_eq.
    assert (Hs : forall n' k', In c (stats_part w start_time n' k') ->
                               is_detection c = true -> False).
    { intros n' k'. unfold stats_part.
      destruct ((int _ mod 60 =? 0) && (int _ >? 0))%Z; cbn [In]; [| tauto].
      intros [<- | []]. discriminate. }
    destruct (index >=? 0)%Z; cbn [calls].
    + intros Hin Hd. apply in_app_or in Hin. destruct Hin as [Hin | Hin].
      * cbn [In] in Hin.
        destruct Hin as [<- | [<- | [<- | [<- | []]]]]; try discriminate Hd.
        now exists (local (clock w k)).
      * exfalso. exact (Hs _ _ Hin Hd).
    + intros Hin Hd. exfalso. exact (Hs _ _ Hin Hd).
Qed.

(** C10.  With the Porcupine engine, every line the bridge writes while
    frames arrive is a [wake_word_detected] event whose [score] member is
    there and is [null]; there is one such line for each frame the engine
    answered with an index that is at least 0. *)
Theorem C10_porcupine_score_is_null :
  forall (w : world) (frames : list Z) (k : nat),
    Forall
      (fun c =>
         exists text o,
           c = Stdout text true /\ loads text = Some o /\
           member o "type" = Some (SString "wake_word_detected") /\
           member o "score" = Some SNull)
      (calls (Bridge.porcupine_loop w (map Frame frames) k)) /\
    List.length (calls (Bridge.porcupine_loop w (map Frame frames) k)) =
    List.length (filter (fun index => (index >=? 0)%Z) frames).
Proof.
  intros w frames. induction frames as [| index frames IH]; intros k.
  - split; [constructor | reflexivity].
  - cbn [map Bridge.porcupine_loop filter].
    unfold bind. rewrite porcupine_iteration_run.
    destruct (index >=? 0)%Z; cbn [result calls reads app].
    + destruct (IH (S k)) as [H1 H2]. split.
      * constructor; [| exact H1].
        destruct (porcupine_line_reads w (utc (clock w k)))
          as (o & Ho & Ht & _ & _ & Hs).
        eexists. exists o. repeat split; assumption.
      * rewrite length_app, H2. reflexivity.
    + apply IH.
Qed.

(** ** The stats line *)

(** C4 as stated fails: in the first second after the start the whole
    seconds elapsed are 0, a multiple of 60, and no stats line is printed. *)
Lemma C4_no_stats_in_the_first_second :
  ~ (existsb is_stats
       (calls (OwwListener.iteration Sample.brisk (1 # 2)
                 (unix (clock Sample.brisk 0)) [] 0 1)) = true
     <-> (Qfloor (elapsed_at Sample.brisk (unix (clock Sample.brisk 0)) 1) mod 60
          = 0)%Z).
Proof.
  intros [_ H]. assert (E : false = true) by (apply H; reflexivity).
  discriminate E.
Qed.

Lemma bridge_oww_loop_quiet (w : world) (threshold : Q)
    (frames : list (list (string * Q))) (k : nat) :
  existsb is_stats (calls (Bridge.oww_loop w threshold (map Frame frames) k)) = false.
Proof.
  apply (existsb_none is_stats is_stdout).
  - now intros [].
  - apply bridge_oww_frames.
Qed.

Lemma bridge_porcupine_loop_quiet (w : world) (frames : list Z) (k : nat) :
  existsb is_stats (calls (Bridge.porcupine_loop w (map Frame frames) k)) = false.
Proof.
  apply (existsb_none is_stats is_stdout).
  - now intros [].
  - apply bridge_porcupine_frames.
Qed.

Lemma in_stats_part (w : world) (start_time : Q) (n k : nat) (c : call) :
  In c (stats_part w start_time n k) -> c = stats_line n (elapsed_at w start_time k).
Proof.
  unfold stats_part. destruct (_ && _)%bool; cbn [In]; intuition.
Qed.

Lemma in_not_stats (l : list call) (c : call) :
  existsb is_stats l = false -> In c l -> is_stats c = true -> False.
Proof.
  intros H Hin Hc.
  assert (existsb is_stats l = true) by (apply existsb_exists; eauto).
  congruence.
Qed.

(** C4, amended.  In the standalone listeners a turn of the loop prints a
    stats line exactly when the whole seconds elapsed since the start are a
    multiple of 60 and more than 0, and the line gives the detections so far
    and their rate per hour, detections / (elapsed / 3600).  The bridge
    prints no stats line. *)
Theorem C4_stats_at_positive_minute_boundaries :
  forall (w : world) (start_time : Q),
    (forall threshold predictions n k,
        let r := OwwListener.iteration w threshold start_time predictions n k in
        let elapsed :=
          elapsed_at w start_time
            (reads (OwwListener.scan w threshold predictions n k)) in
        (existsb is_stats (calls r) = true <-> stats_due elapsed) /\
        exists n', result r = Val n' /\
          forall c, In c (calls r) -> is_stats c = true -> c = stats_line n' elapsed) /\
    (forall index n k,
        let r := PorcupineListener.iteration w start_time index n k in
        let elapsed :=
          elapsed_at w start_time (if (index >=? 0)%Z then S k else k) in
        (existsb is_stats (calls r) = true <-> stats_due elapsed) /\
        exists n', result r = Val n' /\
          forall c, In c (calls r) -> is_stats c = true -> c = stats_line n' elapsed) /\
    (forall threshold frames k,
        existsb is_stats
          (calls (Bridge.oww_loop w threshold (map Frame frames) k)) = false) /\
    (forall frames k,
        existsb is_stats (calls (Bridge.porcupine_loop w (map Frame frames) k)) = false).
Proof.
  intros w start_time. split; [| split; [| split]].
  - intros threshold predictions n k. cbv zeta.
    destruct (scan_counts w threshold predictions n k) as (l & k' & E & Hs).
    unfold OwwListener.iteration.
    rewrite (bind_run _ _ k k' l (n + detections l)) by exact E.
    rewrite (bind_run _ _ k' (S k') (stats_part w start_time (n + detections l) k') tt)
      by apply report_stats_run.
    rewrite E. cbn [calls reads result ret]. rewrite app_nil_r. split.
    + rewrite existsb_app, Hs. cbn [orb]. apply stats_part_due.
    + exists (n + detections l). split; [reflexivity |].
      intros c Hin Hc. apply in_app_or in Hin. destruct Hin as [Hin | Hin].
      * exfalso. exact (in_not_stats l c Hs Hin Hc).
      * now apply in_stats_part.
  - intros index n k. cbv zeta. rewrite porcupine_iteration_eq.
    destruct (index >=? 0)%Z; cbn [calls result].
    + split.
      * rewrite existsb_app. cbn [existsb is_stats orb]. apply stats_part_due.
      * exists (S n). split; [reflexivity |].
        intros c Hin Hc. apply in_app_or in Hin. destruct Hin as [Hin | Hin].
        -- exfalso. cbn [In] in Hin.
           destruct Hin as [<- | [<- | [<- | [<- | []]]]]; discriminate Hc.
        -- now apply in_stats_part.
    + split; [apply stats_part_due |].
      exists n. split; [reflexivity |].
      intros c Hin _. now apply in_stats_part.
  - intros. apply bridge_oww_loop_quiet.
  - intros. apply bridge_porcupine_loop_quiet.
Qed.

(** ** The detection counter *)

Lemma forward_detections (w : world) (items : list (string * Q)) (k : nat) :
  detections
    (calls (for_each
              (fun item => OwwListener.on_wake_word_detected w (fst item) (snd item))
              items k)) = List.length items
  /\ result (for_each
               (fun item => OwwListener.on_wake_word_detected w (fst item) (snd item))
               items k) = Val tt.
Proof.
  revert k. induction items as [| [word score] items IH]; intros k.
  - split; reflexivity.
  - cbn [for_each].
    rewrite (bind_run _ _ k (S k)
               [Say (DetectedScore (local (clock w k)) word score);
                Say TodoStt; Say TodoRecord; Say TodoIntent] tt) by reflexivity.
    cbn [calls result]. destruct (IH (S k)) as [H1 H2]. split; [| exact H2].
    rewrite detections_app, H1. reflexivity.
Qed.

(** C8 as stated fails for the bridge: its loops keep no state from which a
    number of detections could be read.  Whatever one reads off the state
    after the loop is the same after no detection and after one. *)
Lemma C8_bridge_keeps_no_counter :
  ~ exists counter : unit -> nat,
      forall frames : list (list (string * Q)),
        match result (Bridge.oww_loop Sample.plain (1 # 2) (map Frame frames) 0) with
        | Val state =>
            counter state =
            detections (calls (Bridge.oww_loop Sample.plain (1 # 2) (map Frame frames) 0))
        | Stop _ => False
        end.
Proof.
  intros [counter H].
  pose proof (H []) as H0.
  pose proof (H [[("claudette", 1%Q)]]) as H1.
  vm_compute in H0, H1. congruence.
Qed.

(** C8, amended.  In the standalone listeners the detection counter grows
    by one for each detection the turn reports, as many as the frame has
    predictions that reach the threshold (one when the Porcupine index is at
    least 0), so that when frames have arrived the counter is its initial
    value, 0 in [listen], plus the number of detections reported. *)
Theorem C8_standalone_counter_counts_reports :
  forall (w : world) (start_time : Q),
    (forall threshold predictions n k,
        let r := OwwListener.iteration w threshold start_time predictions n k in
        result r = Val (n + detections (calls r)) /\
        detections (calls r) = List.length (passing threshold predictions)) /\
    (forall threshold frames n k,
        let r := OwwListener.loop w threshold start_time (map Frame frames) n k in
        result r = Val (n + detections (calls r))) /\
    (forall index n k,
        let r := PorcupineListener.iteration w start_time index n k in
        result r = Val (n + detections (calls r)) /\
        detections (calls r) = if (index >=? 0)%Z then 1 else 0) /\
    (forall frames n k,
        let r := PorcupineListener.loop w start_time (map Frame frames) n k in
        result r = Val (n + detections (calls r))).
Proof.
  intros w start_time. split; [| split; [| split]].
  - intros threshold predictions n k. cbv zeta.
    destruct (oww_iteration_counts w threshold start_time predictions n k)
      as (l & E & _).
    split; [now rewrite E |].
    rewrite oww_iteration_passing.
    destruct (forward_detections w (passing threshold predictions) k) as [Hd Hr].
    destruct (for_each _ (passing threshold predictions) k) as [l0 k0 r0] eqn:E0.
    cbn [calls result] in Hd, Hr. subst r0.
    rewrite (bind_run _ _ k k0 l0 tt) by exact E0.
    rewrite (bind_run _ _ k0 (S k0)
               (stats_part w start_time
                  (n + List.length (passing threshold predictions)) k0) tt)
      by apply report_stats_run.
    cbn [calls ret]. rewrite app_nil_r, detections_app, stats_part_detections.
    lia.
  - intros. apply oww_loop_counts.
  - intros index n k. cbv zeta.
    destruct (porcupine_iteration_counts w start_time index n k)
      as (l & E & _ & H & _).
    rewrite E. split; [reflexivity | exact H].
  - intros. apply porcupine_loop_counts.
Qed.

(** ** What a turn of the neural loops reports *)

Section Reports.
Variable w : world.

Lemma forward_lines (items : list (string * Q)) (k : nat) (word : string)
    (score : Q) :
  (exists ts,
      In (Say (DetectedScore ts word score))
        (calls (for_each
                  (fun item => OwwListener.on_wake_word_detected w (fst item) (snd item))
                  items k)))
  <-> In (word, score) items.
Proof.
  revert k. induction items as [| [word' score'] items IH]; intros k.
  - cbn. split; [intros [ts []] | intros []].
  - cbn [for_each].
    rewrite (bind_run _ _ k (S k)
               [Say (DetectedScore (local (clock w k)) word' score');
                Say TodoStt; Say TodoRecord; Say TodoIntent] tt) by reflexivity.
    cbn [calls fst snd]. split.
    + intros [ts H]. apply in_app_or in H. destruct H as [H | H].
      * cbn [In] in H.
        destruct H as [H | [H | [H | [H | []]]]]; try discriminate H.
        injection H as _ -> ->. now left.
      * right. apply (IH (S k)). eauto.
    + intros [H | H].
      * injection H as -> ->. exists (local (clock w k)).
        apply in_or_app. left. now left.
      * apply (IH (S k)) in H. destruct H as [ts H]. exists ts.
        apply in_or_app. now right.
Qed.

Lemma oww_iteration_lines (threshold start_time : Q)
    (predictions : list (string * Q)) (n k : nat) (word : string) (score : Q) :
  (exists ts,
      In (Say (DetectedScore ts word score))
        (calls (OwwListener.iteration w threshold start_time predictions n k)))
  <-> In (word, score) predictions /\ (threshold <= score)%Q.
Proof.
  rewrite <- passing_In, <- (forward_lines (passing threshold predictions) k).
  rewrite oww_iteration_passing.
  destruct (forward_detections w (passing threshold predictions) k) as [_ Hr].
  destruct (for_each _ (passing threshold predictions) k) as [l0 k0 r0] eqn:E0.
  cbn [calls result] in *. subst r0.
  rewrite (bind_run _ _ k k0 l0 tt) by exact E0.
  rewrite (bind_run _ _ k0 (S k0)
             (stats_part w start_time
                (n + List.length (passing threshold predictions)) k0) tt)
    by apply report_stats_run.
  cbn [calls ret]. rewrite app_nil_r. split.
  - intros [ts H]. apply in_app_or in H. destruct H as [H | H]; [eauto |].
    apply in_stats_part in H. discriminate H.
  - intros [ts H]. exists ts. apply in_or_app. now left.
Qed.

End Reports.

(** C1.  The claim fails in the bridge on the scores of the engine: a
    prediction whose score is a [numpy.float32] and reaches the threshold is
    handed to [on_detection], where [json.dumps] raises [TypeError].  On two
    frames with three such predictions, all at or above the threshold of
    0.5, the loop of the bridge writes
    nothing and ends at the first one, so that the other prediction of the
    frame and the next frame are never looked at; from its start the bridge
    reports that it listens and then ends with exit status 1, without a
    detection.  The standalone listener, on the same scores, reports the
    three detections. *)
Theorem C1_bridge_dies_on_float32_score :
  Forall (fun item : string * score => (1 # 2 <= as_float (snd item))%Q)
    (List.concat float32_frames) /\
  Bridge.oww_loop Sample.plain (1 # 2) (map Frame float32_frames) 1 =
    Run [] 2 (Stop (Uncaught TypeError)) /\
  (let r := Bridge.main Sample.plain oww_flags [] (map Frame float32_frames) 0 in
   result r = Stop (Uncaught TypeError) /\
   exit_status (Uncaught TypeError) = 1%Z /\
   existsb is_started (calls r) = true /\
   detections (calls r) = 0) /\
  (let r := OwwListener.loop Sample.plain (1 # 2) 0 (map Frame float32_values) 0 1 in
   result r = Val 3 /\ detections (calls r) = 3).
Proof.
  split; [repeat constructor; discriminate |].
  split; [reflexivity |]. split; vm_compute; repeat split.
Qed.

(** ** Shutdown *)

Section Shutdown.
Variable w : world.
Hypothesis releases : releases_succeed w.

Lemma release_run (c : call) (k : nat) :
  raises w c = false -> release w c k = Run [c] k (Val tt).
Proof. intros H. unfold release, bind, perform. cbn. now rewrite H. Qed.

Lemma stopped_is_event (backend : string) (t : datetime) :
  is_event "listener_stopped"
    (dumps w [("ts", JStr (isoformat t));
              ("type", JStr "listener_stopped");
              ("backend", JStr backend)]) = true.
Proof. unfold is_event. now rewrite loads_dumps. Qed.

Lemma bridge_porcupine_shutdown_run {A} (k : nat) :
  @Bridge.porcupine_shutdown w A k =
  Run [StreamClose; PaTerminate; PorcupineDelete;
       Stdout (dumps w [("ts", JStr (isoformat (utc (clock w k))));
                        ("type", JStr "listener_stopped");
                        ("backend", JStr "porcupine")]) true]
      (S k) (Stop (SysExit 0)).
Proof.
  destruct releases as (H1 & H2 & H3). unfold Bridge.porcupine_shutdown.
  rewrite (bind_run _ _ k k [StreamClose] tt) by now apply release_run.
  rewrite (bind_run _ _ k k [PaTerminate] tt) by now apply release_run.
  rewrite (bind_run _ _ k k [PorcupineDelete] tt) by now apply release_run.
  reflexivity.
Qed.

Lemma bridge_oww_shutdown_run {A} (k : nat) :
  @Bridge.oww_shutdown w A k =
  Run [StreamClose; PaTerminate;
       Stdout (dumps w [("ts", JStr (isoformat (utc (clock w k))));
                        ("type", JStr "listener_stopped");
                        ("backend", JStr "oww")]) true]
      (S k) (Stop (SysExit 0)).
Proof.
  destruct releases as (H1 & H2 & H3). unfold Bridge.oww_shutdown.
  rewrite (bind_run _ _ k k [StreamClose] tt) by now apply release_run.
  rewrite (bind_run _ _ k k [PaTerminate] tt) by now apply release_run.
  reflexivity.
Qed.

Lemma oww_shutdown_run {A} (k : nat) :
  @OwwListener.shutdown w A k =
  Run [Say ShuttingDown; StreamClose; PaTerminate] k (Stop (SysExit 0)).
Proof.
  destruct releases as (H1 & H2 & H3). unfold OwwListener.shutdown.
  performs (Say ShuttingDown).
  rewrite (bind_run _ _ k k [StreamClose] tt) by now apply release_run.
  rewrite (bind_run _ _ k k [PaTerminate] tt) by now apply release_run.
  reflexivity.
Qed.

Lemma porcupine_shutdown_run {A} (k : nat) :
  @PorcupineListener.shutdown w A k =
  Run [Say ShuttingDown; StreamClose; PaTerminate; PorcupineDelete] k
      (Stop (SysExit 0)).
Proof.
  destruct releases as (H1 & H2 & H3). unfold PorcupineListener.shutdown.
  performs (Say ShuttingDown).
  rewrite (bind_run _ _ k k [StreamClose] tt) by now apply release_run.
  rewrite (bind_run _ _ k k [PaTerminate] tt) by now apply release_run.
  rewrite (bind_run _ _ k k [PorcupineDelete] tt) by now apply release_run.
  reflexivity.
Qed.

(** A log of reports followed by the calls of a shutdown. *)
Lemma clean_stop_after {A} (q : call -> bool) (before after : list call)
    (k : nat) (engine : nat) :
  (forall c, q c = true -> is_release c = false) ->
  forallb q before = true ->
  count is_stream_close after = 1 ->
  count is_pa_terminate after = 1 ->
  count is_porcupine_delete after = engine ->
  existsb is_stopped after = true ->
  clean_stop (Run (A := A) (before ++ after) k (Stop (SysExit 0))) engine.
Proof.
  intros Hq Hb H1 H2 H3 H4. unfold clean_stop. cbn [calls result].
  assert (Hno : forall p, (forall c, is_release c = false -> p c = false) ->
                          count p before = 0).
  { intros p Hp. apply (count_none p q); [| exact Hb].
    intros c Hc. apply Hp. now apply Hq. }
  rewrite !count_app, H1, H2, H3, existsb_app, H4, orb_true_r.
  rewrite !Hno.
  - repeat split. exists (SysExit 0). split; reflexivity.
  - intros c. unfold is_release. now destruct (is_porcupine_delete c); rewrite ?orb_true_r.
  - intros c. unfold is_release.
    now destruct (is_pa_terminate c); rewrite ?orb_true_r.
  - intros c. unfold is_release. now destruct (is_stream_close c).
Qed.

End Shutdown.

(** *** From the start of the listener to its stop *)

Lemma forallb_weaken (p q : call -> bool) (l : list call) :
  (forall c, p c = true -> q c = true) -> forallb p l = true -> forallb q l = true.
Proof.
  intros H. induction l as [| c l IH]; [reflexivity |]. cbn [forallb].
  intros Hl. apply andb_true_iff in Hl. destruct Hl as [Hc Hl].
  now rewrite (H c Hc), IH.
Qed.

Lemma stdout_not_release (l : list call) :
  forallb is_stdout l = true -> forallb not_release l = true.
Proof. apply forallb_weaken. now intros []. Qed.

Lemma say_not_release (l : list call) :
  forallb is_say l = true -> forallb not_release l = true.
Proof. apply forallb_weaken. now intros []. Qed.

Section Started.
Variable w : world.
Hypothesis releases : releases_succeed w.

Lemma bridge_run_porcupine_started (model access_key : string) (sensitivity : Q)
    (p : porcupine) (arrivals : list (stimulus Z)) (k : nat) :
  porcupine_create w access_key model sensitivity = Some p ->
  pa_open w (sample_rate p) (frame_length p) = true ->
  exists text,
    Bridge.run_porcupine w model access_key sensitivity arrivals k =
    Run ([PorcupineCreate access_key model sensitivity; PyAudio;
          PaOpen (sample_rate p) (frame_length p); Stdout text true]
         ++ calls (Bridge.porcupine_loop w arrivals (S k)))
        (reads (Bridge.porcupine_loop w arrivals (S k)))
        (result (Bridge.porcupine_loop w arrivals (S k))).
Proof.
  intros Hcreate Hopen. eexists. unfold Bridge.run_porcupine.
  performs (PorcupineCreate access_key model sensitivity).
  rewrite Hcreate.
  performs PyAudio.
  performs (PaOpen (sample_rate p) (frame_length p)).
  rewrite Hopen.
  passes.
  erewrite (bind_run _ _ k (S k)) by reflexivity.
  reflexivity.
Qed.

Lemma bridge_run_oww_started (model : string) (threshold : Q)
    (arrivals : list (stimulus (list (string * Q)))) (k : nat) :
  oww_model w model = true ->
  pa_open w 16000 Bridge.CHUNK = true ->
  exists text,
    Bridge.run_oww w model threshold arrivals k =
    Run ([OwwModel model; PyAudio; PaOpen 16000 Bridge.CHUNK; Stdout text true]
         ++ calls (Bridge.oww_loop w threshold arrivals (S k)))
        (reads (Bridge.oww_loop w threshold arrivals (S k)))
        (result (Bridge.oww_loop w threshold arrivals (S k))).
Proof.
  intros Hmodel Hopen. eexists. unfold Bridge.run_oww.
  performs (OwwModel model).
  rewrite Hmodel.
  passes.
  performs PyAudio.
  performs (PaOpen 16000 Bridge.CHUNK).
  rewrite Hopen.
  passes.
  erewrite (bind_run _ _ k (S k)) by reflexivity.
  reflexivity.
Qed.

Lemma oww_listen_started (model : string) (threshold : Q)
    (arrivals : list (stimulus (list (string * Q)))) (k : nat) :
  oww_model w model = true ->
  pa_open w OwwListener.RATE OwwListener.CHUNK = true ->
  OwwListener.listen w model threshold arrivals k =
  Run ([Say (LoadingOww model); Say (ShowThreshold threshold); OwwModel model;
        PyAudio; PaOpen OwwListener.RATE OwwListener.CHUNK; Say BannerOww;
        Say (ShowModel (splitext_root (basename model)));
        Say (ShowAudio OwwListener.RATE OwwListener.CHUNK); Say PressCtrlC]
       ++ calls (OwwListener.loop w threshold (unix (clock w k)) arrivals 0 (S k)))
      (reads (OwwListener.loop w threshold (unix (clock w k)) arrivals 0 (S k)))
      (result (OwwListener.loop w threshold (unix (clock w k)) arrivals 0 (S k))).
Proof.
  intros Hmodel Hopen. unfold OwwListener.listen.
  performs (Say (LoadingOww model)).
  performs (Say (ShowThreshold threshold)).
  performs (OwwModel model).
  rewrite Hmodel.
  passes.
  performs PyAudio.
  performs (PaOpen OwwListener.RATE OwwListener.CHUNK).
  rewrite Hopen.
  passes.
  cbv zeta.
  performs (Say BannerOww).
  performs (Say (ShowModel (splitext_root (basename model)))).
  performs (Say (ShowAudio OwwListener.RATE OwwListener.CHUNK)).
  performs (Say PressCtrlC).
  rewrite (bind_run _ _ k (S k) [] (clock w k)) by reflexivity.
  reflexivity.
Qed.

Lemma porcupine_listen_started (model access_key : string) (sensitivity : Q)
    (p : porcupine) (arrivals : list (stimulus Z)) (k : nat) :
  porcupine_create w access_key model sensitivity = Some p ->
  pa_open w (sample_rate p) (frame_length p) = true ->
  PorcupineListener.listen w model access_key sensitivity arrivals k =
  Run ([Say (LoadingPorcupine model); Say (ShowSensitivity sensitivity);
        PorcupineCreate access_key model sensitivity; PyAudio;
        PaOpen (sample_rate p) (frame_length p); Say BannerPorcupine;
        Say (ShowSampleRate (sample_rate p)); Say (ShowFrameLength (frame_length p));
        Say PressCtrlC]
       ++ calls (PorcupineListener.loop w (unix (clock w k)) arrivals 0 (S k)))
      (reads (PorcupineListener.loop w (unix (clock w k)) arrivals 0 (S k)))
      (result (PorcupineListener.loop w (unix (clock w k)) arrivals 0 (S k))).
Proof.
  intros Hcreate Hopen. unfold PorcupineListener.listen.
  performs (Say (LoadingPorcupine model)).
  performs (Say (ShowSensitivity sensitivity)).
  performs (PorcupineCreate access_key model sensitivity).
  rewrite Hcreate.
  performs PyAudio.
  performs (PaOpen (sample_rate p) (frame_length p)).
  rewrite Hopen.
  passes.
  performs (Say BannerPorcupine).
  performs (Say (ShowSampleRate (sample_rate p))).
  performs (Say (ShowFrameLength (frame_length p))).
  performs (Say PressCtrlC).
  rewrite (bind_run _ _ k (S k) [] (clock w k)) by reflexivity.
  reflexivity.
Qed.

(** The loops, from their first frame to the signal. *)
Lemma bridge_oww_loop_stop (threshold : Q) (frames : list (list (string * Q)))
    (later : list (stimulus (list (string * Q)))) (k : nat) :
  exists l after k',
    Bridge.oww_loop w threshold (map Frame frames ++ Signal :: later) k =
      Run (l ++ after) k' (Stop (SysExit 0)) /\
    forallb not_release l = true /\
    count is_stream_close after = 1 /\ count is_pa_terminate after = 1 /\
    count is_porcupine_delete after = 0 /\ existsb is_stopped after = true.
Proof.
  rewrite bridge_oww_loop_app.
  destruct (bridge_oww_frames w threshold frames k) as [Hr Hc].
  destruct (Bridge.oww_loop w threshold (map Frame frames) k) as [l k' r] eqn:E.
  cbn [calls result] in Hr, Hc. subst r.
  rewrite (bind_run _ _ k k' l tt) by exact E.
  cbn [Bridge.oww_loop]. rewrite (bridge_oww_shutdown_run w releases).
  cbn [calls reads result].
  eexists. eexists. eexists. split; [reflexivity |].
  split; [now apply stdout_not_release |].
  repeat split. cbn [existsb is_stopped]. now rewrite stopped_is_event.
Qed.

Lemma bridge_porcupine_loop_stop (frames : list Z) (later : list (stimulus Z))
    (k : nat) :
  exists l after k',
    Bridge.porcupine_loop w (map Frame frames ++ Signal :: later) k =
      Run (l ++ after) k' (Stop (SysExit 0)) /\
    forallb not_release l = true /\
    count is_stream_close after = 1 /\ count is_pa_terminate after = 1 /\
    count is_porcupine_delete after = 1 /\ existsb is_stopped after = true.
Proof.
  rewrite bridge_porcupine_loop_app.
  destruct (bridge_porcupine_frames w frames k) as [Hr Hc].
  destruct (Bridge.porcupine_loop w (map Frame frames) k) as [l k' r] eqn:E.
  cbn [calls result] in Hr, Hc. subst r.
  rewrite (bind_run _ _ k k' l tt) by exact E.
  cbn [Bridge.porcupine_loop]. rewrite (bridge_porcupine_shutdown_run w releases).
  cbn [calls reads result].
  eexists. eexists. eexists. split; [reflexivity |].
  split; [now apply stdout_not_release |].
  repeat split. cbn [existsb is_stopped]. now rewrite stopped_is_event.
Qed.

Lemma oww_loop_stop (threshold start_time : Q) (frames : list (list (string * Q)))
    (later : list (stimulus (list (string * Q)))) (n k : nat) :
  exists l after k',
    OwwListener.loop w threshold start_time (map Frame frames ++ Signal :: later) n k =
      Run (l ++ after) k' (Stop (SysExit 0)) /\
    forallb not_release l = true /\
    count is_stream_close after = 1 /\ count is_pa_terminate after = 1 /\
    count is_porcupine_delete after = 0 /\ existsb is_stopped after = true.
Proof.
  rewrite oww_loop_app.
  pose proof (oww_loop_counts w threshold start_time frames n k) as Hr.
  pose proof (oww_frames_say w threshold start_time frames n k) as Hc.
  destruct (OwwListener.loop w threshold start_time (map Frame frames) n k)
    as [l k' r] eqn:E.
  cbn [calls result] in Hr, Hc. subst r.
  rewrite (bind_run _ _ k k' l (n + detections l)) by exact E.
  cbn [OwwListener.loop]. rewrite (oww_shutdown_run w releases).
  cbn [calls reads result].
  eexists. eexists. eexists. split; [reflexivity |].
  split; [now apply say_not_release |]. repeat split.
Qed.

Lemma porcupine_loop_stop (start_time : Q) (frames : list Z)
    (later : list (stimulus Z)) (n k : nat) :
  exists l after k',
    PorcupineListener.loop w start_time (map Frame frames ++ Signal :: later) n k =
      Run (l ++ after) k' (Stop (SysExit 0)) /\
    forallb not_release l = true /\
    count is_stream_close after = 1 /\ count is_pa_terminate after = 1 /\
    count is_porcupine_delete after = 1 /\ existsb is_stopped after = true.
Proof.
  rewrite porcupine_loop_app.
  pose proof (porcupine_loop_counts w start_time frames n k) as Hr.
  pose proof (porcupine_frames_say w start_time frames n k) as Hc.
  destruct (PorcupineListener.loop w start_time (map Frame frames) n k)
    as [l k' r] eqn:E.
  cbn [calls result] in Hr, Hc. subst r.
  rewrite (bind_run _ _ k k' l (n + detections l)) by exact E.
  cbn [PorcupineListener.loop]. rewrite (porcupine_shutdown_run w releases).
  cbn [calls reads result].
  eexists. eexists. eexists. split; [reflexivity |].
  split; [now apply say_not_release |]. repeat split.
Qed.

End Started.

(** A start, frames and a shutdown make a clean stop. *)
Lemma clean_stop_of_parts {A} (startup l after : list call) (k : nat) (engine : nat) :
  forallb not_release startup = true ->
  forallb not_release l = true ->
  count is_stream_close after = 1 ->
  count is_pa_terminate after = 1 ->
  count is_porcupine_delete after = engine ->
  existsb is_stopped after = true ->
  clean_stop (Run (A := A) (startup ++ l ++ after) k (Stop (SysExit 0))) engine.
Proof.
  intros Hs Hl H1 H2 H3 H4. rewrite app_assoc.
  apply (clean_stop_after not_release); try assumption.
  - intros c Hc. unfold not_release in Hc. now apply negb_true_iff in Hc.
  - now rewrite forallb_app, Hs, Hl.
Qed.




(** ** Startup *)

Section Startup.
Variable w : world.

(** What [parse_args] of the bridge returns, when it returns. *)
Lemma bridge_parse_args_val (f : Bridge.flags) (k : nat) (a : Bridge.args) :
  result (Bridge.parse_args w f k) = Val a ->
  Bridge.parse_args w f k = Run [] k (Val a) /\
  Bridge.backend a =
    first_of (Bridge.flag_backend f) (environ w "WAKE_WORD_BACKEND") "porcupine" /\
  Some (Bridge.threshold a) =
    float_of_str w
      (first_of (Bridge.flag_threshold f) (environ w "WAKE_WORD_THRESHOLD") "0.5") /\
  Bridge.model a =
    match Bridge.flag_model f with
    | Some m => Some m
    | None => environ w "WAKE_WORD_MODEL"
    end /\
  Bridge.access_key a =
    match Bridge.flag_access_key f with
    | Some key => Some key
    | None => environ w "PORCUPINE_ACCESS_KEY"
    end.
Proof.
  unfold Bridge.parse_args, first_of.
  destruct f as [fb fm ft fk]. cbn [Bridge.flag_backend Bridge.flag_model
    Bridge.flag_threshold Bridge.flag_access_key].
  destruct (environ w "WAKE_WORD_THRESHOLD") as [et |];
    [destruct (float_of_str w et) as [x |] eqn:Ee
    | destruct (float_of_str w "0.5") as [x |] eqn:Ee];
    try (intros H; discriminate H);
    (destruct fb as [b |];
     [destruct (String.eqb b "porcupine" || String.eqb b "oww")%bool |];
     try (intros H; discriminate H);
     (destruct ft as [t |];
      [destruct (float_of_str w t) as [y |] eqn:Et |];
      try (intros H; discriminate H);
      intros H; cbn in H; injection H as <-; cbn;
      repeat split; congruence)).
Qed.

Lemma bridge_main_run (f : Bridge.flags) (ka : list (stimulus Z))
    (sa : list (stimulus (list (string * Q)))) (k : nat) (a : Bridge.args) :
  result (Bridge.parse_args w f k) = Val a ->
  Bridge.main w f ka sa k =
  (if String.eqb (Bridge.backend a) "porcupine" then
     if falsy (Bridge.access_key a) then
       perform (Stdout Bridge.error_line true) ;;; sys_exit 1
     else Bridge.run_porcupine w (Bridge.model_path w a)
            (text (Bridge.access_key a)) (Bridge.threshold a) ka
   else Bridge.run_oww w (Bridge.model_path w a) (Bridge.threshold a) sa) k.
Proof.
  intros H. apply bridge_parse_args_val in H. destruct H as [H _].
  unfold Bridge.main. rewrite (bind_run _ _ k k [] a) by exact H.
  cbn [app]. apply run_eta.
Qed.

Lemma porcupine_parse_args_val (f : PorcupineListener.flags) (k : nat)
    (a : PorcupineListener.args) :
  result (PorcupineListener.parse_args w f k) = Val a ->
  PorcupineListener.parse_args w f k = Run [] k (Val a) /\
  PorcupineListener.access_key a =
    match PorcupineListener.flag_access_key f with
    | Some key => Some key
    | None => environ w "PORCUPINE_ACCESS_KEY"
    end.
Proof.
  unfold PorcupineListener.parse_args.
  destruct (PorcupineListener.flag_sensitivity f) as [s |];
    [destruct (float_of_str w s) |];
    intros H; try discriminate H; cbn in H; injection H as <-; split; reflexivity.
Qed.

Lemma porcupine_main_run (f : PorcupineListener.flags) (arrivals : list (stimulus Z))
    (k : nat) (a : PorcupineListener.args) :
  result (PorcupineListener.parse_args w f k) = Val a ->
  PorcupineListener.main w f arrivals k =
  (if falsy (PorcupineListener.access_key a) then
     perform (Say ErrNoAccessKey) ;;; perform (Say HintGetKey) ;;; sys_exit 1
   else if negb (path_exists w (PorcupineListener.model a)) then
     perform (Say (ErrModelNotFound (PorcupineListener.model a))) ;;;
     perform (Say HintTrain) ;;; sys_exit 1
   else PorcupineListener.listen w (PorcupineListener.model a)
          (text (PorcupineListener.access_key a))
          (PorcupineListener.sensitivity a) arrivals) k.
Proof.
  intros H. apply porcupine_parse_args_val in H. destruct H as [H _].
  unfold PorcupineListener.main. rewrite (bind_run _ _ k k [] a) by exact H.
  cbn [app]. apply run_eta.
Qed.

Lemma oww_parse_args_val (f : OwwListener.flags) (k : nat) (a : string * Q) :
  result (OwwListener.parse_args w f k) = Val a ->
  OwwListener.parse_args w f k = Run [] k (Val a).
Proof.
  unfold OwwListener.parse_args.
  destruct (OwwListener.flag_threshold f) as [s |];
    [destruct (float_of_str w s) |];
    intros H; try discriminate H; cbn in H; injection H as <-; reflexivity.
Qed.

Lemma oww_main_run (f : OwwListener.flags)
    (arrivals : list (stimulus (list (string * Q)))) (k : nat)
    (model : string) (threshold : Q) :
  result (OwwListener.parse_args w f k) = Val (model, threshold) ->
  OwwListener.main w f arrivals k =
  (if negb (path_exists w model) then
     perform (Say (ErrModelNotFound model)) ;;;
     perform (Say HintOptions) ;;;
     perform (Say HintOptionA) ;;;
     perform (Say HintOptionB) ;;;
     perform (Say HintOptionC) ;;;
     sys_exit 1
   else OwwListener.listen w model threshold arrivals) k.
Proof.
  intros H. apply oww_parse_args_val in H.
  unfold OwwListener.main. rewrite (bind_run _ _ k k [] (model, threshold)) by exact H.
  cbn [app]. apply run_eta.
Qed.

End Startup.

(** C7.  With the Porcupine backend and no access key, neither on the
    command line nor in [PORCUPINE_ACCESS_KEY], the process exits with
    status 1 and all it has done is to print the error: no engine is
    created and no audio device is opened.  This holds for the bridge and
    for the standalone Porcupine listener. *)
Theorem C7_no_access_key_exits_before_opening :
  forall (w : world) (k : nat),
    environ w "PORCUPINE_ACCESS_KEY" = None ->
    (forall f ka sa a,
        Bridge.flag_access_key f = None ->
        result (Bridge.parse_args w f k) = Val a ->
        Bridge.backend a = "porcupine" ->
        Bridge.main w f ka sa k =
          Run [Stdout Bridge.error_line true] k (Stop (SysExit 1)) /\
        existsb is_acquire (calls (Bridge.main w f ka sa k)) = false) /\
    (forall f arrivals a,
        PorcupineListener.flag_access_key f = None ->
        result (PorcupineListener.parse_args w f k) = Val a ->
        PorcupineListener.main w f arrivals k =
          Run [Say ErrNoAccessKey; Say HintGetKey] k (Stop (SysExit 1)) /\
        existsb is_acquire (calls (PorcupineListener.main w f arrivals k)) = false).
Proof.
  intros w k Henv. split.
  - intros f ka sa a Hflag Hparse Hbackend.
    rewrite (bridge_main_run w f ka sa k a Hparse).
    apply bridge_parse_args_val in Hparse.
    destruct Hparse as (_ & _ & _ & _ & Hkey).
    rewrite Hflag, Henv in Hkey. rewrite Hbackend, Hkey.
    split; reflexivity.
  - intros f arrivals a Hflag Hparse.
    rewrite (porcupine_main_run w f arrivals k a Hparse).
    apply porcupine_parse_args_val in Hparse. destruct Hparse as (_ & Hkey).
    rewrite Hflag, Henv in Hkey. rewrite Hkey.
    split; reflexivity.
Qed.

Lemma C7_witness :
  (Bridge.main Sample.plain no_flags [] [] 0 =
     Run [Stdout Bridge.error_line true] 0 (Stop (SysExit 1)) /\
   existsb is_acquire (calls (Bridge.main Sample.plain no_flags [] [] 0)) = false) /\
  (PorcupineListener.main Sample.plain
     {| PorcupineListener.flag_model := None;
        PorcupineListener.flag_sensitivity := None;
        PorcupineListener.flag_access_key := None |} [] 0 =
     Run [Say ErrNoAccessKey; Say HintGetKey] 0 (Stop (SysExit 1)) /\
   existsb is_acquire
     (calls (PorcupineListener.main Sample.plain
               {| PorcupineListener.flag_model := None;
                  PorcupineListener.flag_sensitivity := None;
                  PorcupineListener.flag_access_key := None |} [] 0)) = false).
Proof.
  destruct (C7_no_access_key_exits_before_opening Sample.plain 0 eq_refl)
    as [Hb Hp].
  split.
  - eapply Hb; reflexivity.
  - eapply Hp; reflexivity.
Defined.

(** C2.  When the model file of the configuration does not exist, the
    process exits with status 1 and does not report that it started: the
    standalone listeners check the path themselves and print no banner; the
    bridge leaves the check to the engine, whose constructor fails on a
    missing model file, and writes no [listener_started] event. *)
Theorem C2_missing_model_exits_1_unstarted :
  forall (w : world) (k : nat),
    (forall f arrivals model threshold,
        result (OwwListener.parse_args w f k) = Val (model, threshold) ->
        path_exists w model = false ->
        let r := OwwListener.main w f arrivals k in
        result r = Stop (SysExit 1) /\
        existsb is_started (calls r) = false /\
        existsb is_acquire (calls r) = false) /\
    (forall f arrivals a,
        result (PorcupineListener.parse_args w f k) = Val a ->
        path_exists w (PorcupineListener.model a) = false ->
        let r := PorcupineListener.main w f arrivals k in
        result r = Stop (SysExit 1) /\
        existsb is_started (calls r) = false /\
        existsb is_acquire (calls r) = false) /\
    (forall f ka sa a,
        engine_needs_model w ->
        result (Bridge.parse_args w f k) = Val a ->
        path_exists w (Bridge.model_path w a) = false ->
        let r := Bridge.main w f ka sa k in
        (exists h, result r = Stop h /\ exit_status h = 1%Z) /\
        existsb is_started (calls r) = false).
Proof.
  intros w k. split; [| split].
  - intros f arrivals model threshold Hparse Hmissing. cbv zeta.
    rewrite (oww_main_run w f arrivals k model threshold Hparse), Hmissing.
    repeat split.
  - intros f arrivals a Hparse Hmissing. cbv zeta.
    rewrite (porcupine_main_run w f arrivals k a Hparse), Hmissing.
    destruct (falsy (PorcupineListener.access_key a)); repeat split.
  - intros f ka sa a Hengine Hparse Hmissing. cbv zeta.
    rewrite (bridge_main_run w f ka sa k a Hparse).
    destruct (Hengine _ Hmissing) as [Howw Hporcupine].
    destruct (String.eqb (Bridge.backend a) "porcupine").
    + destruct (falsy (Bridge.access_key a)).
      * split; [exists (SysExit 1); split; reflexivity |].
        vm_compute. reflexivity.
      * unfold Bridge.run_porcupine.
        rewrite (bind_run _ _ k k
                   [PorcupineCreate (text (Bridge.access_key a))
                      (Bridge.model_path w a) (Bridge.threshold a)] tt)
          by reflexivity.
        rewrite Hporcupine. cbn [raise calls result reads app existsb is_started orb].
        split; [exists (Uncaught EngineError); split; reflexivity | reflexivity].
    + unfold Bridge.run_oww.
      rewrite (bind_run _ _ k k [OwwModel (Bridge.model_path w a)] tt) by reflexivity.
      rewrite Howw.
      rewrite (bind_stop _ _ k k [] (Uncaught EngineError)) by reflexivity.
      cbn [calls result reads app existsb is_started orb].
      split; [exists (Uncaught EngineError); split; reflexivity | reflexivity].
Qed.

Lemma sample_engine_needs_model (env : string -> option string)
    (bad : call -> bool) (step : Q) :
  engine_needs_model (Sample.world_of env bad step).
Proof.
  intros model H. cbn in *. split; [exact H |].
  intros access_key sensitivity. now rewrite H.
Qed.

Lemma C2_witness :
  (result (OwwListener.main Sample.keyed oww_nowhere [] 0) = Stop (SysExit 1) /\
   existsb is_started (calls (OwwListener.main Sample.keyed oww_nowhere [] 0)) = false /\
   existsb is_acquire (calls (OwwListener.main Sample.keyed oww_nowhere [] 0)) = false) /\
  (result (PorcupineListener.main Sample.keyed porcupine_nowhere [] 0)
     = Stop (SysExit 1) /\
   existsb is_started
     (calls (PorcupineListener.main Sample.keyed porcupine_nowhere [] 0)) = false /\
   existsb is_acquire
     (calls (PorcupineListener.main Sample.keyed porcupine_nowhere [] 0)) = false) /\
  ((exists h, result (Bridge.main Sample.keyed bridge_nowhere [] [] 0) = Stop h /\
              exit_status h = 1%Z) /\
   existsb is_started (calls (Bridge.main Sample.keyed bridge_nowhere [] [] 0)) = false).
Proof.
  destruct (C2_missing_model_exits_1_unstarted Sample.keyed 0) as (Ho & Hp & Hb).
  split; [| split].
  - apply (Ho oww_nowhere [] "/nowhere/claudette.tflite" (1 # 2)%Q); reflexivity.
  - eapply (Hp porcupine_nowhere []); reflexivity.
  - eapply (Hb bridge_nowhere [] []);
      [apply sample_engine_needs_model | reflexivity | reflexivity].
Defined.

(** ** Defaults and overrides of the bridge *)

(** C9 as stated fails: with a [WAKE_WORD_THRESHOLD] that is no float, an
    explicit [--threshold 0.7] does not override the environment; the
    parser is never built and the process ends on a [ValueError]. *)
Lemma C9_junk_threshold_in_environment :
  ~ exists a,
      result (Bridge.parse_args Sample.junk bridge_threshold_flag 0) = Val a /\
      (Bridge.threshold a == 7 # 10)%Q.
Proof. intros (a & H & _). vm_compute in H. discriminate H. Qed.

(** C9, amended.  In the bridge, for every command line argparse accepts
    and every environment in which [WAKE_WORD_THRESHOLD], if set, reads as
    a float: the backend is [--backend], else [WAKE_WORD_BACKEND], else
    "porcupine"; the threshold is [--threshold], else
    [WAKE_WORD_THRESHOLD], else 0.5; the model is [--model], else
    [WAKE_WORD_MODEL], and when that is not given or empty the default path
    of the backend.  A flag that is given always wins over the
    environment. *)
Theorem C9_bridge_defaults_and_overrides :
  forall (w : world) (f : Bridge.flags) (k : nat),
    float_of_str w "0.5" = Some (1 # 2)%Q ->
    (forall s, environ w "WAKE_WORD_THRESHOLD" = Some s -> float_of_str w s <> None) ->
    (forall b, Bridge.flag_backend f = Some b -> b = "porcupine" \/ b = "oww") ->
    (forall s, Bridge.flag_threshold f = Some s -> float_of_str w s <> None) ->
    exists a,
      Bridge.parse_args w f k = Run [] k (Val a) /\
      Bridge.backend a =
        first_of (Bridge.flag_backend f) (environ w "WAKE_WORD_BACKEND") "porcupine" /\
      Some (Bridge.threshold a) =
        float_of_str w
          (first_of (Bridge.flag_threshold f) (environ w "WAKE_WORD_THRESHOLD") "0.5") /\
      (Bridge.flag_threshold f = None -> environ w "WAKE_WORD_THRESHOLD" = None ->
       Bridge.threshold a = (1 # 2)%Q) /\
      Bridge.model_path w a =
        or_default
          (match Bridge.flag_model f with
           | Some m => Some m
           | None => environ w "WAKE_WORD_MODEL"
           end)
          (default_model w (Bridge.backend a)).
Proof.
  intros w f k Hhalf Henv Hbackend Hthreshold.
  assert (Hval : exists a, result (Bridge.parse_args w f k) = Val a).
  { unfold Bridge.parse_args.
    destruct f as [fb fm ft fk].
    cbn [Bridge.flag_backend Bridge.flag_threshold] in *.
    assert (Hd : exists x,
               float_of_str w
                 match environ w "WAKE_WORD_THRESHOLD" with
                 | Some s => s
                 | None => "0.5"
                 end = Some x).
    { destruct (environ w "WAKE_WORD_THRESHOLD") as [s |].
      - specialize (Henv s eq_refl). destruct (float_of_str w s); [eauto | congruence].
      - eauto. }
    destruct Hd as [x Hx]. rewrite Hx.
    assert (Hb : match fb with
                 | Some b => (String.eqb b "porcupine" || String.eqb b "oww")%bool = true
                 | None => True
                 end).
    { destruct fb as [b |]; [| exact I].
      destruct (Hbackend b eq_refl) as [-> | ->]; reflexivity. }
    destruct fb as [b |]; [rewrite (bind_run _ _ k k [] x) by reflexivity;
                           cbn [app]; rewrite Hb |];
      (destruct ft as [t |];
       [specialize (Hthreshold t eq_refl);
        destruct (float_of_str w t) as [y |] eqn:Et; [| congruence] |]);
      cbn; rewrite ?Et; cbn; eauto. }
  destruct Hval as [a Ha]. exists a.
  destruct (bridge_parse_args_val w f k a Ha) as (Hrun & Hb & Ht & Hm & _).
  split; [exact Hrun |]. split; [exact Hb |]. split; [exact Ht |]. split.
  - intros Hf He. rewrite Hf, He in Ht. cbn [first_of] in Ht.
    rewrite Hhalf in Ht. now injection Ht.
  - unfold Bridge.model_path, or_default, default_model. rewrite Hm.
    destruct (match Bridge.flag_model f with
              | Some m => Some m
              | None => environ w "WAKE_WORD_MODEL"
              end) as [[| c s] |]; cbn [falsy text];
      try reflexivity;
      now destruct (String.eqb (Bridge.backend a) "porcupine").
Qed.

Lemma C9_witness :
  exists a,
    Bridge.parse_args Sample.keyed bridge_threshold_flag 0 = Run [] 0 (Val a) /\
    Bridge.backend a =
      first_of (Bridge.flag_backend bridge_threshold_flag)
        (environ Sample.keyed "WAKE_WORD_BACKEND") "porcupine" /\
    Some (Bridge.threshold a) =
      float_of_str Sample.keyed
        (first_of (Bridge.flag_threshold bridge_threshold_flag)
           (environ Sample.keyed "WAKE_WORD_THRESHOLD") "0.5") /\
    (Bridge.flag_threshold bridge_threshold_flag = None ->
     environ Sample.keyed "WAKE_WORD_THRESHOLD" = None ->
     Bridge.threshold a = (1 # 2)%Q) /\
    Bridge.model_path Sample.keyed a =
      or_default
        (match Bridge.flag_model bridge_threshold_flag with
         | Some m => Some m
         | None => environ Sample.keyed "WAKE_WORD_MODEL"
         end)
        (default_model Sample.keyed (Bridge.backend a)).
Proof.
  apply (C9_bridge_defaults_and_overrides Sample.keyed bridge_threshold_flag 0).
  - reflexivity.
  - intros s H. discriminate H.
  - intros b H. discriminate H.
  - intros s H. injection H as <-. discriminate.
Defined.

(** ** Runs in the sample world *)

(** A score of 0.42 under a threshold of 0.5: nothing is written. *)
Example bridge_score_below_threshold :
  calls (Bridge.oww_iteration Sample.plain (1 # 2) [("claudette", (21 # 50)%Q)] 0) = [].
Proof. reflexivity. Qed.

(** The same score with a threshold of 0.4: one detection is written. *)
Example bridge_score_above_threshold :
  detections
    (calls (Bridge.oww_iteration Sample.plain (2 # 5) [("claudette", (21 # 50)%Q)] 0))
  = 1.
Proof. vm_compute. reflexivity. Qed.

(** A score equal to the threshold is a detection. *)
Example bridge_score_on_threshold :
  detections
    (calls (Bridge.oww_iteration Sample.plain (1 # 2) [("claudette", (1 # 2)%Q)] 0))
  = 1.
Proof. vm_compute. reflexivity. Qed.

(** The Porcupine engine matches on the second of three frames: one
    detection. *)
Example bridge_keyword_on_one_frame :
  detections
    (calls (Bridge.porcupine_loop Sample.plain [Frame (-1)%Z; Frame 0%Z; Frame (-1)%Z] 0))
  = 1.
Proof. vm_compute. reflexivity. Qed.

(** The standalone listener, one detection and then a signal: the counter
    is printed in the stats line a minute after the start. *)
Example standalone_run :
  OwwListener.listen Sample.plain Sample.tflite (1 # 2)
    [Frame [("claudette", (7 # 10)%Q)]; Signal] 0 =
  Run [Say (LoadingOww Sample.tflite); Say (ShowThreshold (1 # 2));
       OwwModel Sample.tflite; PyAudio; PaOpen 16000 1620; Say BannerOww;
       Say (ShowModel "claudette"); Say (ShowAudio 16000 1620); Say PressCtrlC;
       Say (DetectedScore (local (Sample.tick 30 1)) "claudette" (7 # 10));
       Say TodoStt; Say TodoRecord; Say TodoIntent;
       stats_line 1 60;
       Say ShuttingDown; StreamClose; PaTerminate]
      3 (Stop (SysExit 0)).
Proof. vm_compute. reflexivity. Qed.

(** The bridge with a comma for a threshold on the command line: argparse
    gives up, exit status 2. *)
Example bridge_bad_threshold_flag :
  Bridge.main Sample.keyed
    {| Bridge.flag_backend := None; Bridge.flag_model := None;
       Bridge.flag_threshold := Some "0,5"; Bridge.flag_access_key := None |}
    [] [] 0 = Run [] 0 (Stop (SysExit 2)).
Proof. reflexivity. Qed.

(** With junk in [WAKE_WORD_THRESHOLD] the bridge ends on a [ValueError],
    whatever the command line. *)
Example bridge_junk_environment :
  Bridge.main Sample.junk bridge_threshold_flag [] [] 0 =
  Run [] 0 (Stop (Uncaught ValueError)).
Proof. reflexivity. Qed.

(** * Further properties *)

(** ** What every call of a program satisfies *)

Lemma calls_bind {A B} (m : prog A) (f : A -> prog B) (k : nat) :
  calls (bind m f k) =
  calls (m k) ++
  match result (m k) with
  | Val a => calls (f a (reads (m k)))
  | Stop _ => []
  end.
Proof.
  unfold bind. destruct (result (m k)); cbn [calls]; [reflexivity |].
  now rewrite app_nil_r.
Qed.

Section Always.
Context {A B : Type}.
Variable P : call -> bool.

Lemma always_bind (m : prog A) (f : A -> prog B) :
  always P m -> (forall a, always P (f a)) -> always P (bind m f).
Proof.
  intros Hm Hf k. rewrite calls_bind, forallb_app, (Hm k).
  destruct (result (m k)); [apply Hf | reflexivity].
Qed.

Lemma always_ret (a : A) : always P (ret a).
Proof. intros k. reflexivity. Qed.

Lemma always_raise (e : exn) : always P (raise (A := A) e).
Proof. intros k. reflexivity. Qed.

Lemma always_sys_exit (code : Z) : always P (sys_exit (A := A) code).
Proof. intros k. reflexivity. Qed.

End Always.

Lemma always_perform (P : call -> bool) (c : call) :
  P c = true -> always P (perform c).
Proof. intros H k. cbn. now rewrite H. Qed.

Lemma always_now (P : call -> bool) (w : world) : always P (now w).
Proof. intros k. reflexivity. Qed.

Lemma always_release (P : call -> bool) (w : world) (c : call) :
  P c = true -> always P (release w c).
Proof.
  intros H. unfold release. apply always_bind; [now apply always_perform |].
  intros _. destruct (raises w c); [apply always_raise | apply always_ret].
Qed.

Lemma always_for_each {A} (P : call -> bool) (body : A -> prog unit) (xs : list A) :
  (forall x, always P (body x)) -> always P (for_each body xs).
Proof.
  intros H. induction xs as [| x xs IH]; cbn [for_each].
  - apply always_ret.
  - apply always_bind; [apply H | intros _; exact IH].
Qed.

(** One step in the proof that every call of a program satisfies a
    predicate. *)
Ltac always_step :=
  match goal with
  | |- always _ (bind _ _) => apply always_bind; [| intros ?]
  | |- always _ (ret _) => apply always_ret
  | |- always _ (raise _) => apply always_raise
  | |- always _ (sys_exit _) => apply always_sys_exit
  | |- always _ (now _) => apply always_now
  | |- always _ (perform _) => apply always_perform; try reflexivity
  | |- always _ (release _ _) => apply always_release; try reflexivity
  | |- always _ (match ?x with _ => _ end) => destruct x
  end.

(** ** Integers are written as JSON numbers *)

Lemma digits_run (d : uint) : numrun NInt (NilEmpty.string_of_uint d) = true.
Proof. induction d; cbn; auto. Qed.

Lemma positive_is_number (p : positive) :
  is_number (NilZero.string_of_uint (Pos.to_uint p)) = true.
Proof.
  pose proof (DecimalPos.Unsigned.to_of (Pos.to_uint p)) as Hn.
  rewrite DecimalPos.Unsigned.of_to in Hn. cbn [N.to_uint] in Hn.
  pose proof (DecimalPos.Unsigned.to_uint_nonzero p) as Hz.
  pose proof (DecimalPos.Unsigned.to_uint_nonnil p) as Hnil.
  remember (Pos.to_uint p) as d eqn:Ed. clear Ed p.
  assert (Hh : nzhead d = d).
  { unfold unorm in Hn. destruct (nzhead d) eqn:E; try exact (eq_sym Hn).
    congruence. }
  destruct d; try congruence; try (cbn; apply digits_run).
  exfalso. cbn [nzhead] in Hh.
  pose proof (DecimalFacts.nb_digits_nzhead d) as Hlen. rewrite Hh in Hlen.
  cbn [nb_digits] in Hlen. lia.
Qed.

Lemma int_is_number (n : Z) :
  is_number (NilZero.string_of_int (Z.to_int n)) = true.
Proof.
  destruct n as [| p | p]; [reflexivity | apply positive_is_number |].
  cbn [Z.to_int NilZero.string_of_int].
  pose proof (positive_is_number p) as H.
  unfold is_number in *. cbn [numrun numstep].
  change (N_of_ascii "-" =? 45)%N with true. cbv iota.
  pose proof (DecimalPos.Unsigned.to_uint_nonnil p) as Hnil.
  destruct (Pos.to_uint p); try congruence; exact H.
Qed.

Section Numbers.
Variable w : world.
Hypothesis floats : forall x, is_number (float_repr w x) = true.

Lemma every_value_written (v : value) : writes_number w v = true.
Proof. destruct v; cbn; auto using int_is_number. Qed.

Lemma every_dict_written (d : dict) : writes_numbers w d = true.
Proof.
  unfold writes_numbers. apply forallb_forall. intros kv _.
  apply every_value_written.
Qed.

Lemma dumps_json_line (d : dict) : json_line (Stdout (dumps w d) true) = true.
Proof.
  cbn [json_line andb].
  rewrite (single_line_dumps w d (every_dict_written d)).
  now rewrite (loads_dumps w d (every_dict_written d)).
Qed.

Lemma emit_event_lines (event_type : string) (data : dict) :
  always json_line (Bridge.emit_event w event_type data).
Proof.
  unfold Bridge.emit_event. always_step; [always_step |].
  apply always_perform. apply dumps_json_line.
Qed.

End Numbers.

(** ** Standard output of the bridge *)

Lemma emit_event_refused_lines (P : call -> bool) (w : world) :
  always P (Bridge.emit_event_refused w).
Proof. unfold Bridge.emit_event_refused. repeat always_step. Qed.

Section BridgeOutput.
Context {S : Type} {kind : Score S}.
Variable w : world.
Hypothesis floats : forall x, is_number (float_repr w x) = true.

Lemma on_detection_lines (backend word : string) (score : option S) :
  always json_line (Bridge.on_detection w backend word score).
Proof.
  unfold Bridge.on_detection. destruct score as [s |].
  - destruct (json_of s); [apply emit_event_lines, floats |].
    apply emit_event_refused_lines.
  - apply emit_event_lines, floats.
Qed.

Lemma porcupine_shutdown_lines {A} :
  always json_line (Bridge.porcupine_shutdown w (A := A)).
Proof.
  unfold Bridge.porcupine_shutdown.
  repeat (always_step; try (apply emit_event_lines, floats)).
Qed.

Lemma oww_shutdown_lines {A} :
  always json_line (Bridge.oww_shutdown w (A := A)).
Proof.
  unfold Bridge.oww_shutdown.
  repeat (always_step; try (apply emit_event_lines, floats)).
Qed.

Lemma porcupine_loop_lines (arrivals : list (stimulus Z)) :
  always json_line (Bridge.porcupine_loop w arrivals).
Proof.
  induction arrivals as [| [index | e |] rest IH]; cbn [Bridge.porcupine_loop].
  - apply always_ret.
  - apply always_bind; [| intros _; exact IH].
    unfold Bridge.porcupine_iteration.
    destruct (index >=? 0)%Z; [| apply always_ret].
    apply emit_event_lines, floats.
  - apply always_raise.
  - apply porcupine_shutdown_lines.
Qed.

Lemma oww_loop_lines (threshold : Q)
    (arrivals : list (stimulus (list (string * S)))) :
  always json_line (Bridge.oww_loop w threshold arrivals).
Proof.
  induction arrivals as [| [predictions | e |] rest IH]; cbn [Bridge.oww_loop].
  - apply always_ret.
  - apply always_bind; [| intros _; exact IH].
    unfold Bridge.oww_iteration. apply always_for_each. intros [word score].
    destruct (Qle_bool threshold (as_float score));
      [apply on_detection_lines | apply always_ret].
  - apply always_raise.
  - apply oww_shutdown_lines.
Qed.

Lemma run_porcupine_lines (model access_key : string) (sensitivity : Q)
    (arrivals : list (stimulus Z)) :
  always json_line (Bridge.run_porcupine w model access_key sensitivity arrivals).
Proof.
  unfold Bridge.run_porcupine.
  repeat (always_step;
          try (apply emit_event_lines, floats);
          try apply porcupine_loop_lines).
Qed.

Lemma run_oww_lines (model : string) (threshold : Q)
    (arrivals : list (stimulus (list (string * S)))) :
  always json_line (Bridge.run_oww w model threshold arrivals).
Proof.
  unfold Bridge.run_oww.
  repeat (always_step;
          try (apply emit_event_lines, floats);
          try apply oww_loop_lines).
Qed.

Lemma bridge_parse_args_silent (P : call -> bool) (f : Bridge.flags) :
  always P (Bridge.parse_args w f).
Proof. unfold Bridge.parse_args. repeat always_step. Qed.

Lemma bridge_main_lines (f : Bridge.flags) (ka : list (stimulus Z))
    (sa : list (stimulus (list (string * S)))) :
  always json_line (Bridge.main w f ka sa).
Proof.
  unfold Bridge.main. apply always_bind; [apply bridge_parse_args_silent |].
  intros a. destruct (String.eqb (Bridge.backend a) "porcupine").
  - destruct (falsy (Bridge.access_key a)).
    + apply always_bind; [| intros _; apply always_sys_exit].
      apply always_perform. vm_compute. reflexivity.
    + now apply run_porcupine_lines.
  - now apply run_oww_lines.
Qed.

End BridgeOutput.

(** X1.  Everything the bridge puts on standard output is a flushed line
    that reads as a JSON object: the error for a missing access key, the
    lifecycle events and the detections.  This holds for every command line
    of the options the bridge declares ([-h]/[--help], on which argparse
    prints its usage, is not one of them), whatever the environment and what
    arrives, and however the engine, the audio device and the release calls
    behave; a score that is a [numpy.float32] makes [json.dumps] raise, and
    then nothing is written for it.  Thresholds are finite floats, and the
    [repr] of a finite float is a JSON number. *)
Theorem bridge_stdout_is_json_lines :
  forall (w : world) (f : Bridge.flags) (keyword_arrivals : list (stimulus Z))
         (score_arrivals : list (stimulus (list (string * score)))) (k : nat),
    (forall x, is_number (float_repr w x) = true) ->
    forallb json_line (calls (Bridge.main w f keyword_arrivals score_arrivals k)) = true.
Proof.
  intros w f ka sa k floats. now apply bridge_main_lines.
Qed.

Lemma sample_repr_number (x : Q) : is_number (Sample.repr x) = true.
Proof.
  unfold Sample.repr.
  repeat match goal with
         | |- context [Qeq_bool ?a ?b] => destruct (Qeq_bool a b)
         end; reflexivity.
Qed.

Lemma bridge_stdout_is_json_lines_witness :
  forallb json_line
    (calls (Bridge.main whisper no_flags []
              [Frame [("claudette", Float (7 # 10))];
               Frame [("claudette", Float32 (7 # 10))]; Signal] 0)) = true.
Proof.
  apply (bridge_stdout_is_json_lines whisper no_flags []
           [Frame [("claudette", Float (7 # 10))];
            Frame [("claudette", Float32 (7 # 10))]; Signal] 0).
  intros x. apply sample_repr_number.
Defined.

(** ** Strings survive [json.dumps] *)

Lemma decode_escape_char (c : ascii) (rest : string) :
  decode Plain (escape_char c +++ rest) = option_map (String c) (decode Plain rest).
Proof.
  destruct c as [[] [] [] [] [] [] [] []]; reflexivity.
Qed.

(** What [json.dumps] writes between the quotes decodes to the string. *)
Lemma unescape_escape (s : string) : unescape (escape s) = Some s.
Proof.
  unfold unescape. induction s as [| c s IH]; [reflexivity |].
  cbn [escape]. now rewrite decode_escape_char, IH.
Qed.

Lemma escape_inj (s t : string) : escape s = escape t -> s = t.
Proof.
  intros H. pose proof (unescape_escape s) as Hs. rewrite H in Hs.
  rewrite unescape_escape in Hs. congruence.
Qed.

Lemma escape_eqb (s t : string) :
  String.eqb (escape s) (escape t) = String.eqb s t.
Proof.
  destruct (String.eqb_spec s t) as [-> | Hne].
  - apply String.eqb_refl.
  - apply String.eqb_neq. intros H. apply Hne. now apply escape_inj.
Qed.

(** ** Dictionaries *)

Lemma dict_get_set (d : dict) (k key : string) (v : value) :
  dict_get (dict_set d k v) key =
  if String.eqb k key then Some v else dict_get d key.
Proof.
  induction d as [| [k' v'] d IH]; cbn [dict_set dict_get].
  - reflexivity.
  - destruct (String.eqb_spec k' k) as [-> | Hne]; cbn [dict_get].
    + now destruct (String.eqb k key).
    + rewrite IH. destruct (String.eqb_spec k' key) as [-> | Hne'];
        [| reflexivity].
      destruct (String.eqb_spec k key) as [-> | _]; congruence.
Qed.

Lemma dict_get_update (d : dict) (items : list (string * value)) (key : string) :
  dict_get (dict_update d items) key =
  match last_of items key with
  | Some v => Some v
  | None => dict_get d key
  end.
Proof.
  unfold dict_update. revert d.
  induction items as [| [k v] items IH]; intros d; cbn [fold_left last_of fst snd].
  - reflexivity.
  - rewrite IH. destruct (last_of items key); [reflexivity |].
    rewrite dict_get_set. now destruct (String.eqb k key).
Qed.

(** Reading a member back is looking the key up. *)
Lemma member_written (w : world) (d : dict) (key : string) :
  member (map (written_item w) d) (escape key) = option_map (written w) (dict_get d key).
Proof.
  induction d as [| [k v] d IH]; [reflexivity |].
  cbn [map written_item member dict_get fst snd]. rewrite escape_eqb.
  destruct (String.eqb k key); [reflexivity | exact IH].
Qed.

(** ** The fields of an event *)

Lemma emit_event_run (w : world) (event_type : string) (data : dict) (k : nat) :
  Bridge.emit_event w event_type data k =
  Run [Stdout
         (dumps w (dict_update [("ts", JStr (isoformat (utc (clock w k))));
                                ("type", JStr event_type)] data))
         true]
      (S k) (Val tt).
Proof. reflexivity. Qed.

Section Fields.
Variable w : world.
Hypothesis floats : forall x, is_number (float_repr w x) = true.

(** What the line of an event reads back as. *)
Lemma emitted_members (event_type : string) (data : dict) (t : datetime) :
  exists o,
    loads (dumps w (dict_update [("ts", JStr (isoformat t));
                                 ("type", JStr event_type)] data)) = Some o /\
    forall key,
      member o (escape key) =
      match last_of data key with
      | Some v => Some (written w v)
      | None =>
          if String.eqb key "ts" then Some (SString (isoformat t))
          else if String.eqb key "type" then Some (SString (escape event_type))
          else None
      end.
Proof.
  eexists. split; [apply loads_dumps, every_dict_written, floats |].
  intros key. rewrite member_written, dict_get_update.
  destruct (last_of data key); [reflexivity |].
  cbn [dict_get]. rewrite (String.eqb_sym "ts" key), (String.eqb_sym "type" key).
  destruct (String.eqb key "ts"); cbn [option_map written].
  - now rewrite escape_isoformat.
  - now destruct (String.eqb key "type").
Qed.

End Fields.

(** X2.  [emit_event] writes one line that reads back as an object in which
    every key of [data] has the value [data] gives it last, [ts] is the
    reading of the clock and [type] is the event type unless [data] has
    such a key itself, which then wins; the object has no other member.
    This supposes that the [repr] of a float is a JSON number. *)
Theorem emit_event_fields :
  forall (w : world) (event_type : string) (data : dict) (k : nat),
    (forall x, is_number (float_repr w x) = true) ->
    exists text o,
      Bridge.emit_event w event_type data k = Run [Stdout text true] (S k) (Val tt) /\
      loads text = Some o /\
      forall key,
        member o (escape key) =
        match last_of data key with
        | Some v => Some (written w v)
        | None =>
            if String.eqb key "ts"
            then Some (SString (isoformat (utc (clock w k))))
            else if String.eqb key "type" then Some (SString (escape event_type))
            else None
        end.
Proof.
  intros w event_type data k floats.
  destruct (emitted_members w floats event_type data (utc (clock w k)))
    as [o [Ho Hkey]].
  eexists. exists o. split; [apply emit_event_run |]. now split.
Qed.

Lemma emit_event_fields_witness :
  exists text o,
    Bridge.emit_event Sample.plain "listener_started"
      [("type", JStr "custom"); ("port", JInt 7)] 0 =
      Run [Stdout text true] 1 (Val tt) /\
    loads text = Some o /\
    forall key,
      member o (escape key) =
      match last_of [("type", JStr "custom"); ("port", JInt 7)] key with
      | Some v => Some (written Sample.plain v)
      | None =>
          if String.eqb key "ts"
          then Some (SString (isoformat (utc (clock Sample.plain 0))))
          else if String.eqb key "type"
               then Some (SString (escape "listener_started"))
               else None
      end.
Proof.
  apply (emit_event_fields Sample.plain "listener_started"
           [("type", JStr "custom"); ("port", JInt 7)] 0).
  intros x. apply sample_repr_number.
Defined.

(** ** Words survive the event line *)

(** X3.  The backend and the word of a detection are recovered exactly from
    the line [on_detection] writes, whichever characters up to U+00FF they
    hold (quotes, backslashes, control characters, Latin-1 letters):
    decoding the members as RFC 8259 prescribes gives the strings back.
    Strings hold code points up to U+00FF; what [json.dumps] makes of the
    code points above (four-digit escapes from U+0100 on, surrogate pairs)
    is not covered.  The score is absent or a Python float. *)
Theorem detection_strings_read_back :
  forall (w : world) (backend word : string) (score : option Q) (k : nat),
    (forall x, score = Some x -> is_number (float_repr w x) = true) ->
    exists text o raw_backend raw_word,
      Bridge.on_detection w backend word score k =
        Run [Stdout text true] (S k) (Val tt) /\
      loads text = Some o /\
      member o "backend" = Some (SString raw_backend) /\
      unescape raw_backend = Some backend /\
      member o "word" = Some (SString raw_word) /\
      unescape raw_word = Some word.
Proof.
  intros w backend word score k Hscore.
  exists (dumps w [("ts", JStr (isoformat (utc (clock w k))));
                   ("type", JStr "wake_word_detected");
                   ("backend", JStr backend);
                   ("word", JStr word);
                   ("score", match score with
                             | Some x => JFloat x
                             | None => JNull
                             end)]).
  eexists. exists (escape backend), (escape word).
  split; [apply on_detection_run |].
  split.
  - apply loads_dumps. cbn [writes_numbers forallb snd writes_number andb].
    destruct score as [x |]; [| reflexivity].
    unfold writes_number. now rewrite (Hscore x eq_refl).
  - repeat split; try reflexivity; apply unescape_escape.
Qed.

Lemma detection_strings_read_back_witness :
  exists text o raw_backend raw_word,
    Bridge.on_detection Sample.plain "oww" "hey claudette" (Some (7 # 10)%Q) 0 =
      Run [Stdout text true] 1 (Val tt) /\
    loads text = Some o /\
    member o "backend" = Some (SString raw_backend) /\
    unescape raw_backend = Some "oww" /\
    member o "word" = Some (SString raw_word) /\
    unescape raw_word = Some "hey claudette".
Proof.
  apply (detection_strings_read_back Sample.plain "oww" "hey claudette"
           (Some (7 # 10)%Q) 0).
  intros x _. apply sample_repr_number.
Defined.

(** ** The event stream of the bridge *)

Lemma protocol_app (p : phase) (l1 l2 : list call) :
  protocol p (l1 ++ l2) =
  match protocol p l1 with
  | Some p' => protocol p' l2
  | None => None
  end.
Proof.
  revert p. induction l1 as [| c l1 IH]; intros p; simpl.
  - reflexivity.
  - destruct (follow p c); [apply IH | reflexivity].
Qed.

Lemma is_event_unique (a b text : string) :
  is_event a text = true -> is_event b text = true -> a = b.
Proof.
  unfold is_event. destruct (loads text) as [o |]; [| discriminate].
  destruct (member o "type") as [[| | | t | d] |]; try discriminate.
  intros Ha Hb. apply String.eqb_eq in Ha, Hb. congruence.
Qed.

Section Obeys.
Context {A B : Type}.

Lemma obeys_bind (p q r : phase) (m : prog A) (f : A -> prog B) :
  obeys p q m -> (forall a, obeys q r (f a)) -> obeys p r (bind m f).
Proof.
  intros Hm Hf k. destruct (Hm k) as [p' [Hp Hr]].
  rewrite calls_bind, protocol_app, Hp. unfold bind.
  destruct (result (m k)) as [a | h]; cbn [result].
  - subst p'. apply Hf.
  - exists p'. now split.
Qed.

Lemma obeys_ret (p : phase) (a : A) : obeys p p (ret a).
Proof. intros k. now exists p. Qed.

Lemma obeys_raise (p q : phase) (e : exn) : obeys p q (raise (A := A) e).
Proof. intros k. exists p. split; [reflexivity |]. cbn. discriminate. Qed.

Lemma obeys_fail (p q : phase) (code : Z) :
  code <> 0%Z -> obeys p q (sys_exit (A := A) code).
Proof. intros H k. exists p. split; [reflexivity |]. cbn. intros E. contradiction. Qed.

Lemma obeys_exit (q : phase) (code : Z) : obeys Stopped q (sys_exit (A := A) code).
Proof. intros k. exists Stopped. now split. Qed.

End Obeys.

Lemma obeys_refused (w : world) (p q : phase) :
  obeys p q (Bridge.emit_event_refused w).
Proof. intros k. exists p. split; [reflexivity |]. cbn. discriminate. Qed.

Lemma obeys_perform (p q : phase) (c : call) :
  follow p c = Some q -> obeys p q (perform c).
Proof. intros H k. exists q. cbn [perform calls result protocol]. now rewrite H. Qed.

Lemma obeys_release (w : world) (p : phase) (c : call) :
  follow p c = Some p -> obeys p p (release w c).
Proof.
  intros H. unfold release. apply (obeys_bind p p p); [now apply obeys_perform |].
  intros _. destruct (raises w c); [apply obeys_raise | apply obeys_ret].
Qed.

Lemma obeys_for_each {A} (p : phase) (body : A -> prog unit) (xs : list A) :
  (forall x, obeys p p (body x)) -> obeys p p (for_each body xs).
Proof.
  intros H. induction xs as [| x xs IH]; cbn [for_each].
  - apply obeys_ret.
  - apply (obeys_bind p p p); [apply H | intros _; exact IH].
Qed.

Section Lifecycle.
Context {S : Type} {kind : Score S}.
Variable w : world.
Hypothesis floats : forall x, is_number (float_repr w x) = true.

(** An event whose data has no key [type] is of the type it is emitted
    with. *)
Lemma emitted_is_event (event_type : string) (data : dict) (t : string) :
  last_of data "type" = None ->
  is_event (escape event_type)
    (dumps w (dict_update [("ts", JStr t); ("type", JStr event_type)] data)) = true.
Proof.
  intros H. unfold is_event.
  rewrite (loads_dumps w _ (every_dict_written w floats _)).
  pose proof (member_written w
                (dict_update [("ts", JStr t); ("type", JStr event_type)] data)
                "type") as Hm.
  change (escape "type") with "type" in Hm. rewrite Hm, dict_get_update, H.
  cbn [dict_get option_map written].
  change (String.eqb "ts" "type") with false.
  change (String.eqb "type" "type") with true.
  cbn [option_map written]. apply String.eqb_refl.
Qed.

Lemma obeys_emit (p q : phase) (event_type : string) (data : dict) :
  last_of data "type" = None ->
  (forall text,
      is_event (escape event_type) text = true ->
      follow p (Stdout text true) = Some q) ->
  obeys p q (Bridge.emit_event w event_type data).
Proof.
  intros Hdata Hfollow k. rewrite emit_event_run. exists q.
  cbn [calls result protocol].
  rewrite (Hfollow _ (emitted_is_event event_type data _ Hdata)). now split.
Qed.

Lemma obeys_started (data : dict) :
  last_of data "type" = None ->
  obeys Idle Running (Bridge.emit_event w "listener_started" data).
Proof.
  intros H. apply obeys_emit; [exact H |]. intros text E.
  change (escape "listener_started") with "listener_started" in E.
  cbn [follow]. now rewrite E.
Qed.

Lemma obeys_detected (data : dict) :
  last_of data "type" = None ->
  obeys Running Running (Bridge.emit_event w "wake_word_detected" data).
Proof.
  intros H. apply obeys_emit; [exact H |]. intros text E.
  change (escape "wake_word_detected") with "wake_word_detected" in E.
  cbn [follow]. now rewrite E.
Qed.

Lemma obeys_detection (backend word : string) (score : option S) :
  obeys Running Running (Bridge.on_detection w backend word score).
Proof.
  unfold Bridge.on_detection. destruct score as [s |].
  - destruct (json_of s) as [v |]; [now apply obeys_detected |].
    apply obeys_refused.
  - now apply obeys_detected.
Qed.

Lemma obeys_stopped (data : dict) :
  last_of data "type" = None ->
  obeys Running Stopped (Bridge.emit_event w "listener_stopped" data).
Proof.
  intros H. apply obeys_emit; [exact H |]. intros text E.
  change (escape "listener_stopped") with "listener_stopped" in E.
  cbn [follow].
  destruct (is_event "wake_word_detected" text) eqn:D.
  - pose proof (is_event_unique _ _ _ D E). discriminate.
  - now rewrite E.
Qed.

Lemma porcupine_shutdown_obeys {A} (q : phase) :
  obeys Running q (Bridge.porcupine_shutdown w (A := A)).
Proof.
  unfold Bridge.porcupine_shutdown.
  apply (obeys_bind Running Running); [now apply obeys_release | intros _].
  apply (obeys_bind Running Running); [now apply obeys_release | intros _].
  apply (obeys_bind Running Running); [now apply obeys_release | intros _].
  apply (obeys_bind Running Stopped); [now apply obeys_stopped | intros _].
  apply obeys_exit.
Qed.

Lemma oww_shutdown_obeys {A} (q : phase) :
  obeys Running q (Bridge.oww_shutdown w (A := A)).
Proof.
  unfold Bridge.oww_shutdown.
  apply (obeys_bind Running Running); [now apply obeys_release | intros _].
  apply (obeys_bind Running Running); [now apply obeys_release | intros _].
  apply (obeys_bind Running Stopped); [now apply obeys_stopped | intros _].
  apply obeys_exit.
Qed.

Lemma porcupine_loop_obeys (arrivals : list (stimulus Z)) :
  obeys Running Running (Bridge.porcupine_loop w arrivals).
Proof.
  induction arrivals as [| [index | e |] rest IH]; cbn [Bridge.porcupine_loop].
  - apply obeys_ret.
  - apply (obeys_bind Running Running); [| intros _; exact IH].
    unfold Bridge.porcupine_iteration.
    destruct (index >=? 0)%Z; [now apply obeys_detected | apply obeys_ret].
  - apply obeys_raise.
  - apply porcupine_shutdown_obeys.
Qed.

Lemma oww_loop_obeys (threshold : Q)
    (arrivals : list (stimulus (list (string * S)))) :
  obeys Running Running (Bridge.oww_loop w threshold arrivals).
Proof.
  induction arrivals as [| [predictions | e |] rest IH]; cbn [Bridge.oww_loop].
  - apply obeys_ret.
  - apply (obeys_bind Running Running); [| intros _; exact IH].
    unfold Bridge.oww_iteration. apply obeys_for_each. intros [word score].
    destruct (Qle_bool threshold (as_float score));
      [apply obeys_detection | apply obeys_ret].
  - apply obeys_raise.
  - apply oww_shutdown_obeys.
Qed.

Lemma run_porcupine_obeys (model access_key : string) (sensitivity : Q)
    (arrivals : list (stimulus Z)) :
  obeys Idle Running (Bridge.run_porcupine w model access_key sensitivity arrivals).
Proof.
  unfold Bridge.run_porcupine.
  apply (obeys_bind Idle Idle); [now apply obeys_perform | intros _].
  destruct (porcupine_create w access_key model sensitivity) as [p |];
    [| apply obeys_raise].
  apply (obeys_bind Idle Idle); [now apply obeys_perform | intros _].
  apply (obeys_bind Idle Idle); [now apply obeys_perform | intros _].
  apply (obeys_bind Idle Idle);
    [destruct (pa_open w (sample_rate p) (frame_length p));
     [apply obeys_ret | apply obeys_raise] | intros _].
  apply (obeys_bind Idle Running); [now apply obeys_started | intros _].
  apply porcupine_loop_obeys.
Qed.

Lemma run_oww_obeys (model : string) (threshold : Q)
    (arrivals : list (stimulus (list (string * S)))) :
  obeys Idle Running (Bridge.run_oww w model threshold arrivals).
Proof.
  unfold Bridge.run_oww.
  apply (obeys_bind Idle Idle); [now apply obeys_perform | intros _].
  apply (obeys_bind Idle Idle);
    [destruct (oww_model w model); [apply obeys_ret | apply obeys_raise]
    | intros _].
  apply (obeys_bind Idle Idle); [now apply obeys_perform | intros _].
  apply (obeys_bind Idle Idle); [now apply obeys_perform | intros _].
  apply (obeys_bind Idle Idle);
    [destruct (pa_open w 16000 Bridge.CHUNK); [apply obeys_ret | apply obeys_raise]
    | intros _].
  apply (obeys_bind Idle Running); [now apply obeys_started | intros _].
  apply oww_loop_obeys.
Qed.

Lemma bridge_parse_args_obeys (f : Bridge.flags) :
  obeys Idle Idle (Bridge.parse_args w f).
Proof.
  unfold Bridge.parse_args.
  apply (obeys_bind Idle Idle).
  { destruct (float_of_str w _); [apply obeys_ret | apply obeys_raise]. }
  intros default_threshold.
  apply (obeys_bind Idle Idle).
  { destruct (Bridge.flag_backend f) as [b |]; [| apply obeys_ret].
    destruct (String.eqb b "porcupine" || String.eqb b "oww")%bool;
      [apply obeys_ret | now apply obeys_fail]. }
  intros backend.
  apply (obeys_bind Idle Idle); [| intros threshold; apply obeys_ret].
  destruct (Bridge.flag_threshold f) as [s |]; [| apply obeys_ret].
  destruct (float_of_str w s); [apply obeys_ret | now apply obeys_fail].
Qed.

Lemma bridge_main_obeys (f : Bridge.flags) (ka : list (stimulus Z))
    (sa : list (stimulus (list (string * S)))) :
  obeys Idle Running (Bridge.main w f ka sa).
Proof.
  unfold Bridge.main.
  apply (obeys_bind Idle Idle); [apply bridge_parse_args_obeys | intros a].
  destruct (String.eqb (Bridge.backend a) "porcupine");
    [| apply run_oww_obeys].
  destruct (falsy (Bridge.access_key a)); [| apply run_porcupine_obeys].
  apply (obeys_bind Idle Failed).
  - apply obeys_perform. vm_compute. reflexivity.
  - intros _. now apply obeys_fail.
Qed.

End Lifecycle.

(** X4.  The standard output of the bridge follows the life cycle of the
    listener: either one error object and nothing else, or a
    [listener_started] event first, then [wake_word_detected] events only,
    then at most one [listener_stopped] event, after which nothing is
    written.  No detection is reported before the start or after the stop,
    and the bridge exits with status 0 only when [listener_stopped] has been
    written.  This holds for every command line of the options the bridge
    declares ([-h]/[--help], on which argparse prints its usage and exits
    with status 0, is not one of them), whatever the environment, the
    scores (Python floats or [numpy.float32]), what arrives and what fails.
    Thresholds are finite floats, and the [repr] of a finite float is a
    JSON number. *)
Theorem bridge_output_follows_lifecycle :
  forall (w : world) (f : Bridge.flags) (keyword_arrivals : list (stimulus Z))
         (score_arrivals : list (stimulus (list (string * score)))) (k : nat),
    (forall x, is_number (float_repr w x) = true) ->
    exists p,
      protocol Idle (calls (Bridge.main w f keyword_arrivals score_arrivals k))
        = Some p /\
      forall h,
        result (Bridge.main w f keyword_arrivals score_arrivals k) = Stop h ->
        exit_status h = 0%Z -> p = Stopped.
Proof.
  intros w f ka sa k floats.
  destruct (bridge_main_obeys w floats f ka sa k) as [p [Hp Hr]].
  exists p. split; [exact Hp |]. intros h Hh. now rewrite Hh in Hr.
Qed.

Lemma bridge_output_follows_lifecycle_witness :
  exists p,
    protocol Idle
      (calls (Bridge.main Sample.keyed no_flags
                [Frame 0%Z; Frame (-1)%Z; Frame 3%Z; Signal]
                [Frame [("claudette", Float32 (7 # 10))]] 0)) = Some p /\
    forall h,
      result (Bridge.main Sample.keyed no_flags
                [Frame 0%Z; Frame (-1)%Z; Frame 3%Z; Signal]
                [Frame [("claudette", Float32 (7 # 10))]] 0) = Stop h ->
      exit_status h = 0%Z -> p = Stopped.
Proof.
  apply (bridge_output_follows_lifecycle Sample.keyed no_flags
           [Frame 0%Z; Frame (-1)%Z; Frame 3%Z; Signal]
           [Frame [("claudette", Float32 (7 # 10))]] 0).
  intros x. apply sample_repr_number.
Defined.

(** ** Runs without a termination signal *)

Section Harmless.
Context {A B : Type}.

Lemma harmless_bind (m : prog A) (f : A -> prog B) :
  harmless m -> (forall a, harmless (f a)) -> harmless (bind m f).
Proof.
  intros Hm Hf k. destruct (Hm k) as [Hc Hr].
  rewrite calls_bind, forallb_app, Hc. unfold bind.
  destruct (result (m k)) as [a | h]; cbn [result andb].
  - apply Hf.
  - split; [reflexivity |]. intros h' E. injection E as <-. now apply Hr.
Qed.

Lemma harmless_ret (a : A) : harmless (ret a).
Proof. intros k. split; [reflexivity | discriminate]. Qed.

Lemma harmless_raise (e : exn) : harmless (raise (A := A) e).
Proof.
  intros k. split; [reflexivity |]. intros h H. injection H as <-. discriminate.
Qed.

Lemma harmless_fail (code : Z) : code <> 0%Z -> harmless (sys_exit (A := A) code).
Proof.
  intros Hc k. split; [reflexivity |]. intros h H. injection H as <-. exact Hc.
Qed.

End Harmless.

Lemma harmless_perform (c : call) : not_release c = true -> harmless (perform c).
Proof.
  intros H k. split; [cbn; now rewrite H | discriminate].
Qed.

Lemma harmless_now (w : world) : harmless (now w).
Proof. intros k. split; [reflexivity | discriminate]. Qed.

Lemma harmless_truediv (a b : Q) : harmless (truediv a b).
Proof.
  unfold truediv. destruct (Qeq_bool b 0); [apply harmless_raise | apply harmless_ret].
Qed.

Lemma harmless_for_each {A} (body : A -> prog unit) (xs : list A) :
  (forall x, harmless (body x)) -> harmless (for_each body xs).
Proof.
  intros H. induction xs as [| x xs IH]; cbn [for_each].
  - apply harmless_ret.
  - apply harmless_bind; [apply H | intros _; exact IH].
Qed.

(** One step in the proof that a program is harmless. *)
Ltac harmless_step :=
  match goal with
  | |- harmless (bind _ _) => apply harmless_bind; [| intros ?]
  | |- harmless (ret _) => apply harmless_ret
  | |- harmless (raise _) => apply harmless_raise
  | |- harmless (sys_exit _) => apply harmless_fail; discriminate
  | |- harmless (now _) => apply harmless_now
  | |- harmless (truediv _ _) => apply harmless_truediv
  | |- harmless (perform _) => apply harmless_perform; reflexivity
  | |- harmless (match ?x with _ => _ end) => destruct x
  end.

Section Unsignalled.
Context {S : Type} {kind : Score S}.
Variable w : world.

Lemma bridge_emit_harmless (event_type : string) (data : dict) :
  harmless (Bridge.emit_event w event_type data).
Proof. unfold Bridge.emit_event. repeat harmless_step. Qed.

Lemma bridge_on_detection_harmless (backend word : string) (score : option S) :
  harmless (Bridge.on_detection w backend word score).
Proof.
  unfold Bridge.on_detection. destruct score as [s |].
  - destruct (json_of s); [apply bridge_emit_harmless |].
    unfold Bridge.emit_event_refused. repeat harmless_step.
  - apply bridge_emit_harmless.
Qed.

Lemma bridge_porcupine_loop_harmless (arrivals : list (stimulus Z)) :
  signalled arrivals = false -> harmless (Bridge.porcupine_loop w arrivals).
Proof.
  induction arrivals as [| [index | e |] rest IH]; cbn [Bridge.porcupine_loop];
    intros H.
  - apply harmless_ret.
  - apply harmless_bind; [| intros _; exact (IH H)].
    unfold Bridge.porcupine_iteration.
    destruct (index >=? 0)%Z; [apply bridge_emit_harmless | apply harmless_ret].
  - apply harmless_raise.
  - discriminate H.
Qed.

Lemma bridge_oww_loop_harmless (threshold : Q)
    (arrivals : list (stimulus (list (string * S)))) :
  signalled arrivals = false -> harmless (Bridge.oww_loop w threshold arrivals).
Proof.
  induction arrivals as [| [predictions | e |] rest IH]; cbn [Bridge.oww_loop];
    intros H.
  - apply harmless_ret.
  - apply harmless_bind; [| intros _; exact (IH H)].
    unfold Bridge.oww_iteration. apply harmless_for_each. intros [word score].
    destruct (Qle_bool threshold (as_float score));
      [apply bridge_on_detection_harmless | apply harmless_ret].
  - apply harmless_raise.
  - discriminate H.
Qed.

Lemma bridge_parse_args_harmless (f : Bridge.flags) :
  harmless (Bridge.parse_args w f).
Proof. unfold Bridge.parse_args. repeat harmless_step. Qed.

Lemma bridge_main_harmless (f : Bridge.flags) (ka : list (stimulus Z))
    (sa : list (stimulus (list (string * S)))) :
  signalled ka = false -> signalled sa = false ->
  harmless (Bridge.main w f ka sa).
Proof.
  intros Hk Hs. unfold Bridge.main.
  apply harmless_bind; [apply bridge_parse_args_harmless | intros a].
  destruct (String.eqb (Bridge.backend a) "porcupine").
  - destruct (falsy (Bridge.access_key a)); [repeat harmless_step |].
    unfold Bridge.run_porcupine.
    repeat (harmless_step;
            try apply bridge_emit_harmless;
            try (apply bridge_porcupine_loop_harmless; exact Hk)).
  - unfold Bridge.run_oww.
    repeat (harmless_step;
            try apply bridge_emit_harmless;
            try (apply bridge_oww_loop_harmless; exact Hs)).
Qed.

Lemma oww_detected_harmless (word : string) (score : Q) :
  harmless (OwwListener.on_wake_word_detected w word score).
Proof. unfold OwwListener.on_wake_word_detected. repeat harmless_step. Qed.

Lemma oww_scan_harmless (threshold : Q) (predictions : list (string * Q)) (n : nat) :
  harmless (OwwListener.scan w threshold predictions n).
Proof.
  revert n. induction predictions as [| [word score] rest IH]; intros n;
    cbn [OwwListener.scan].
  - apply harmless_ret.
  - destruct (Qle_bool threshold score); [| apply IH].
    apply harmless_bind; [apply oww_detected_harmless | intros _; apply IH].
Qed.

Lemma oww_report_stats_harmless (start_time : Q) (n : nat) :
  harmless (OwwListener.report_stats w start_time n).
Proof. unfold OwwListener.report_stats. repeat harmless_step. Qed.

Lemma oww_loop_harmless (threshold start_time : Q)
    (arrivals : list (stimulus (list (string * Q)))) (n : nat) :
  signalled arrivals = false ->
  harmless (OwwListener.loop w threshold start_time arrivals n).
Proof.
  revert n.
  induction arrivals as [| [predictions | e |] rest IH]; intros n H;
    cbn [OwwListener.loop].
  - apply harmless_ret.
  - apply harmless_bind; [| intros c; exact (IH c H)].
    unfold OwwListener.iteration.
    apply harmless_bind; [apply oww_scan_harmless | intros c].
    apply harmless_bind; [apply oww_report_stats_harmless | intros _].
    apply harmless_ret.
  - apply harmless_raise.
  - discriminate H.
Qed.

Lemma oww_main_harmless (f : OwwListener.flags)
    (arrivals : list (stimulus (list (string * Q)))) :
  signalled arrivals = false -> harmless (OwwListener.main w f arrivals).
Proof.
  intros H. unfold OwwListener.main.
  apply harmless_bind.
  { unfold OwwListener.parse_args. repeat harmless_step. }
  intros [model threshold].
  destruct (negb (path_exists w model)); [repeat harmless_step |].
  unfold OwwListener.listen.
  repeat (harmless_step; try (apply oww_loop_harmless; exact H)).
Qed.

Lemma porcupine_loop_harmless (start_time : Q) (arrivals : list (stimulus Z))
    (n : nat) :
  signalled arrivals = false ->
  harmless (PorcupineListener.loop w start_time arrivals n).
Proof.
  revert n.
  induction arrivals as [| [index | e |] rest IH]; intros n H;
    cbn [PorcupineListener.loop].
  - apply harmless_ret.
  - apply harmless_bind; [| intros c; exact (IH c H)].
    unfold PorcupineListener.iteration, PorcupineListener.report_stats,
      PorcupineListener.on_wake_word_detected.
    repeat harmless_step.
  - apply harmless_raise.
  - discriminate H.
Qed.

Lemma porcupine_main_harmless (f : PorcupineListener.flags)
    (arrivals : list (stimulus Z)) :
  signalled arrivals = false -> harmless (PorcupineListener.main w f arrivals).
Proof.
  intros H. unfold PorcupineListener.main.
  apply harmless_bind.
  { unfold PorcupineListener.parse_args. repeat harmless_step. }
  intros a.
  destruct (falsy (PorcupineListener.access_key a)); [repeat harmless_step |].
  destruct (negb (path_exists w (PorcupineListener.model a)));
    [repeat harmless_step |].
  unfold PorcupineListener.listen.
  repeat (harmless_step; try (apply porcupine_loop_harmless; exact H)).
Qed.

End Unsignalled.

(** X5.  The three scripts release the audio device and the engine only in
    their signal handler: as long as no termination signal arrives, not one
    makes a release call (on no error path either: an exception out of the
    microphone, of the engine or of [json.dumps] leaves the stream open),
    and not one ends with exit status 0.  This holds for every command line
    of the options the scripts declare; [-h]/[--help], on which argparse
    prints its usage and exits with status 0, is not one of them. *)
Theorem no_release_without_signal :
  forall (w : world) (keyword_arrivals : list (stimulus Z))
         (score_arrivals : list (stimulus (list (string * score))))
         (value_arrivals : list (stimulus (list (string * Q)))),
    signalled keyword_arrivals = false ->
    signalled score_arrivals = false ->
    signalled value_arrivals = false ->
    (forall f, harmless (Bridge.main w f keyword_arrivals score_arrivals)) /\
    (forall f, harmless (OwwListener.main w f value_arrivals)) /\
    (forall f, harmless (PorcupineListener.main w f keyword_arrivals)).
Proof.
  intros w ka sa va Hk Hs Hv. split; [| split]; intros f.
  - now apply bridge_main_harmless.
  - now apply oww_main_harmless.
  - now apply porcupine_main_harmless.
Qed.

Lemma no_release_without_signal_witness :
  (forall f,
      harmless (Bridge.main Sample.keyed f
                  [Frame 0%Z; Fault DeviceError]
                  [Frame [("claudette", Float (7 # 10))];
                   Frame [("claudette", Float32 (7 # 10))]])) /\
  (forall f,
      harmless (OwwListener.main Sample.keyed f
                  [Frame [("claudette", (7 # 10)%Q)]; Fault EngineError])) /\
  (forall f,
      harmless (PorcupineListener.main Sample.keyed f
                  [Frame 0%Z; Fault DeviceError])).
Proof.
  apply (no_release_without_signal Sample.keyed
           [Frame 0%Z; Fault DeviceError]
           [Frame [("claudette", Float (7 # 10))];
            Frame [("claudette", Float32 (7 # 10))]]
           [Frame [("claudette", (7 # 10)%Q)]; Fault EngineError]);
    reflexivity.
Defined.

(** ** An audio device that cannot be opened *)

Lemma silent_calls {A} (m : prog A) (k : nat) :
  always (fun _ => false) m -> calls (m k) = [].
Proof.
  intros H. specialize (H k). destruct (calls (m k)); [reflexivity | discriminate].
Qed.

Lemma stop_run {A} (m : prog A) (k : nat) (h : halt) :
  calls (m k) = [] -> result (m k) = Stop h -> m k = Run [] (reads (m k)) (Stop h).
Proof. intros Hc Hr. now rewrite <- (run_eta (m k)), Hc, Hr. Qed.

Lemma val_run {A} (m : prog A) (k : nat) (a : A) :
  calls (m k) = [] -> result (m k) = Val a -> m k = Run [] (reads (m k)) (Val a).
Proof. intros Hc Hr. now rewrite <- (run_eta (m k)), Hc, Hr. Qed.

(** A program that fails after a parser that fails or returns in silence. *)
Lemma fails_after_parser {A B} (m : prog A) (f : A -> prog B) (k : nat) :
  always (fun _ => false) m ->
  harmless m ->
  (forall a k', fails_unstarted (f a k')) ->
  fails_unstarted (bind m f k).
Proof.
  intros Hs Hh Hf. pose proof (silent_calls m k Hs) as Hc.
  destruct (result (m k)) as [a | h] eqn:Hr.
  - rewrite (bind_run m f k (reads (m k)) [] a) by now apply val_run.
    rewrite app_nil_l, run_eta. apply Hf.
  - rewrite (bind_stop m f k (reads (m k)) [] h) by now apply stop_run.
    split; [reflexivity |]. split; [reflexivity |].
    exists h. split; [reflexivity |]. exact (proj2 (Hh k) h Hr).
Qed.

Section Deaf.
Context {S : Type} {kind : Score S}.
Variable w : world.
Hypothesis deaf : forall rate frames_per_buffer, pa_open w rate frames_per_buffer = false.

Lemma bridge_run_porcupine_deaf (model access_key : string) (sensitivity : Q)
    (arrivals : list (stimulus Z)) (k : nat) :
  fails_unstarted (Bridge.run_porcupine w model access_key sensitivity arrivals k).
Proof.
  unfold Bridge.run_porcupine. performs (PorcupineCreate access_key model sensitivity).
  destruct (porcupine_create w access_key model sensitivity) as [p |].
  - performs PyAudio. performs (PaOpen (sample_rate p) (frame_length p)).
    rewrite deaf.
    rewrite (bind_stop _ _ _ k [] (Uncaught DeviceError)) by reflexivity.
    repeat split. exists (Uncaught DeviceError). now split.
  - repeat split. exists (Uncaught EngineError). now split.
Qed.

Lemma bridge_run_oww_deaf (model : string) (threshold : Q)
    (arrivals : list (stimulus (list (string * S)))) (k : nat) :
  fails_unstarted (Bridge.run_oww w model threshold arrivals k).
Proof.
  unfold Bridge.run_oww. performs (OwwModel model).
  destruct (oww_model w model).
  - passes. performs PyAudio. performs (PaOpen 16000 Bridge.CHUNK).
    rewrite deaf.
    rewrite (bind_stop _ _ _ k [] (Uncaught DeviceError)) by reflexivity.
    repeat split. exists (Uncaught DeviceError). now split.
  - rewrite (bind_stop _ _ _ k [] (Uncaught EngineError)) by reflexivity.
    repeat split. exists (Uncaught EngineError). now split.
Qed.

Lemma oww_listen_deaf (model : string) (threshold : Q)
    (arrivals : list (stimulus (list (string * Q)))) (k : nat) :
  fails_unstarted (OwwListener.listen w model threshold arrivals k).
Proof.
  unfold OwwListener.listen.
  performs (Say (LoadingOww model)). performs (Say (ShowThreshold threshold)).
  performs (OwwModel model).
  destruct (oww_model w model).
  - passes. performs PyAudio. performs (PaOpen OwwListener.RATE OwwListener.CHUNK).
    rewrite deaf.
    rewrite (bind_stop _ _ _ k [] (Uncaught DeviceError)) by reflexivity.
    repeat split. exists (Uncaught DeviceError). now split.
  - rewrite (bind_stop _ _ _ k [] (Uncaught EngineError)) by reflexivity.
    repeat split. exists (Uncaught EngineError). now split.
Qed.

Lemma porcupine_listen_deaf (model access_key : string) (sensitivity : Q)
    (arrivals : list (stimulus Z)) (k : nat) :
  fails_unstarted (PorcupineListener.listen w model access_key sensitivity arrivals k).
Proof.
  unfold PorcupineListener.listen.
  performs (Say (LoadingPorcupine model)). performs (Say (ShowSensitivity sensitivity)).
  performs (PorcupineCreate access_key model sensitivity).
  destruct (porcupine_create w access_key model sensitivity) as [p |].
  - performs PyAudio. performs (PaOpen (sample_rate p) (frame_length p)).
    rewrite deaf.
    rewrite (bind_stop _ _ _ k [] (Uncaught DeviceError)) by reflexivity.
    repeat split. exists (Uncaught DeviceError). now split.
  - repeat split. exists (Uncaught EngineError). now split.
Qed.

Lemma bridge_main_deaf (f : Bridge.flags) (ka : list (stimulus Z))
    (sa : list (stimulus (list (string * S)))) (k : nat) :
  fails_unstarted (Bridge.main w f ka sa k).
Proof.
  unfold Bridge.main. apply fails_after_parser.
  - apply bridge_parse_args_silent.
  - apply bridge_parse_args_harmless.
  - intros a k'. destruct (String.eqb (Bridge.backend a) "porcupine");
      [| apply bridge_run_oww_deaf].
    destruct (falsy (Bridge.access_key a)); [| apply bridge_run_porcupine_deaf].
    performs (Stdout Bridge.error_line true).
    split; [vm_compute; reflexivity |]. split; [reflexivity |].
    exists (SysExit 1). now split.
Qed.

Lemma oww_main_deaf (f : OwwListener.flags)
    (arrivals : list (stimulus (list (string * Q)))) (k : nat) :
  fails_unstarted (OwwListener.main w f arrivals k).
Proof.
  unfold OwwListener.main. apply fails_after_parser.
  - unfold OwwListener.parse_args. repeat always_step.
  - unfold OwwListener.parse_args. repeat harmless_step.
  - intros [model threshold] k'.
    destruct (negb (path_exists w model)); [| apply oww_listen_deaf].
    performs (Say (ErrModelNotFound model)). performs (Say HintOptions).
    performs (Say HintOptionA). performs (Say HintOptionB).
    performs (Say HintOptionC).
    repeat split. exists (SysExit 1). now split.
Qed.

Lemma porcupine_main_deaf (f : PorcupineListener.flags)
    (arrivals : list (stimulus Z)) (k : nat) :
  fails_unstarted (PorcupineListener.main w f arrivals k).
Proof.
  unfold PorcupineListener.main. apply fails_after_parser.
  - unfold PorcupineListener.parse_args. repeat always_step.
  - unfold PorcupineListener.parse_args. repeat harmless_step.
  - intros a k'.
    destruct (falsy (PorcupineListener.access_key a)).
    { performs (Say ErrNoAccessKey). performs (Say HintGetKey).
      repeat split. exists (SysExit 1). now split. }
    destruct (negb (path_exists w (PorcupineListener.model a)));
      [| apply porcupine_listen_deaf].
    performs (Say (ErrModelNotFound (PorcupineListener.model a))).
    performs (Say HintTrain).
    repeat split. exists (SysExit 1). now split.
Qed.

End Deaf.

(** X6.  When the audio device cannot be opened, every script ends with a
    non-zero exit status without reporting that the listener started,
    whatever the environment and what arrives (a termination signal
    included); and it makes no release call on the way: a Porcupine handle
    that was created before the device failed is not deleted.  This holds
    for every command line of the options the scripts declare;
    [-h]/[--help], on which argparse prints its usage and exits with status
    0 before the device is touched, is not one of them. *)
Theorem no_start_without_microphone :
  forall (w : world),
    (forall rate frames_per_buffer, pa_open w rate frames_per_buffer = false) ->
    (forall f keyword_arrivals
            (score_arrivals : list (stimulus (list (string * score)))) k,
        fails_unstarted (Bridge.main w f keyword_arrivals score_arrivals k)) /\
    (forall f value_arrivals k,
        fails_unstarted (OwwListener.main w f value_arrivals k)) /\
    (forall f keyword_arrivals k,
        fails_unstarted (PorcupineListener.main w f keyword_arrivals k)).
Proof.
  intros w deaf. split; [| split]; intros.
  - now apply bridge_main_deaf.
  - now apply oww_main_deaf.
  - now apply porcupine_main_deaf.
Qed.

Lemma no_start_without_microphone_witness :
  (forall f keyword_arrivals
          (score_arrivals : list (stimulus (list (string * score)))) k,
      fails_unstarted
        (Bridge.main (without_microphone Sample.keyed) f
           keyword_arrivals score_arrivals k)) /\
  (forall f value_arrivals k,
      fails_unstarted
        (OwwListener.main (without_microphone Sample.keyed) f value_arrivals k)) /\
  (forall f keyword_arrivals k,
      fails_unstarted
        (PorcupineListener.main (without_microphone Sample.keyed) f
           keyword_arrivals k)).
Proof.
  apply (no_start_without_microphone (without_microphone Sample.keyed)).
  reflexivity.
Defined.

(** ** A higher threshold reports less *)

Lemma passing_length_mono (t1 t2 : Q) (predictions : list (string * Q)) :
  (t1 <= t2)%Q ->
  List.length (passing t2 predictions) <= List.length (passing t1 predictions).
Proof.
  intros H. unfold passing.
  induction predictions as [| [word score] rest IH]; cbn [filter snd];
    [apply Nat.le_refl |].
  destruct (Qle_bool t2 score) eqn:E2.
  - apply Qle_bool_iff in E2.
    assert (E1 : Qle_bool t1 score = true)
      by (apply Qle_bool_iff; now apply Qle_trans with t2).
    rewrite E1. cbn [List.length]. now apply le_n_S.
  - destruct (Qle_bool t1 score); cbn [List.length]; [| exact IH].
    now apply Nat.le_le_succ_r.
Qed.

Lemma forwarded_length_mono (t1 t2 : Q) (frames : list (list (string * Q))) :
  (t1 <= t2)%Q ->
  List.length (forwarded t2 frames) <= List.length (forwarded t1 frames).
Proof.
  intros H. unfold forwarded.
  induction frames as [| predictions rest IH]; cbn [flat_map];
    [apply Nat.le_refl |].
  rewrite !length_app. apply Nat.add_le_mono; [now apply passing_length_mono | exact IH].
Qed.

Section Forwarded.
Variable w : world.

Lemma oww_iteration_result (threshold start_time : Q)
    (predictions : list (string * Q)) (n k : nat) :
  exists l k',
    OwwListener.iteration w threshold start_time predictions n k =
    Run l k' (Val (n + List.length (passing threshold predictions))).
Proof.
  rewrite oww_iteration_passing.
  destruct (forward_detections w (passing threshold predictions) k) as [_ Hr].
  remember (for_each
              (fun item => OwwListener.on_wake_word_detected w (fst item) (snd item))
              (passing threshold predictions)) as m eqn:Em.
  rewrite (bind_run m _ k (reads (m k)) (calls (m k)) tt)
    by (now rewrite <- Hr, run_eta).
  cbv zeta.
  rewrite (bind_run _ _ _ _ _ tt (report_stats_run w start_time _ _)).
  cbn [ret calls reads result]. eexists. eexists. reflexivity.
Qed.

(** The counter of the standalone listener, after the frames. *)
Lemma oww_loop_result (threshold start_time : Q)
    (frames : list (list (string * Q))) (n k : nat) :
  result (OwwListener.loop w threshold start_time (map Frame frames) n k) =
  Val (n + List.length (forwarded threshold frames)).
Proof.
  revert n k. induction frames as [| predictions rest IH]; intros n k;
    cbn [map OwwListener.loop forwarded flat_map].
  - cbn. now rewrite Nat.add_0_r.
  - destruct (oww_iteration_result threshold start_time predictions n k)
      as [l [k' E]].
    rewrite (bind_run _ _ _ _ _ _ E). cbn [result].
    rewrite IH, length_app. unfold forwarded. now rewrite Nat.add_assoc.
Qed.

End Forwarded.

(** X7.  Raising the threshold never reports more: on the same frames, and
    whenever it is started and however the clock runs, the standalone
    openWakeWord listener run with the higher threshold ends with a
    detection counter that is at most the counter of the run with the lower
    threshold; the counter is the number of predictions of the frames that
    reach the threshold. *)
Theorem higher_threshold_reports_less :
  forall (w : world) (t1 t2 : Q) (frames : list (list (string * Q)))
         (start_time start_time' : Q) (k k' : nat),
    (t1 <= t2)%Q ->
    result (OwwListener.loop w t1 start_time (map Frame frames) 0 k)
      = Val (List.length (forwarded t1 frames)) /\
    result (OwwListener.loop w t2 start_time' (map Frame frames) 0 k')
      = Val (List.length (forwarded t2 frames)) /\
    List.length (forwarded t2 frames) <= List.length (forwarded t1 frames).
Proof.
  intros w t1 t2 frames st st' k k' H.
  split; [apply (oww_loop_result w t1 st frames 0 k) |].
  split; [apply (oww_loop_result w t2 st' frames 0 k') |].
  now apply forwarded_length_mono.
Qed.

Lemma higher_threshold_reports_less_witness :
  result (OwwListener.loop Sample.plain (1 # 2) 0
            (map Frame [[("claudette", (1 # 2)%Q)]; [("claudette", 1%Q)]]) 0 1)
    = Val (List.length
             (forwarded (1 # 2) [[("claudette", (1 # 2)%Q)]; [("claudette", 1%Q)]])) /\
  result (OwwListener.loop Sample.plain (7 # 10) 0
            (map Frame [[("claudette", (1 # 2)%Q)]; [("claudette", 1%Q)]]) 0 1)
    = Val (List.length
             (forwarded (7 # 10) [[("claudette", (1 # 2)%Q)]; [("claudette", 1%Q)]])) /\
  List.length
    (forwarded (7 # 10) [[("claudette", (1 # 2)%Q)]; [("claudette", 1%Q)]]) <=
  List.length
    (forwarded (1 # 2) [[("claudette", (1 # 2)%Q)]; [("claudette", 1%Q)]]).
Proof.
  apply (higher_threshold_reports_less Sample.plain (1 # 2) (7 # 10)
           [[("claudette", (1 # 2)%Q)]; [("claudette", 1%Q)]] 0 0 1 1).
  unfold Qle. cbn. lia.
Defined.

(** ** The model name of the banner *)

Lemma has_char_app (c : ascii) (a b : string) :
  has_char c (a +++ b) = has_char c a || has_char c b.
Proof.
  induction a as [| c' a IH]; cbn [String.append has_char]; [reflexivity |].
  now rewrite IH, orb_assoc.
Qed.

Lemma basename_from_app (a b cur : string) :
  basename_from (a +++ b) cur = basename_from b (basename_from a cur).
Proof.
  revert cur. induction a as [| c a IH]; intros cur;
    cbn [String.append basename_from]; [reflexivity |].
  destruct (Ascii.eqb c "/"); apply IH.
Qed.

Lemma basename_from_plain (name cur : string) :
  has_char "/" name = false -> basename_from name cur = cur +++ name.
Proof.
  revert cur. induction name as [| c name IH]; intros cur H;
    cbn [basename_from has_char] in *.
  - now rewrite append_nil_r.
  - apply orb_false_iff in H. destruct H as [Hc Hn]. rewrite Hc, (IH _ Hn).
    now rewrite append_assoc.
Qed.

(** The base name of a path is what follows its last separator. *)
Lemma basename_join (dir name : string) :
  has_char "/" name = false -> basename (dir +++ "/" +++ name) = name.
Proof.
  intros H. unfold basename. rewrite basename_from_app.
  change ("/" +++ name) with (String "/" name). cbn [basename_from].
  change (Ascii.eqb "/" "/") with true. cbv iota.
  now rewrite basename_from_plain.
Qed.

Lemma before_last_dot_none (s : string) :
  has_char "." s = false -> before_last_dot s = None.
Proof.
  induction s as [| c s IH]; cbn [has_char before_last_dot]; [reflexivity |].
  intros H. apply orb_false_iff in H. destruct H as [Hc Hs].
  now rewrite (IH Hs), Hc.
Qed.

Lemma before_last_dot_ext (stem ext : string) :
  has_char "." ext = false -> before_last_dot (stem +++ "." +++ ext) = Some stem.
Proof.
  intros H. induction stem as [| c stem IH].
  - change ("" +++ "." +++ ext) with (String "." ext). cbn [before_last_dot].
    now rewrite (before_last_dot_none ext H).
  - cbn [String.append before_last_dot]. cbn [String.append] in IH. now rewrite IH.
Qed.

Lemma splitext_root_ext (stem ext : string) :
  has_char "." ext = false -> only_dots stem = false ->
  splitext_root (stem +++ "." +++ ext) = stem.
Proof.
  intros He Hs. unfold splitext_root. now rewrite before_last_dot_ext, Hs.
Qed.

(** X8.  The model name in the banner of the openWakeWord listener is the
    file name of the model without its directory and without its last
    extension: for a model [dir/stem.ext], where [stem] is not made of dots
    only, the banner shows [stem], whatever [dir] and however many dots
    [stem] holds. *)
Theorem banner_shows_model_stem :
  forall (w : world) (dir stem ext : string) (threshold : Q)
         (arrivals : list (stimulus (list (string * Q)))) (k : nat),
    has_char "/" stem = false ->
    has_char "/" ext = false ->
    has_char "." ext = false ->
    only_dots stem = false ->
    oww_model w (dir +++ "/" +++ stem +++ "." +++ ext) = true ->
    pa_open w OwwListener.RATE OwwListener.CHUNK = true ->
    In (Say (ShowModel stem))
       (calls (OwwListener.listen w (dir +++ "/" +++ stem +++ "." +++ ext)
                 threshold arrivals k)).
Proof.
  intros w dir stem ext threshold arrivals k Hs He Hd Ho Hm Hp.
  rewrite (oww_listen_started w _ threshold arrivals k Hm Hp). cbn [calls].
  rewrite basename_join.
  - rewrite (splitext_root_ext stem ext Hd Ho). apply in_or_app. left.
    cbn. tauto.
  - rewrite !has_char_app, Hs, He. reflexivity.
Qed.

Lemma banner_shows_model_stem_witness :
  In (Say (ShowModel "claudette"))
     (calls (OwwListener.listen Sample.plain
               ("/opt/voice/models" +++ "/" +++ "claudette" +++ "." +++ "tflite")
               (1 # 2) [] 0)).
Proof.
  apply (banner_shows_model_stem Sample.plain "/opt/voice/models" "claudette"
           "tflite" (1 # 2) [] 0); reflexivity.
Defined.

(** ** Backends the parser never checked *)

Lemma model_path_or_default (w : world) (a : Bridge.args) :
  String.eqb (Bridge.backend a) "porcupine" = false ->
  Bridge.model_path w a =
  or_default (Bridge.model a)
    (path_join (script_dir w) ["models"; "claudette.tflite"]).
Proof.
  intros H. unfold Bridge.model_path. rewrite H.
  destruct (Bridge.model a) as [[| c s] |]; reflexivity.
Qed.

(** X9.  The list of choices of [--backend] is not applied to the
    environment: with no [--backend] flag, any value of [WAKE_WORD_BACKEND]
    other than [porcupine] (a misspelt one as well) makes the bridge run the
    openWakeWord engine, on the [.tflite] default when no model is given,
    without looking at the access key. *)
Theorem environment_backend_is_not_checked :
  forall (w : world) (f : Bridge.flags) (keyword_arrivals : list (stimulus Z))
         (score_arrivals : list (stimulus (list (string * Q)))) (k : nat)
         (a : Bridge.args) (b : string),
    Bridge.flag_backend f = None ->
    environ w "WAKE_WORD_BACKEND" = Some b ->
    b <> "porcupine" ->
    result (Bridge.parse_args w f k) = Val a ->
    Bridge.backend a = b /\
    Bridge.main w f keyword_arrivals score_arrivals k =
    Bridge.run_oww w
      (or_default (Bridge.model a)
         (path_join (script_dir w) ["models"; "claudette.tflite"]))
      (Bridge.threshold a) score_arrivals k.
Proof.
  intros w f ka sa k a b Hflag Henv Hb Ha.
  destruct (bridge_parse_args_val w f k a Ha) as [_ [Hbackend _]].
  rewrite Hflag, Henv in Hbackend. cbn [first_of] in Hbackend.
  split; [exact Hbackend |].
  assert (E : String.eqb (Bridge.backend a) "porcupine" = false)
    by (rewrite Hbackend; now apply String.eqb_neq).
  rewrite (bridge_main_run w f ka sa k a Ha), E.
  now rewrite (model_path_or_default w a E).
Qed.

Lemma environment_backend_is_not_checked_witness :
  Bridge.backend
    {| Bridge.backend := "whisper"; Bridge.model := None;
       Bridge.threshold := (1 # 2)%Q; Bridge.access_key := None |} = "whisper" /\
  Bridge.main whisper no_flags [] [Signal] 0 =
  Bridge.run_oww whisper
    (or_default
       (Bridge.model
          {| Bridge.backend := "whisper"; Bridge.model := None;
             Bridge.threshold := (1 # 2)%Q; Bridge.access_key := None |})
       (path_join (script_dir whisper) ["models"; "claudette.tflite"]))
    (Bridge.threshold
       {| Bridge.backend := "whisper"; Bridge.model := None;
          Bridge.threshold := (1 # 2)%Q; Bridge.access_key := None |})
    [Signal] 0.
Proof.
  apply (environment_backend_is_not_checked whisper no_flags [] [Signal] 0
           {| Bridge.backend := "whisper"; Bridge.model := None;
              Bridge.threshold := (1 # 2)%Q; Bridge.access_key := None |}
           "whisper").
  - reflexivity.
  - reflexivity.
  - discriminate.
  - vm_compute. reflexivity.
Defined.

(** ** An empty access key *)

(** X10.  An access key given as the empty string counts as no key, and a
    flag given hides the environment: with [--access-key ""], the Porcupine
    entry points report the missing key and exit with status 1 before any
    engine or audio call, even when [PORCUPINE_ACCESS_KEY] is set. *)
Theorem empty_access_key_is_no_key :
  forall (w : world) (f : Bridge.flags) (f' : PorcupineListener.flags)
         (keyword_arrivals : list (stimulus Z))
         (score_arrivals : list (stimulus (list (string * Q)))) (k : nat)
         (a : Bridge.args) (a' : PorcupineListener.args),
    Bridge.flag_access_key f = Some "" ->
    PorcupineListener.flag_access_key f' = Some "" ->
    result (Bridge.parse_args w f k) = Val a ->
    Bridge.backend a = "porcupine" ->
    result (PorcupineListener.parse_args w f' k) = Val a' ->
    Bridge.main w f keyword_arrivals score_arrivals k =
      Run [Stdout Bridge.error_line true] k (Stop (SysExit 1)) /\
    PorcupineListener.main w f' keyword_arrivals k =
      Run [Say ErrNoAccessKey; Say HintGetKey] k (Stop (SysExit 1)).
Proof.
  intros w f f' ka sa k a a' Hf Hf' Ha Hb Ha'. split.
  - destruct (bridge_parse_args_val w f k a Ha) as [_ [_ [_ [_ Hkey]]]].
    rewrite Hf in Hkey.
    rewrite (bridge_main_run w f ka sa k a Ha), Hb, Hkey. reflexivity.
  - destruct (porcupine_parse_args_val w f' k a' Ha') as [_ Hkey].
    rewrite Hf' in Hkey.
    rewrite (porcupine_main_run w f' ka k a' Ha'), Hkey. reflexivity.
Qed.

Lemma empty_access_key_is_no_key_witness :
  Bridge.main Sample.keyed empty_key_flag [Frame 0%Z] [] 0 =
    Run [Stdout Bridge.error_line true] 0 (Stop (SysExit 1)) /\
  PorcupineListener.main Sample.keyed porcupine_empty_key_flag [Frame 0%Z] 0 =
    Run [Say ErrNoAccessKey; Say HintGetKey] 0 (Stop (SysExit 1)).
Proof.
  apply (empty_access_key_is_no_key Sample.keyed empty_key_flag
           porcupine_empty_key_flag [Frame 0%Z] [] 0
           {| Bridge.backend := "porcupine"; Bridge.model := None;
              Bridge.threshold := (1 # 2)%Q; Bridge.access_key := Some "" |}
           {| PorcupineListener.model := "/opt/voice/models/claudette_linux.ppn";
              PorcupineListener.sensitivity := (1 # 2)%Q;
              PorcupineListener.access_key := Some "" |});
    try reflexivity; vm_compute; reflexivity.
Defined.

(** ** The start report of the Porcupine backend *)

(** X11.  The bridge hands the value of [--threshold] to Porcupine as its
    sensitivity: when the backend is [porcupine], the key is given and the
    engine and the device open, the bridge creates the engine with the
    threshold as sensitivity, and the first line it writes is a
    [listener_started] event that carries the backend, the model path
    (which decodes to the path in use), the threshold under [sensitivity]
    and the sample rate of the engine as a JSON integer. *)
Theorem bridge_threshold_is_porcupine_sensitivity :
  forall (w : world) (f : Bridge.flags) (keyword_arrivals : list (stimulus Z))
         (score_arrivals : list (stimulus (list (string * Q)))) (k : nat)
         (a : Bridge.args) (p : porcupine),
    (forall x, is_number (float_repr w x) = true) ->
    result (Bridge.parse_args w f k) = Val a ->
    Bridge.backend a = "porcupine" ->
    falsy (Bridge.access_key a) = false ->
    porcupine_create w (text (Bridge.access_key a)) (Bridge.model_path w a)
      (Bridge.threshold a) = Some p ->
    pa_open w (sample_rate p) (frame_length p) = true ->
    exists line o raw rest,
      calls (Bridge.main w f keyword_arrivals score_arrivals k) =
        PorcupineCreate (text (Bridge.access_key a)) (Bridge.model_path w a)
          (Bridge.threshold a)
        :: PyAudio :: PaOpen (sample_rate p) (frame_length p)
        :: Stdout line true :: rest /\
      loads line = Some o /\
      member o "type" = Some (SString "listener_started") /\
      member o "backend" = Some (SString "porcupine") /\
      member o "model" = Some (SString raw) /\
      unescape raw = Some (Bridge.model_path w a) /\
      member o "sensitivity" = Some (SNumber (float_repr w (Bridge.threshold a))) /\
      member o "sample_rate" =
        Some (SNumber (NilZero.string_of_int (Z.to_int (sample_rate p)))).
Proof.
  intros w f ka sa k a p floats Ha Hb Hkey Hcreate Hopen.
  rewrite (bridge_main_run w f ka sa k a Ha), Hb, Hkey.
  change (String.eqb "porcupine" "porcupine") with true. cbv iota.
  unfold Bridge.run_porcupine.
  performs (PorcupineCreate (text (Bridge.access_key a)) (Bridge.model_path w a)
              (Bridge.threshold a)).
  rewrite Hcreate. performs PyAudio.
  performs (PaOpen (sample_rate p) (frame_length p)). rewrite Hopen. passes.
  rewrite (bind_run _ _ _ _ _ tt (emit_event_run w _ _ _)).
  cbn [calls app].
  destruct (emitted_members w floats "listener_started"
              (dict_of [("backend", JStr "porcupine");
                        ("model", JStr (Bridge.model_path w a));
                        ("sensitivity", JFloat (Bridge.threshold a));
                        ("sample_rate", JInt (sample_rate p))])
              (utc (clock w k))) as [o [Ho Hmember]].
  eexists. exists o, (escape (Bridge.model_path w a)). eexists.
  split; [reflexivity |]. split; [exact Ho |].
  split; [exact (Hmember "type") |].
  split; [exact (Hmember "backend") |].
  split; [exact (Hmember "model") |].
  split; [apply unescape_escape |].
  split; [exact (Hmember "sensitivity") | exact (Hmember "sample_rate")].
Qed.

Lemma bridge_threshold_is_porcupine_sensitivity_witness :
  exists line o raw rest,
    calls (Bridge.main Sample.keyed bridge_threshold_flag [Frame 0%Z; Signal] [] 0) =
      PorcupineCreate "secret" "/opt/voice/models/claudette_linux.ppn" (7 # 10)
      :: PyAudio :: PaOpen 16000 512 :: Stdout line true :: rest /\
    loads line = Some o /\
    member o "type" = Some (SString "listener_started") /\
    member o "backend" = Some (SString "porcupine") /\
    member o "model" = Some (SString raw) /\
    unescape raw = Some "/opt/voice/models/claudette_linux.ppn" /\
    member o "sensitivity" = Some (SNumber "0.7") /\
    member o "sample_rate" = Some (SNumber "16000").
Proof.
  apply (bridge_threshold_is_porcupine_sensitivity Sample.keyed
           bridge_threshold_flag [Frame 0%Z; Signal] [] 0
           {| Bridge.backend := "porcupine"; Bridge.model := None;
              Bridge.threshold := (7 # 10)%Q; Bridge.access_key := Some "secret" |}
           {| sample_rate := 16000; frame_length := 512 |}).
  - intros x. apply sample_repr_number.
  - vm_compute. reflexivity.
  - reflexivity.
  - reflexivity.
  - reflexivity.
  - reflexivity.
Defined.

(** ** A release that fails in the signal handler *)

Lemma detection_not_stopped (c : call) :
  is_detection c = true -> is_stopped c = false.
Proof.
  destruct c as [| | | | | | | line | text flush]; try discriminate.
  - destruct line; try discriminate; reflexivity.
  - cbn [is_detection is_stopped]. intros H.
    destruct (is_event "listener_stopped" text) eqn:E; [| reflexivity].
    pose proof (is_event_unique _ _ _ H E). discriminate.
Qed.

Lemma stdout_not_terminate (c : call) :
  is_stdout c = true -> is_pa_terminate c = false.
Proof. destruct c; try discriminate; reflexivity. Qed.

Lemma stdout_not_delete (c : call) :
  is_stdout c = true -> is_porcupine_delete c = false.
Proof. destruct c; try discriminate; reflexivity. Qed.

Lemma stdout_not_close (c : call) :
  is_stdout c = true -> is_stream_close c = false.
Proof. destruct c; try discriminate; reflexivity. Qed.

Lemma say_not_terminate (c : call) :
  is_say c = true -> is_pa_terminate c = false.
Proof. destruct c; try discriminate; reflexivity. Qed.

Lemma say_not_delete (c : call) :
  is_say c = true -> is_porcupine_delete c = false.
Proof. destruct c; try discriminate; reflexivity. Qed.

Lemma say_not_close (c : call) :
  is_say c = true -> is_stream_close c = false.
Proof. destruct c; try discriminate; reflexivity. Qed.

Section FailedClose.
Variable w : world.
Hypothesis stuck : raises w StreamClose = true.

Lemma bridge_porcupine_shutdown_stuck {A} (k : nat) :
  @Bridge.porcupine_shutdown w A k = Run [StreamClose] k (Stop (Uncaught DeviceError)).
Proof.
  unfold Bridge.porcupine_shutdown.
  apply bind_stop. unfold release.
  rewrite (bind_run _ _ _ _ [StreamClose] tt) by reflexivity.
  now rewrite stuck.
Qed.

Lemma bridge_oww_shutdown_stuck {A} (k : nat) :
  @Bridge.oww_shutdown w A k = Run [StreamClose] k (Stop (Uncaught DeviceError)).
Proof.
  unfold Bridge.oww_shutdown.
  apply bind_stop. unfold release.
  rewrite (bind_run _ _ _ _ [StreamClose] tt) by reflexivity.
  now rewrite stuck.
Qed.

Lemma oww_shutdown_stuck {A} (k : nat) :
  @OwwListener.shutdown w A k =
  Run [Say ShuttingDown; StreamClose] k (Stop (Uncaught DeviceError)).
Proof.
  unfold OwwListener.shutdown. performs (Say ShuttingDown).
  rewrite (bind_stop _ _ _ k [StreamClose] (Uncaught DeviceError));
    [reflexivity |].
  unfold release. rewrite (bind_run _ _ _ _ [StreamClose] tt) by reflexivity.
  now rewrite stuck.
Qed.

Lemma porcupine_shutdown_stuck {A} (k : nat) :
  @PorcupineListener.shutdown w A k =
  Run [Say ShuttingDown; StreamClose] k (Stop (Uncaught DeviceError)).
Proof.
  unfold PorcupineListener.shutdown. performs (Say ShuttingDown).
  rewrite (bind_stop _ _ _ k [StreamClose] (Uncaught DeviceError));
    [reflexivity |].
  unfold release. rewrite (bind_run _ _ _ _ [StreamClose] tt) by reflexivity.
  now rewrite stuck.
Qed.

Hypothesis floats : forall x, is_number (float_repr w x) = true.

Lemma on_detection_detections (backend word : string) (score : option Q) :
  always is_detection (Bridge.on_detection w backend word score).
Proof.
  intros k. rewrite on_detection_run. cbn [calls forallb is_detection].
  rewrite detection_is_event; [reflexivity |]. intros x _. apply floats.
Qed.

Lemma bridge_porcupine_frames_detections (frames : list Z) :
  always is_detection (Bridge.porcupine_loop w (map Frame frames)).
Proof.
  induction frames as [| index rest IH]; cbn [map Bridge.porcupine_loop].
  - apply always_ret.
  - apply always_bind; [| intros _; exact IH].
    unfold Bridge.porcupine_iteration.
    destruct (index >=? 0)%Z; [apply on_detection_detections | apply always_ret].
Qed.

Lemma bridge_oww_frames_detections (threshold : Q)
    (frames : list (list (string * Q))) :
  always is_detection (Bridge.oww_loop w threshold (map Frame frames)).
Proof.
  induction frames as [| predictions rest IH]; cbn [map Bridge.oww_loop].
  - apply always_ret.
  - apply always_bind; [| intros _; exact IH].
    unfold Bridge.oww_iteration. apply always_for_each. intros [word score].
    destruct (Qle_bool threshold (as_float score));
      [apply on_detection_detections | apply always_ret].
Qed.

Lemma bridge_porcupine_loop_stuck (frames : list Z) (later : list (stimulus Z))
    (k : nat) :
  handler_failed
    (Bridge.porcupine_loop w (map Frame frames ++ Signal :: later) k) false.
Proof.
  unfold handler_failed. rewrite bridge_porcupine_loop_app.
  destruct (bridge_porcupine_frames w frames k) as [Hr Hc].
  pose proof (bridge_porcupine_frames_detections frames k) as Hd.
  remember (Bridge.porcupine_loop w (map Frame frames)) as m eqn:Em.
  rewrite (bind_run m _ k (reads (m k)) (calls (m k)) tt)
    by (now rewrite <- Hr, run_eta).
  cbn [Bridge.porcupine_loop]. rewrite bridge_porcupine_shutdown_stuck.
  cbn [calls result]. rewrite !count_app, existsb_app.
  rewrite (count_none _ _ _ stdout_not_close Hc),
    (count_none _ _ _ stdout_not_terminate Hc),
    (count_none _ _ _ stdout_not_delete Hc),
    (existsb_none _ _ _ detection_not_stopped Hd).
  repeat split.
Qed.

Lemma bridge_oww_loop_stuck (threshold : Q) (frames : list (list (string * Q)))
    (later : list (stimulus (list (string * Q)))) (k : nat) :
  handler_failed
    (Bridge.oww_loop w threshold (map Frame frames ++ Signal :: later) k) false.
Proof.
  unfold handler_failed. rewrite bridge_oww_loop_app.
  destruct (bridge_oww_frames w threshold frames k) as [Hr Hc].
  pose proof (bridge_oww_frames_detections threshold frames k) as Hd.
  remember (Bridge.oww_loop w threshold (map Frame frames)) as m eqn:Em.
  rewrite (bind_run m _ k (reads (m k)) (calls (m k)) tt)
    by (now rewrite <- Hr, run_eta).
  cbn [Bridge.oww_loop]. rewrite bridge_oww_shutdown_stuck.
  cbn [calls result]. rewrite !count_app, existsb_app.
  rewrite (count_none _ _ _ stdout_not_close Hc),
    (count_none _ _ _ stdout_not_terminate Hc),
    (count_none _ _ _ stdout_not_delete Hc),
    (existsb_none _ _ _ detection_not_stopped Hd).
  repeat split.
Qed.

End FailedClose.

Section FailedCloseStandalone.
Variable w : world.
Hypothesis stuck : raises w StreamClose = true.

Lemma oww_loop_stuck (threshold start_time : Q)
    (frames : list (list (string * Q)))
    (later : list (stimulus (list (string * Q)))) (n k : nat) :
  handler_failed
    (OwwListener.loop w threshold start_time
             (map Frame frames ++ Signal :: later) n k) true.
Proof.
  unfold handler_failed. rewrite oww_loop_app.
  pose proof (oww_loop_counts w threshold start_time frames n k) as Hr.
  pose proof (oww_frames_say w threshold start_time frames n k) as Hc.
  remember (OwwListener.loop w threshold start_time (map Frame frames) n) as m eqn:Em.
  rewrite (bind_run m _ k (reads (m k)) (calls (m k)) _)
    by (rewrite <- Hr; now rewrite run_eta).
  cbn [OwwListener.loop]. rewrite (oww_shutdown_stuck w stuck).
  cbn [calls result]. rewrite !count_app, existsb_app.
  rewrite (count_none _ _ _ say_not_close Hc),
    (count_none _ _ _ say_not_terminate Hc),
    (count_none _ _ _ say_not_delete Hc).
  repeat split. apply orb_true_r.
Qed.

Lemma porcupine_loop_stuck (start_time : Q) (frames : list Z)
    (later : list (stimulus Z)) (n k : nat) :
  handler_failed
    (PorcupineListener.loop w start_time
             (map Frame frames ++ Signal :: later) n k) true.
Proof.
  unfold handler_failed. rewrite porcupine_loop_app.
  pose proof (porcupine_loop_counts w start_time frames n k) as Hr.
  pose proof (porcupine_frames_say w start_time frames n k) as Hc.
  remember (PorcupineListener.loop w start_time (map Frame frames) n) as m eqn:Em.
  rewrite (bind_run m _ k (reads (m k)) (calls (m k)) _)
    by (rewrite <- Hr; now rewrite run_eta).
  cbn [PorcupineListener.loop]. rewrite (porcupine_shutdown_stuck w stuck).
  cbn [calls result]. rewrite !count_app, existsb_app.
  rewrite (count_none _ _ _ say_not_close Hc),
    (count_none _ _ _ say_not_terminate Hc),
    (count_none _ _ _ say_not_delete Hc).
  repeat split. apply orb_true_r.
Qed.

End FailedCloseStandalone.

(** X12.  When [stream.close()] raises in the signal handler, in every
    variant the handler stops there: the audio subsystem is not terminated,
    the Porcupine handle is not deleted, and the process ends with the
    exception (exit status 1) instead of status 0.  The bridge then writes
    no [listener_stopped] event, whereas the standalone listeners have
    printed their stop line already, before the failing call.  For the
    bridge this supposes that the [repr] of a float is a JSON number. *)
Theorem failed_close_stops_the_handler :
  forall (w : world) (keyword_frames : list Z)
         (score_frames : list (list (string * Q)))
         (keyword_later : list (stimulus Z))
         (score_later : list (stimulus (list (string * Q))))
         (threshold start_time : Q) (n k : nat),
    raises w StreamClose = true ->
    (forall x, is_number (float_repr w x) = true) ->
    handler_failed
      (Bridge.porcupine_loop w
         (map Frame keyword_frames ++ Signal :: keyword_later) k) false /\
    handler_failed
      (Bridge.oww_loop w threshold
         (map Frame score_frames ++ Signal :: score_later) k) false /\
    handler_failed
      (OwwListener.loop w threshold start_time
         (map Frame score_frames ++ Signal :: score_later) n k) true /\
    handler_failed
      (PorcupineListener.loop w start_time
         (map Frame keyword_frames ++ Signal :: keyword_later) n k) true.
Proof.
  intros w kf sf kl sl threshold start_time n k stuck floats.
  split; [now apply bridge_porcupine_loop_stuck |].
  split; [now apply bridge_oww_loop_stuck |].
  split; [now apply oww_loop_stuck | now apply porcupine_loop_stuck].
Qed.

Lemma failed_close_stops_the_handler_witness :
  handler_failed
    (Bridge.porcupine_loop Sample.stuck (map Frame [0%Z] ++ Signal :: []) 1) false /\
  handler_failed
    (Bridge.oww_loop Sample.stuck (1 # 2)
       (map Frame [[("claudette", (7 # 10)%Q)]] ++ Signal :: []) 1) false /\
  handler_failed
    (OwwListener.loop Sample.stuck (1 # 2) 0
       (map Frame [[("claudette", (7 # 10)%Q)]] ++ Signal :: []) 0 1) true /\
  handler_failed
    (PorcupineListener.loop Sample.stuck 0 (map Frame [0%Z] ++ Signal :: []) 0 1)
    true.
Proof.
  apply (failed_close_stops_the_handler Sample.stuck [0%Z]
           [[("claudette", (7 # 10)%Q)]] [] [] (1 # 2) 0 0 1).
  - reflexivity.
  - intros x. apply sample_repr_number.
Defined.

(** ** What the openWakeWord loop of the bridge writes *)

Lemma detection_lines_app (w : world) (backend : string)
    (a b : list (string * Q)) (k : nat) :
  detection_lines w backend (a ++ b) k =
  detection_lines w backend a k ++ detection_lines w backend b (k + List.length a).
Proof.
  revert k. induction a as [| [word score] a IH]; intros k; simpl.
  - now rewrite Nat.add_0_r.
  - now rewrite IH, Nat.add_succ_r.
Qed.

Lemma forward_detection_lines (w : world) (backend : string)
    (items : list (string * Q)) (k : nat) :
  for_each (fun item => Bridge.on_detection w backend (fst item) (Some (snd item)))
    items k =
  Run (detection_lines w backend items k) (k + List.length items) (Val tt).
Proof.
  revert k. induction items as [| [word score] rest IH]; intros k;
    cbn [for_each detection_lines List.length fst snd].
  - unfold ret. now rewrite Nat.add_0_r.
  - rewrite (bind_run _ _ _ _ _ tt (on_detection_run w backend word (Some score) k)).
    rewrite IH. cbn [calls reads result app]. now rewrite Nat.add_succ_r.
Qed.

Section Served.
Variable w : world.

Lemma on_detection_float (backend word : string) (x : Q) (k : nat) :
  Bridge.on_detection w backend word (Some (Float x)) k =
  Run [Stdout
         (dumps w [("ts", JStr (isoformat (utc (clock w k))));
                   ("type", JStr "wake_word_detected");
                   ("backend", JStr backend);
                   ("word", JStr word);
                   ("score", JFloat x)])
         true]
      (S k) (Val tt).
Proof. reflexivity. Qed.

Lemma on_detection_float32 (backend word : string) (x : Q) (k : nat) :
  Bridge.on_detection w backend word (Some (Float32 x)) k =
  Run [] (S k) (Stop (Uncaught TypeError)).
Proof. reflexivity. Qed.

Lemma bridge_oww_iteration_serves (threshold : Q)
    (predictions : list (string * score)) (k : nat) :
  Bridge.oww_iteration w threshold predictions k =
  serving w (fst (served threshold predictions))
    (snd (served threshold predictions)) k.
Proof.
  unfold Bridge.oww_iteration, serving. revert k.
  induction predictions as [| [word s] rest IH]; intros k;
    cbn [for_each served].
  - cbn. now rewrite Nat.add_0_r, Nat.add_0_r.
  - destruct (Qle_bool threshold (as_float s)).
    + destruct s as [x | x].
      * rewrite (bind_run _ _ _ _ _ tt (on_detection_float "oww" word x k)).
        rewrite IH. destruct (served threshold rest) as [written refused].
        cbn [fst snd detection_lines List.length calls reads result app].
        now rewrite !Nat.add_succ_r.
      * rewrite (bind_stop _ _ _ _ _ _ (on_detection_float32 "oww" word x k)).
        cbn. now rewrite Nat.add_0_r, Nat.add_1_r.
    + rewrite bind_ret_l. apply IH.
Qed.

Lemma served_app (threshold : Q) (a b : list (string * score)) :
  served threshold (a ++ b) =
  if snd (served threshold a) then (fst (served threshold a), true)
  else (fst (served threshold a) ++ fst (served threshold b),
        snd (served threshold b)).
Proof.
  induction a as [| [word s] a IH].
  - rewrite app_nil_l. cbn [served fst snd]. now destruct (served threshold b).
  - rewrite <- app_comm_cons. cbn [served].
    destruct (Qle_bool threshold (as_float s)); [| exact IH].
    destruct s as [x | x]; [| reflexivity].
    rewrite IH. destruct (served threshold a) as [written refused].
    now destruct refused.
Qed.

End Served.

(** X13.  On any sequence of frames, the openWakeWord loop of the bridge
    goes through the predictions that reach the threshold, in the order of
    the frames and, within a frame, of the predictions.  For each one that
    is a Python float it writes one detection line, with the next reading
    of the clock.  At the first one that is a [numpy.float32] it reads the
    clock and ends with the [TypeError] of [json.dumps]: nothing is written
    for it, nor for anything after it.  The clock is read for nothing
    else. *)
Theorem bridge_oww_loop_serves :
  forall (w : world) (threshold : Q) (frames : list (list (string * score)))
         (k : nat),
    Bridge.oww_loop w threshold (map Frame frames) k =
    serving w (fst (served threshold (List.concat frames)))
      (snd (served threshold (List.concat frames))) k.
Proof.
  intros w threshold frames. induction frames as [| predictions rest IH];
    intros k; cbn [map Bridge.oww_loop List.concat].
  - unfold serving. cbn. now rewrite !Nat.add_0_r.
  - pose proof (bridge_oww_iteration_serves w threshold predictions k) as E.
    rewrite served_app.
    destruct (served threshold predictions) as [written refused].
    cbn [fst snd] in *. unfold serving in E. destruct refused.
    + rewrite (bind_stop _ _ _ _ _ _ E). reflexivity.
    + rewrite (bind_run _ _ _ _ _ tt E), IH.
      destruct (served threshold (List.concat rest)) as [written' refused'].
      unfold serving. cbn [fst snd calls reads result].
      rewrite detection_lines_app, length_app, !Nat.add_0_r.
      now rewrite !Nat.add_assoc.
Qed.

(** ** The bridge writes printable ASCII *)

Lemma printable_app (a b : string) :
  printable (a +++ b) = printable a && printable b.
Proof.
  induction a as [| c a IH]; cbn [String.append printable]; [reflexivity |].
  now rewrite IH, andb_assoc.
Qed.

Lemma printable_escape (s : string) : printable (escape s) = true.
Proof.
  induction s as [| c s IH]; [reflexivity |].
  cbn [escape]. rewrite printable_app, IH, andb_true_r.
  destruct c as [[] [] [] [] [] [] [] []]; reflexivity.
Qed.

Lemma printable_quoted (s : string) : printable (quoted s) = true.
Proof.
  unfold quoted. cbn [printable]. rewrite printable_app, printable_escape.
  reflexivity.
Qed.

Lemma numstep_printable (q q' : numstate) (c : ascii) :
  numstep q c = Some q' -> ((32 <=? N_of_ascii c) && (N_of_ascii c <=? 126))%N = true.
Proof.
  destruct c as [[] [] [] [] [] [] [] []]; destruct q;
    try discriminate; reflexivity.
Qed.

Lemma numrun_printable (q : numstate) (s : string) :
  numrun q s = true -> printable s = true.
Proof.
  revert q. induction s as [| c s IH]; intros q H; [reflexivity |].
  simpl in H. destruct (numstep q c) as [q' |] eqn:E; [| discriminate].
  cbn [printable]. rewrite (numstep_printable _ _ _ E). now apply (IH q').
Qed.

Section Printable.
Context {S : Type} {kind : Score S}.
Variable w : world.
Hypothesis floats : forall x, is_number (float_repr w x) = true.

Lemma printable_value (v : value) : printable (dumps_value w v) = true.
Proof.
  destruct v as [| s | x | n]; cbn [dumps_value].
  - reflexivity.
  - apply printable_quoted.
  - apply (numrun_printable NStart), floats.
  - apply (numrun_printable NStart), int_is_number.
Qed.

Lemma printable_item (kv : string * value) : printable (dumps_item w kv) = true.
Proof.
  unfold dumps_item.
  now rewrite !printable_app, printable_quoted, printable_value.
Qed.

Lemma printable_items (d : dict) : printable (dumps_items w d) = true.
Proof.
  induction d as [| kv d IH]; [reflexivity |].
  destruct d as [| kv2 d]; [apply printable_item |].
  change (dumps_items w (kv :: kv2 :: d))
    with (dumps_item w kv +++ ", " +++ dumps_items w (kv2 :: d)).
  now rewrite !printable_app, printable_item, IH.
Qed.

Lemma printable_dumps (d : dict) : printable (dumps w d) = true.
Proof.
  unfold dumps. now rewrite !printable_app, printable_items.
Qed.

Lemma emit_event_ascii (event_type : string) (data : dict) :
  always ascii_line (Bridge.emit_event w event_type data).
Proof.
  intros k. rewrite emit_event_run. cbn [calls forallb ascii_line].
  now rewrite printable_dumps.
Qed.

Lemma on_detection_ascii (backend word : string) (score : option S) :
  always ascii_line (Bridge.on_detection w backend word score).
Proof.
  unfold Bridge.on_detection. destruct score as [s |].
  - destruct (json_of s); [apply emit_event_ascii |].
    apply emit_event_refused_lines.
  - apply emit_event_ascii.
Qed.

Lemma bridge_porcupine_loop_ascii (arrivals : list (stimulus Z)) :
  always ascii_line (Bridge.porcupine_loop w arrivals).
Proof.
  induction arrivals as [| [index | e |] rest IH]; cbn [Bridge.porcupine_loop].
  - apply always_ret.
  - apply always_bind; [| intros _; exact IH].
    unfold Bridge.porcupine_iteration.
    destruct (index >=? 0)%Z; [apply emit_event_ascii | apply always_ret].
  - apply always_raise.
  - unfold Bridge.porcupine_shutdown.
    repeat (always_step; try apply emit_event_ascii).
Qed.

Lemma bridge_oww_loop_ascii (threshold : Q)
    (arrivals : list (stimulus (list (string * S)))) :
  always ascii_line (Bridge.oww_loop w threshold arrivals).
Proof.
  induction arrivals as [| [predictions | e |] rest IH]; cbn [Bridge.oww_loop].
  - apply always_ret.
  - apply always_bind; [| intros _; exact IH].
    unfold Bridge.oww_iteration. apply always_for_each. intros [word score].
    destruct (Qle_bool threshold (as_float score));
      [apply on_detection_ascii | apply always_ret].
  - apply always_raise.
  - unfold Bridge.oww_shutdown.
    repeat (always_step; try apply emit_event_ascii).
Qed.

Lemma bridge_main_ascii (f : Bridge.flags) (ka : list (stimulus Z))
    (sa : list (stimulus (list (string * S)))) :
  always ascii_line (Bridge.main w f ka sa).
Proof.
  unfold Bridge.main. apply always_bind; [apply bridge_parse_args_silent |].
  intros a. destruct (String.eqb (Bridge.backend a) "porcupine").
  - destruct (falsy (Bridge.access_key a)).
    + apply always_bind; [| intros _; apply always_sys_exit].
      apply always_perform. vm_compute. reflexivity.
    + unfold Bridge.run_porcupine.
      repeat (always_step;
              try apply emit_event_ascii;
              try apply bridge_porcupine_loop_ascii).
  - unfold Bridge.run_oww.
    repeat (always_step;
            try apply emit_event_ascii;
            try apply bridge_oww_loop_ascii).
Qed.

End Printable.

(** X14.  Every line the bridge writes consists of printable ASCII
    characters only (codes 32 to 126), whichever characters up to U+00FF the
    wake word, the model path or the backend name hold (control characters,
    quotes, Latin-1 letters): [json.dumps] escapes the rest.  This holds for
    every command line of the options the bridge declares ([-h]/[--help],
    on which argparse prints its usage, is not one of them).  Strings hold
    code points up to U+00FF, thresholds are finite floats, and the [repr]
    of a finite float is a JSON number. *)
Theorem bridge_writes_printable_ascii :
  forall (w : world) (f : Bridge.flags) (keyword_arrivals : list (stimulus Z))
         (score_arrivals : list (stimulus (list (string * score)))) (k : nat),
    (forall x, is_number (float_repr w x) = true) ->
    forallb ascii_line
      (calls (Bridge.main w f keyword_arrivals score_arrivals k)) = true.
Proof.
  intros w f ka sa k floats. now apply bridge_main_ascii.
Qed.

Lemma bridge_writes_printable_ascii_witness :
  forallb ascii_line
    (calls (Bridge.main Sample.plain
              {| Bridge.flag_backend := Some "oww";
                 Bridge.flag_model := Some Sample.tflite;
                 Bridge.flag_threshold := None;
                 Bridge.flag_access_key := None |}
              []
              [Frame [(String "233"%char "t" +++ String "010"%char "", Float 1)];
               Signal]
              0)) = true.
Proof.
  apply (bridge_writes_printable_ascii Sample.plain
           {| Bridge.flag_backend := Some "oww";
              Bridge.flag_model := Some Sample.tflite;
              Bridge.flag_threshold := None;
              Bridge.flag_access_key := None |}
           []
           [Frame [(String "233"%char "t" +++ String "010"%char "", Float 1)];
            Signal]
           0).
  intros x. apply sample_repr_number.
Defined.

(** ** The threshold in the standalone openWakeWord listener *)

(** X15.  Whatever the threshold, a turn of the loop of the standalone
    openWakeWord listener calls [on_wake_word_detected] on exactly the
    (word, score) pairs of the frame whose score is at least the threshold,
    the boundary included, in the order of the frame, and counts them; it
    prints a detection line for a pair if and only if the pair is in the
    frame and its score reaches the threshold.  The loop runs one such turn
    for every frame that arrives. *)
Theorem standalone_forwards_iff_score_reaches_threshold :
  forall (w : world) (threshold : Q),
    (forall word score predictions,
        In (word, score) (passing threshold predictions) <->
        In (word, score) predictions /\ (threshold <= score)%Q) /\
    (forall start_time predictions n k,
        OwwListener.iteration w threshold start_time predictions n k =
        (for_each
           (fun item => OwwListener.on_wake_word_detected w (fst item) (snd item))
           (passing threshold predictions) ;;;
         let n' := n + List.length (passing threshold predictions) in
         OwwListener.report_stats w start_time n' ;;; ret n') k) /\
    (forall start_time predictions n k word score,
        (exists ts,
            In (Say (DetectedScore ts word score))
              (calls (OwwListener.iteration w threshold start_time predictions n k)))
        <-> In (word, score) predictions /\ (threshold <= score)%Q) /\
    (forall start_time frames predictions n k,
        OwwListener.loop w threshold start_time
          (map Frame (frames ++ [predictions])) n k =
        (c <- OwwListener.loop w threshold start_time (map Frame frames) n ;;
         OwwListener.iteration w threshold start_time predictions c) k).
Proof.
  intros w threshold.
  split; [intros; apply passing_In |].
  split; [apply oww_iteration_passing |].
  split; [intros; apply oww_iteration_lines | apply oww_loop_snoc].
Qed.
